(** * Code Conclave: the findings pipeline, verified against its source

    A shallow embedding of the deterministic core of the review pipeline
    (package [conclave]):

    - [core/findings.py]   the markdown findings parser,
    - [core/validator.py]  the validator pass and its adjustments,
    - [core/synthesis.py]  the verdict and the exit code,
    - [core/scanner.py]    file tiering and the two-pass budgeted selection,
    - [providers/base.py]  the retry policy of [complete_with_retry],
    - [utils/sanitize.py]  the error sanitizer,
    - [core/calibration.py]  the calibration file and the context built
      from it,
    - [formatters/junit.py]  the counters of the JUnit export,

    and of the parts of the synthesis report, of the run archive and of
    the diff context that are computed from the findings and the changed
    files.

    Conventions of the embedding.

    - A Python [str] is a [string]: the sequence of bytes of its UTF-8
      encoding.  Character classes ([\s], [\d], [\b], [str.upper],
      [str.strip], ...) are the ones Python applies to code points below
      128; a byte above 127 belongs to no class and has no case.  Offsets
      are byte offsets.  On a text of ASCII characters this is what Python
      does.  On other texts Python counts offsets in code points and knows
      white space, digits and letters beyond code point 127: [\s] matches
      U+00A0, [\d] matches U+0661 and, under [re.IGNORECASE], [K] matches
      U+212A.  A property that depends on a class is therefore stated of
      ASCII texts ([Chars.ascii_only]).
    - A [dict] with a fixed set of keys is a record whose optional keys are
      [option] fields; a [dict] of counters is a [gmap string Z]; an
      insertion-ordered [dict] that the code iterates over is an
      association list.
    - Regular expressions are written in an abstract syntax ([Re.regex])
      and run by a backtracking matcher with the priorities of Python's
      [re] module. *)

From Stdlib Require Import String Ascii ZArith Lia Bool.
From stdpp Require Import gmap strings list pretty sorting.

Open Scope string_scope.
Open Scope Z_scope.
Open Scope list_scope.
Open Scope stdpp_scope.

(** ** Python strings *)

Module Py.

Definition code (a : ascii) : nat := nat_of_ascii a.

Definition in_range (lo hi : nat) (a : ascii) : bool :=
  (lo <=? code a)%nat && (code a <=? hi)%nat.

(** [str.isspace] and the class [\s] on code points below 128. *)
Definition is_space (a : ascii) : bool :=
  in_range 9 13 a || in_range 28 32 a.

(** The class [\d]. *)
Definition is_digit (a : ascii) : bool := in_range 48 57 a.

Definition is_upper (a : ascii) : bool := in_range 65 90 a.
Definition is_lower (a : ascii) : bool := in_range 97 122 a.

(** The class [\w], which decides [\b]. *)
Definition is_word (a : ascii) : bool :=
  is_upper a || is_lower a || is_digit a || Ascii.eqb a "_".

Definition upper_char (a : ascii) : ascii :=
  if is_lower a then ascii_of_nat (code a - 32) else a.

Definition lower_char (a : ascii) : ascii :=
  if is_upper a then ascii_of_nat (code a + 32) else a.

Fixpoint map_string (f : ascii -> ascii) (s : string) : string :=
  match s with
  | EmptyString => EmptyString
  | String a s' => String (f a) (map_string f s')
  end.

(** [s.upper()] and [s.lower()]. *)
Definition upper : string -> string := map_string upper_char.
Definition lower : string -> string := map_string lower_char.

(** Truth value of a string: [bool(s)]. *)
Definition truthy (s : string) : bool :=
  match s with EmptyString => false | _ => true end.

(** [s or None], for a string: the empty string becomes [None]. *)
Definition or_none (s : string) : option string :=
  if truthy s then Some s else None.

(** [s.startswith(p)]. *)
Definition startswith (s p : string) : bool := String.prefix p s.

(** The slice [s[i:j]] for [0 <= i], [0 <= j]. *)
Definition slice (s : string) (i j : nat) : string :=
  String.substring i (j - i) s.

(** The slice [s[i:]]. *)
Definition slice_from (s : string) (i : nat) : string :=
  String.substring i (String.length s - i) s.

(** [s.find(sub, start)]: the lowest index at or after [start] where
    [sub] occurs, [None] for Python's [-1]. *)
Fixpoint find_fuel (fuel : nat) (sub s : string) (i : nat) : option nat :=
  match fuel with
  | O => None
  | S fuel' =>
      if String.prefix sub s then Some i
      else match s with
           | EmptyString => None
           | String _ s' => find_fuel fuel' sub s' (S i)
           end
  end.

Definition find (s sub : string) (start : nat) : option nat :=
  find_fuel (S (String.length s)) sub (slice_from s start) start.

(** [sub in s]. *)
Definition contains (sub s : string) : bool :=
  match find s sub 0 with Some _ => true | None => false end.

Fixpoint lstrip (s : string) : string :=
  match s with
  | String a s' => if is_space a then lstrip s' else s
  | EmptyString => EmptyString
  end.

Fixpoint rstrip (s : string) : string :=
  match s with
  | EmptyString => EmptyString
  | String a s' =>
      match rstrip s' with
      | EmptyString => if is_space a then EmptyString else String a EmptyString
      | t => String a t
      end
  end.

(** [s.strip()]. *)
Definition strip (s : string) : string := rstrip (lstrip s).

(** [s.replace(old, new)] for a non-empty [old]. *)
Fixpoint replace_fuel (fuel : nat) (old new s : string) : string :=
  match fuel with
  | O => s
  | S fuel' =>
      if String.prefix old s
      then new +:+ replace_fuel fuel' old new
                    (slice_from s (String.length old))
      else match s with
           | EmptyString => EmptyString
           | String a s' => String a (replace_fuel fuel' old new s')
           end
  end.

Definition replace (s old new : string) : string :=
  replace_fuel (S (String.length s)) old new s.

(** [int(s)] for a string of decimal digits, at most 4300 of them.  On
    a longer string Python raises [ValueError] (the limit on the
    conversion of integer strings), which this function does not show:
    a property of a result with a converted number is stated of texts
    whose numbers fit ([Chars.numbers_fit]). *)
Definition digit_value (a : ascii) : Z := Z.of_nat (code a - 48).

Fixpoint int_acc (acc : Z) (s : string) : Z :=
  match s with
  | EmptyString => acc
  | String a s' => int_acc (10 * acc + digit_value a) s'
  end.

Definition int (s : string) : Z := int_acc 0 s.

(** [sep.join(parts)]. *)
Fixpoint join (sep : string) (parts : list string) : string :=
  match parts with
  | [] => ""
  | [p] => p
  | p :: rest => p +:+ sep +:+ join sep rest
  end.

End Py.

(** ** Regular expressions

    The patterns of the program, as syntax trees, and a backtracking
    matcher that explores alternatives in the order Python's [re] does:
    the left branch of [|] first, one more iteration first for a greedy
    repetition, the continuation first for a lazy one.  The first complete
    match found is the match. *)

Module Re.

Inductive regex : Type :=
| Eps                              (* the empty pattern *)
| Chr (p : ascii -> bool)          (* one character of a class *)
| Seq (r1 r2 : regex)              (* r1 r2 *)
| Alt (r1 r2 : regex)              (* r1|r2 *)
| Star (r : regex)                 (* r*  *)
| StarLazy (r : regex)             (* r*? *)
| Group (n : nat) (r : regex)      (* the n-th capturing group (r) *)
| Lookahead (r : regex)            (* (?=r) *)
| Bos                              (* ^ without MULTILINE *)
| Eos                              (* \Z *)
| Dollar                           (* $ without MULTILINE *)
| WordBoundary.                    (* \b *)

(** Derived forms. *)
Definition Plus (r : regex) : regex := Seq r (Star r).          (* r+  *)
Definition PlusLazy (r : regex) : regex := Seq r (StarLazy r).  (* r+? *)
Definition Opt (r : regex) : regex := Alt r Eps.                (* r?  *)

Fixpoint Repeat (n : nat) (r : regex) : regex :=                (* r{n} *)
  match n with O => Eps | S n' => Seq r (Repeat n' r) end.

Definition AtLeast (n : nat) (r : regex) : regex :=             (* r{n,} *)
  Seq (Repeat n r) (Star r).

Fixpoint Seqs (rs : list regex) : regex :=
  match rs with
  | [] => Eps
  | [r] => r
  | r :: rs' => Seq r (Seqs rs')
  end.

Fixpoint Alts (r : regex) (rs : list regex) : regex :=
  match rs with
  | [] => r
  | r' :: rs' => Alt r (Alts r' rs')
  end.

(** Character classes. *)
Definition is_chr (a : ascii) : ascii -> bool := Ascii.eqb a.
(** A pattern character under [re.IGNORECASE], on code points below
    128: the same letter in either case.  Python also lets [K] and [k]
    match U+212A, [S] and [s] match U+017F, and [I] and [i] match U+0130
    and U+0131, which are not ASCII. *)
Definition is_ci (a : ascii) : ascii -> bool :=
  fun b => Ascii.eqb (Py.lower_char a) (Py.lower_char b).
Definition any : ascii -> bool := fun _ => true.               (* [\s\S] *)
Definition dot : ascii -> bool := fun a => negb (Ascii.eqb a "010").
Definition space : ascii -> bool := Py.is_space.               (* \s *)
Definition nonspace : ascii -> bool := fun a => negb (Py.is_space a).
Definition digit : ascii -> bool := Py.is_digit.               (* \d *)
Definition one_of (s : string) : ascii -> bool :=
  fun a => existsb (Ascii.eqb a) (list_ascii_of_string s).
Definition none_of (s : string) : ascii -> bool :=
  fun a => negb (one_of s a).

(** A literal string, case-sensitive or under [re.IGNORECASE]. *)
Fixpoint Lit (s : string) : regex :=
  match s with
  | EmptyString => Eps
  | String a EmptyString => Chr (is_chr a)
  | String a s' => Seq (Chr (is_chr a)) (Lit s')
  end.

Fixpoint LitCi (s : string) : regex :=
  match s with
  | EmptyString => Eps
  | String a EmptyString => Chr (is_ci a)
  | String a s' => Seq (Chr (is_ci a)) (LitCi s')
  end.

(** The spans of the capturing groups that took part in a match. *)
Definition captures : Type := list (nat * (nat * nat)).

Fixpoint capture (n : nat) (c : captures) : option (nat * nat) :=
  match c with
  | [] => None
  | (m, span) :: c' => if (n =? m)%nat then Some span else capture n c'
  end.

Section matcher.

Variable text : list ascii.

Definition word_at (i : nat) : bool :=
  match text !! i with Some a => Py.is_word a | None => false end.

Definition at_word_boundary (i : nat) : bool :=
  xorb (match i with O => false | S j => word_at j end) (word_at i).

Definition at_dollar (i : nat) : bool :=
  (i =? length text)%nat
  || ((S i =? length text)%nat
      && match text !! i with
         | Some a => Ascii.eqb a "010"
         | None => false
         end).

(** [run r i c k]: match [r] at offset [i] with the captures [c] so
    far, then continue with [k]; [None] when every alternative fails.
    A repetition gives up an iteration that consumed nothing. *)
Fixpoint run (r : regex) (i : nat) (c : captures)
    (k : nat -> captures -> option (nat * captures))
    {struct r} : option (nat * captures) :=
  match r with
  | Eps => k i c
  | Chr p =>
      match text !! i with
      | Some a => if p a then k (S i) c else None
      | None => None
      end
  | Seq r1 r2 => run r1 i c (fun j c' => run r2 j c' k)
  | Alt r1 r2 =>
      match run r1 i c k with
      | Some res => Some res
      | None => run r2 i c k
      end
  | Star r1 =>
      (fix loop (fuel : nat) (i : nat) (c : captures) :=
         match fuel with
         | O => k i c
         | S fuel' =>
             match run r1 i c
                     (fun j c' =>
                        if (i <? j)%nat then loop fuel' j c' else None)
             with
             | Some res => Some res
             | None => k i c
             end
         end) (S (length text)) i c
  | StarLazy r1 =>
      (fix loop (fuel : nat) (i : nat) (c : captures) :=
         match fuel with
         | O => k i c
         | S fuel' =>
             match k i c with
             | Some res => Some res
             | None =>
                 run r1 i c
                   (fun j c' =>
                      if (i <? j)%nat then loop fuel' j c' else None)
             end
         end) (S (length text)) i c
  | Group n r1 => run r1 i c (fun j c' => k j ((n, (i, j)) :: c'))
  | Lookahead r1 =>
      match run r1 i c (fun j c' => Some (j, c')) with
      | Some (_, c') => k i c'
      | None => None
      end
  | Bos => if (i =? 0)%nat then k i c else None
  | Eos => if (i =? length text)%nat then k i c else None
  | Dollar => if at_dollar i then k i c else None
  | WordBoundary => if at_word_boundary i then k i c else None
  end.

(** The loops of the two repetitions, on their own. *)
Definition star_loop (r1 : regex)
    (k : nat -> captures -> option (nat * captures))
    : nat -> nat -> captures -> option (nat * captures) :=
  fix loop (fuel : nat) (i : nat) (c : captures) :=
    match fuel with
    | O => k i c
    | S fuel' =>
        match run r1 i c
                (fun j c' => if (i <? j)%nat then loop fuel' j c' else None)
        with
        | Some res => Some res
        | None => k i c
        end
    end.

Definition lazy_loop (r1 : regex)
    (k : nat -> captures -> option (nat * captures))
    : nat -> nat -> captures -> option (nat * captures) :=
  fix loop (fuel : nat) (i : nat) (c : captures) :=
    match fuel with
    | O => k i c
    | S fuel' =>
        match k i c with
        | Some res => Some res
        | None =>
            run r1 i c
              (fun j c' => if (i <? j)%nat then loop fuel' j c' else None)
        end
    end.

(** One attempt at a fixed offset: [pattern.match(text, i)]. *)
Definition match_at (r : regex) (i : nat) : option (nat * captures) :=
  run r i [] (fun j c => Some (j, c)).

End matcher.

(** A match object: [m.start()], [m.end()] and the group spans. *)
Record rmatch : Type :=
  { m_start : nat; m_end : nat; m_groups : captures }.

(** [m.group(n)] on the subject [s]; [None] when the group took no
    part in the match. *)
Definition group (s : string) (m : rmatch) (n : nat) : option string :=
  match capture n (m_groups m) with
  | Some (i, j) => Some (Py.slice s i j)
  | None => None
  end.

(** [re.finditer]: the non-overlapping matches, leftmost first.  After
    a match the scan resumes at its end (one further on after an empty
    match; no pattern of the program matches the empty string). *)
Fixpoint scan (fuel : nat) (r : regex) (text : list ascii) (i : nat)
    : list rmatch :=
  match fuel with
  | O => []
  | S fuel' =>
      if (length text <? i)%nat then []
      else match match_at text r i with
           | Some (j, c) =>
               {| m_start := i; m_end := j; m_groups := c |}
                 :: scan fuel' r text (if (i <? j)%nat then j else S i)
           | None => scan fuel' r text (S i)
           end
  end.

Definition finditer (r : regex) (s : string) : list rmatch :=
  let text := list_ascii_of_string s in
  scan (S (length text)) r text 0.

(** [re.search]: the leftmost match. *)
Fixpoint search_from (fuel : nat) (r : regex) (text : list ascii)
    (i : nat) : option rmatch :=
  match fuel with
  | O => None
  | S fuel' =>
      if (length text <? i)%nat then None
      else match match_at text r i with
           | Some (j, c) =>
               Some {| m_start := i; m_end := j; m_groups := c |}
           | None => search_from fuel' r text (S i)
           end
  end.

Definition search (r : regex) (s : string) : option rmatch :=
  let text := list_ascii_of_string s in
  search_from (S (length text)) r text 0.

(** [re.match]: a match at offset 0. *)
Definition match_ (r : regex) (s : string) : option rmatch :=
  match match_at (list_ascii_of_string s) r 0 with
  | Some (j, c) => Some {| m_start := 0; m_end := j; m_groups := c |}
  | None => None
  end.

(** [re.sub(r, repl, s)] for a replacement without group references. *)
Fixpoint splice (s : string) (from : nat) (repl : string)
    (ms : list rmatch) : string :=
  match ms with
  | [] => Py.slice_from s from
  | m :: ms' =>
      Py.slice s from (m_start m) +:+ repl +:+ splice s (m_end m) repl ms'
  end.

Definition sub (r : regex) (repl s : string) : string :=
  splice s 0 repl (finditer r s).

End Re.


(** ** Data model *)

Definition LF : string := String "010" EmptyString.
Definition CR : string := String "013" EmptyString.

(** One finding: the keys [parse_findings_markdown] writes, and the keys
    the validator adds ([original_severity], [validated],
    [validation_reason]).  [id], [title] and [severity] are always
    present; an absent optional key is [None]. *)
Record Finding : Type := mkFinding
  { fid : string;
    title : string;
    severity : string;
    file : option string;
    line : option Z;
    effort : option string;
    issue : option string;
    evidence : option string;
    recommendation : option string;
    original_severity : option string;
    validated : option string;
    validation_reason : option string }.

(** One agent's result.  [summary] is the dict of counters
    [blockers], [high], [medium], [low], [total].  The keys [version],
    [agent], [run] and [tokens] hold copies of the caller's arguments and
    the clock; nothing modelled here reads them. *)
Record AgentData : Type := mkAgentData
  { status : option string;
    summary : option (gmap string Z);
    findings : option (list Finding);
    rawMarkdown : option string }.

(** [dict[str, dict]]: agent key to agent result, in insertion order. *)
Definition AllFindings : Type := list (string * AgentData).

(** [d.get(key, 0)] on a dict of counters. *)
Definition get0 (d : gmap string Z) (key : string) : Z :=
  default 0 (d !! key).

(** [agent_data.get("findings", [])]. *)
Definition get_findings (d : AgentData) : list Finding :=
  default [] (findings d).

(** ** [core/findings.py]: the findings parser *)

Module Findings.
Import Re.

(** The pattern of a fenced code block: three backticks, anything
    (lazily), three backticks. *)
Definition code_block_re : regex :=
  Seqs [Lit "```"; StarLazy (Chr any); Lit "```"].

Definition _get_code_block_ranges (content : string) : list (nat * nat) :=
  map (fun m => (m_start m, m_end m)) (finditer code_block_re content).

Fixpoint _in_code_block (pos : nat) (ranges : list (nat * nat)) : bool :=
  match ranges with
  | [] => false
  | (start, end_) :: ranges' =>
      if (start <=? pos)%nat && (pos <? end_)%nat then true
      else _in_code_block pos ranges'
  end.

Definition upper_AZ : ascii -> bool := Py.is_upper.
Definition lower_az : ascii -> bool := Py.is_lower.

(** Common prefix of the labelled fields: an optional bold opener, the
    label, an optional bold closer, an optional colon and up to two
    stars. *)
Definition label (name : regex) : regex :=
  Seqs [Opt (Lit "**"); name; Opt (Lit "**"); Opt (Lit ":");
        Opt (Lit "*"); Opt (Lit "*")].

Definition opt_cr_lf : regex := Seq (Opt (Lit CR)) (Lit LF).

Definition section_re (header : regex) : regex :=
  Seqs [label header; Star (Chr space); opt_cr_lf;
        Group 1 (StarLazy (Chr any));
        Lookahead (Alts (Seqs [opt_cr_lf; Lit "**"; Chr upper_AZ])
                        [Seq opt_cr_lf (Lit "---"); Eos])].

Definition fence_open_re : regex :=
  Seqs [Bos; Star (Chr space); Lit "```"; Star (Chr lower_az);
        Star (Chr space); opt_cr_lf].

Definition fence_close_re : regex :=
  Seqs [opt_cr_lf; Star (Chr space); Lit "```"; Star (Chr space); Dollar].

Definition _get_section_text (content : string) (header : regex)
    : option string :=
  match search (section_re header) content with
  | None => None
  | Some m =>
      let text := Py.strip (default "" (group content m 1)) in
      let text := sub fence_open_re "" text in
      let text := sub fence_close_re "" text in
      Py.or_none (Py.strip text)
  end.

(** The heading of a finding: [### ID: Title [SEVERITY]].  The classes
    [\s] and [\d] are the ones of code points below 128: of a text with
    other white space or other digits (U+00A0, U+0661) Python's pattern
    matches more than this one. *)
Definition heading_re : regex :=
  Seqs [Lit "###"; Plus (Chr space);
        Group 1 (Seqs [Plus (Chr upper_AZ); Lit "-"; Plus (Chr digit)]);
        Lit ":"; Star (Chr space);
        Group 2 (PlusLazy (Chr dot));
        Star (Chr space); Lit "[";
        Group 3 (Alts (Lit "BLOCKER") [Lit "HIGH"; Lit "MEDIUM"; Lit "LOW"]);
        Lit "]"].

(** A character of a location: no whitespace, backtick or star. *)
Definition loc_char : ascii -> bool :=
  fun a => negb (Py.is_space a) && none_of "`*" a.

Definition loc_re : regex :=
  Seqs [label (Alt (Lit "Location") (Lit "File")); Star (Chr space);
        Opt (Lit "`");
        Group 1 (Seq (Plus (Chr loc_char))
                     (Opt (Seq (Lit ":") (Star (Chr loc_char)))));
        Opt (Lit "`")].

Definition line_check_re : regex :=
  Seqs [Bos; Group 1 (Plus (Chr dot)); Lit ":"; Group 2 (Plus (Chr digit));
        Dollar].

Definition line_re : regex :=
  Seqs [label (Lit "Line"); Star (Chr space); Group 1 (Plus (Chr digit))].

Definition effort_re : regex :=
  Seqs [label (Lit "Effort"); Star (Chr space); Group 1 (Chr (one_of "SML"));
        WordBoundary].

Definition field_line_re : regex :=
  Seqs [Lit "**";
        Alts (Lit "Location")
             [Lit "File"; Lit "Line"; Lit "Effort"; Lit "Evidence";
              Lit "Recommendation"; Lit "Remediation"; Lit "Issue"];
        Opt (Lit "**"); Opt (Lit ":");
        Star (Chr (fun a => negb (Ascii.eqb a "013" || Ascii.eqb a "010")))].

(** The body of the loop of [parse_findings_markdown] for one heading
    match that is kept: the section up to the next [###] and its
    fields. *)
Definition finding_of_match (content : string) (m : rmatch) : Finding :=
  let finding_id := default "" (group content m 1) in
  let title_ := Py.strip (default "" (group content m 2)) in
  let severity_ := default "" (group content m 3) in
  let start_pos := m_end m in
  let end_pos := default (String.length content)
                   (Py.find content "###" start_pos) in
  let section := Py.slice content start_pos end_pos in
  let '(file_val, line_val) :=
    match search loc_re section with
    | Some loc_match =>
        let loc := default "" (group section loc_match 1) in
        match match_ line_check_re loc with
        | Some line_check =>
            (Some (default "" (group loc line_check 1)),
             Some (Py.int (default "" (group loc line_check 2))))
        | None => (Some loc, None)
        end
    | None => (None, None)
    end in
  let line_val :=
    match line_val with
    | Some n => Some n
    | None =>
        match search line_re section with
        | Some line_match =>
            Some (Py.int (default "" (group section line_match 1)))
        | None => None
        end
    end in
  let effort_val :=
    match search effort_re section with
    | Some effort_match => group section effort_match 1
    | None => None
    end in
  let issue_ := _get_section_text section (Lit "Issue") in
  let evidence_ := _get_section_text section (Lit "Evidence") in
  let recommendation_ :=
    _get_section_text section
      (Alt (Lit "Recommendation") (Lit "Remediation")) in
  let issue_ :=
    match issue_ with
    | Some text => Some text
    | None =>
        let plain := sub field_line_re "" section in
        let plain := sub code_block_re "" plain in
        let plain := Py.strip (Py.replace plain "---" "") in
        Py.or_none plain
    end in
  {| fid := finding_id;
     title := title_;
     severity := severity_;
     file := file_val ≫= Py.or_none;
     line := line_val;
     effort := effort_val ≫= Py.or_none;
     issue := issue_;
     evidence := evidence_;
     recommendation := recommendation_;
     original_severity := None;
     validated := None;
     validation_reason := None |}.

(** The loop over the heading matches: a match that starts inside a code
    block is skipped ([continue]), every other one appends a finding. *)
Fixpoint collect_findings (content : string) (ranges : list (nat * nat))
    (matches : list rmatch) : list Finding :=
  match matches with
  | [] => []
  | m :: matches' =>
      if _in_code_block (m_start m) ranges
      then collect_findings content ranges matches'
      else finding_of_match content m
             :: collect_findings content ranges matches'
  end.

(** [sum(1 for f in findings if f["severity"] == sev)]. *)
Definition count_severity (sev : string) (fs : list Finding) : Z :=
  Z.of_nat (length (filter (fun f => severity f = sev) fs)).

Definition build_summary (fs : list Finding) : gmap string Z :=
  {[ "blockers" := count_severity "BLOCKER" fs;
     "high" := count_severity "HIGH" fs;
     "medium" := count_severity "MEDIUM" fs;
     "low" := count_severity "LOW" fs;
     "total" := Z.of_nat (length fs) ]}.

Definition parse_findings_markdown (content : string) : AgentData :=
  let code_block_ranges := _get_code_block_ranges content in
  let findings_ :=
    collect_findings content code_block_ranges
      (finditer heading_re content) in
  {| status := Some "complete";
     summary := Some (build_summary findings_);
     findings := Some findings_;
     rawMarkdown := Some content |}.

End Findings.


(** ** [utils/sanitize.py] and [providers/base.py]: the retry policy *)

Module Provider.
Import Re.

(** [models/provider.py]: what a provider call returns. *)
Record CompletionResult : Type := mkCompletionResult
  { success : bool;
    content : option string;
    tokens_used : option (gmap string Z);
    error : option string }.

(** The two environment variables the sanitizer reads. *)
Record Environ : Type := mkEnviron
  { USERPROFILE : option string;
    HOME : option string }.

(** [x or y] for optional strings: an absent or empty [x] gives [y]. *)
Definition str_or (x : option string) (y : string) : string :=
  match x with
  | Some s => if Py.truthy s then s else y
  | None => y
  end.

(** A character of an API key: [[a-zA-Z0-9_-]]. *)
Definition key_char : ascii -> bool :=
  fun a => Py.is_lower a || Py.is_upper a || Py.is_digit a || one_of "_-" a.

Definition sanitize_error (env : Environ) (message : string) : string :=
  if negb (Py.truthy message) then message
  else
    let sanitized := message in
    let sanitized :=
      sub (Seq (Lit "sk-ant-") (Plus (Chr key_char)))
        "[REDACTED_KEY]" sanitized in
    let sanitized :=
      sub (Seq (Lit "sk-") (AtLeast 20 (Chr key_char)))
        "[REDACTED_KEY]" sanitized in
    let sanitized :=
      sub (Seqs [Lit "Bearer"; Plus (Chr space); Plus (Chr nonspace)])
        "Bearer [REDACTED]" sanitized in
    let sanitized :=
      sub (Seqs [Lit "api-key:"; Star (Chr space); Plus (Chr nonspace)])
        "api-key: [REDACTED]" sanitized in
    let sanitized :=
      sub (Seqs [Lit "x-api-key:"; Star (Chr space); Plus (Chr nonspace)])
        "x-api-key: [REDACTED]" sanitized in
    let sanitized :=
      sub (Seqs [Lit "Authorization:"; Star (Chr space); Plus (Chr nonspace)])
        "Authorization: [REDACTED]" sanitized in
    let home := str_or (USERPROFILE env) (str_or (HOME env) "") in
    if Py.truthy home then Py.replace sanitized home "[USER_HOME]"
    else sanitized.

(** [any(code in error_msg for code in codes)]. *)
Definition any_in (codes : list string) (error_msg : string) : bool :=
  existsb (fun code => Py.contains code error_msg) codes.

Definition is_rate_limit (error_msg : string) : bool :=
  Py.contains "429" error_msg.

Definition is_retryable (error_msg : string) : bool :=
  (is_rate_limit error_msg
   || any_in ["500"; "502"; "503"; "504"; "timeout"; "timed out"] error_msg)
  && negb (any_in ["400"; "401"; "403"; "404"] error_msg).

Section retry.

(** The provider's configuration ([retry_attempts],
    [retry_delay_seconds]), the environment, and the provider's
    [complete]: the answer to the n-th call (the call's arguments are the
    same at every attempt). *)
Variable max_attempts : Z.
Variable retry_delay : Z.
Variable env : Environ.
Variable complete : Z -> CompletionResult.

Definition rate_limit_max : Z := Z.max max_attempts 5.

(** What one pass through the body of the loop decides, after a call has
    returned [result] at the given attempt. *)
Inductive Step : Type :=
| Return (result : CompletionResult)
| Sleep (wait_time : Z).

Definition attempt_step (attempt : Z) (result : CompletionResult) : Step :=
  if success result then Return result
  else
    let error_msg := str_or (error result) "" in
    let effective_max :=
      if is_rate_limit error_msg then rate_limit_max else max_attempts in
    if negb (is_retryable error_msg) || (effective_max <=? attempt)
    then Return {| success := success result;
                   content := content result;
                   tokens_used := tokens_used result;
                   error := Some (sanitize_error env error_msg) |}
    else
      let base_delay :=
        if is_rate_limit error_msg then 30 else retry_delay in
      Sleep (base_delay * Z.min attempt 3).

(** What a run of [complete_with_retry] does: the result it returns, the
    number of calls to [complete] it made and the waits it slept, in
    order. *)
Record Run : Type := mkRun
  { returned : CompletionResult;
    calls : Z;
    sleeps : list Z }.

(** The loop [for attempt in range(1, rate_limit_max + 1)], with [fuel]
    iterations left. *)
Fixpoint retry_loop (fuel : nat) (attempt : Z)
    (last_result : option CompletionResult) (slept : list Z) : Run :=
  match fuel with
  | O =>
      {| returned :=
           default {| success := false; content := None;
                      tokens_used := None;
                      error := Some "Max retries exceeded" |} last_result;
         calls := attempt - 1;
         sleeps := slept |}
  | S fuel' =>
      let result := complete attempt in
      match attempt_step attempt result with
      | Return r => {| returned := r; calls := attempt; sleeps := slept |}
      | Sleep wait_time =>
          retry_loop fuel' (attempt + 1) (Some result) (slept ++ [wait_time])
      end
  end.

Definition complete_with_retry : Run :=
  retry_loop (Z.to_nat rate_limit_max) 1 None [].

End retry.

End Provider.


(** ** [core/validator.py]: the validator pass *)

Module Validator.
Import Re Provider.

(** One item of the validation worklist.  A finding carries no
    [description] key, so [finding.get("description", "")] is the empty
    string. *)
Record WorkItem : Type := mkWorkItem
  { w_agent : string;
    w_finding_id : string;
    w_title : string;
    w_severity : string;
    w_file : string;
    w_line : option Z;
    w_description : string;
    w_evidence : string;
    w_recommendation : string }.

(** The inner loop of [_collect_high_severity_findings], over one
    agent's findings. *)
Fixpoint collect_agent (agent_key : string) (fs : list Finding)
    : list WorkItem :=
  match fs with
  | [] => []
  | finding :: fs' =>
      let severity_ := Py.upper (severity finding) in
      if bool_decide (severity_ = "BLOCKER") || bool_decide (severity_ = "HIGH")
      then {| w_agent := agent_key;
              w_finding_id := fid finding;
              w_title := title finding;
              w_severity := severity_;
              w_file := default "" (file finding);
              w_line := line finding;
              w_description := "";
              w_evidence := default "" (evidence finding);
              w_recommendation := default "" (recommendation finding) |}
             :: collect_agent agent_key fs'
      else collect_agent agent_key fs'
  end.

Fixpoint _collect_high_severity_findings (all_findings : AllFindings)
    : list WorkItem :=
  match all_findings with
  | [] => []
  | (agent_key, agent_data) :: rest =>
      collect_agent agent_key (get_findings agent_data)
        ++ _collect_high_severity_findings rest
  end.

(** The lines one worklist item adds to the prompt. *)
Definition prompt_item (f : WorkItem) : list string :=
  ["## " +:+ w_finding_id f +:+ ": " +:+ w_title f
     +:+ " [" +:+ w_severity f +:+ "]";
   "**Agent:** " +:+ Py.upper (w_agent f)]
  ++ (if Py.truthy (w_file f)
      then
        let loc := w_file f in
        let loc :=
          match w_line f with
          | Some n => if n =? 0 then loc else loc +:+ ":" +:+ pretty n
          | None => loc
          end in
        ["**Location:** `" +:+ loc +:+ "`"]
      else [])
  ++ (if Py.truthy (w_description f)
      then ["**Description:** " +:+ w_description f] else [])
  ++ (if Py.truthy (w_evidence f)
      then ["**Evidence:**" +:+ LF +:+ "```" +:+ LF +:+ w_evidence f
              +:+ LF +:+ "```"]
      else [])
  ++ (if Py.truthy (w_recommendation f)
      then ["**Recommendation:** " +:+ w_recommendation f] else [])
  ++ [""].

Definition _build_validation_prompt (items : list WorkItem)
    (calibration_context : string) : string :=
  Py.join LF
    (["# FINDINGS TO VALIDATE" +:+ LF;
      "Validate each BLOCKER and HIGH finding below. "
        +:+ "Follow the 5-step decision tree from your instructions." +:+ LF]
     ++ concat (map prompt_item items)
     ++ (if Py.truthy calibration_context then [calibration_context] else [])
     ++ [LF +:+ "Validate each finding above and output your assessment. "
           +:+ "End with: VALIDATION COMPLETE: X confirmed, Y downgraded, "
           +:+ "Z rejected out of N total"]).

(** One decision of the validator. *)
Record Adjustment : Type := mkAdjustment
  { finding_id : string;
    a_original_severity : string;
    adjusted_severity : string;
    decision : string;
    reason : string }.

(** The block header
    [### VALIDATE: <id> — <original> → <adjusted>], matched under
    [re.IGNORECASE], with the dash and arrow variants. *)
Definition validate_re : regex :=
  Seqs [LitCi "###"; Plus (Chr space); LitCi "VALIDATE:"; Plus (Chr space);
        Group 1 (Plus (Chr nonspace)); Star (Chr space);
        Alts (LitCi "—") [LitCi "–"; LitCi "-"]; Star (Chr space);
        Group 2 (Alts (LitCi "BLOCKER")
                      [LitCi "HIGH"; LitCi "MEDIUM"; LitCi "LOW"]);
        Star (Chr space);
        Alt (LitCi "→") (LitCi "->"); Star (Chr space);
        Group 3 (Alts (LitCi "BLOCKER")
                      [LitCi "HIGH"; LitCi "MEDIUM"; LitCi "LOW";
                       LitCi "REJECTED"])].

(** The reason after a block header, matched under [re.DOTALL]. *)
Definition reason_re : regex :=
  Seqs [Lit "**Reason:**"; Star (Chr space);
        Group 1 (PlusLazy (Chr any));
        Alts (Lit (LF +:+ LF)) [Lit (LF +:+ "###"); Eos]].

Definition adjustment_of_match (content : string) (m : rmatch)
    : Adjustment :=
  let finding_id_ := default "" (group content m 1) in
  let original := Py.upper (default "" (group content m 2)) in
  let adjusted := Py.upper (default "" (group content m 3)) in
  let decision_ :=
    if bool_decide (adjusted = "REJECTED") then "rejected"
    else if bool_decide (adjusted = original) then "confirmed"
    else "downgraded" in
  let rest := Py.slice_from content (m_end m) in
  let reason_ :=
    match search reason_re rest with
    | Some reason_match => Py.strip (default "" (group rest reason_match 1))
    | None => ""
    end in
  {| finding_id := finding_id_;
     a_original_severity := original;
     adjusted_severity := adjusted;
     decision := decision_;
     reason := reason_ |}.

Definition _parse_validation_results (content : string) : list Adjustment :=
  map (adjustment_of_match content) (finditer validate_re content).

(** [{a["finding_id"]: a for a in adjustments}]: a later adjustment for
    the same id replaces an earlier one. *)
Definition adjustment_map (adjustments : list Adjustment)
    : gmap string Adjustment :=
  foldl (fun m a => <[finding_id a := a]> m) ∅ adjustments.

(** [d[key] = d.get(key, 0) + 1]. *)
Definition incr (key : string) (d : gmap string Z) : gmap string Z :=
  <[key := get0 d key + 1]> d.

(** The three ways the loop rewrites a matched finding. *)
Definition mark_rejected (adj : Adjustment) (finding : Finding) : Finding :=
  {| fid := fid finding; title := title finding;
     severity := "REJECTED";
     file := file finding; line := line finding; effort := effort finding;
     issue := issue finding; evidence := evidence finding;
     recommendation := recommendation finding;
     original_severity := Some (severity finding);
     validated := Some "rejected";
     validation_reason := Some (reason adj) |}.

Definition mark_downgraded (adj : Adjustment) (finding : Finding) : Finding :=
  {| fid := fid finding; title := title finding;
     severity := adjusted_severity adj;
     file := file finding; line := line finding; effort := effort finding;
     issue := issue finding; evidence := evidence finding;
     recommendation := recommendation finding;
     original_severity := Some (severity finding);
     validated := Some "downgraded";
     validation_reason := Some (reason adj) |}.

Definition mark_confirmed (finding : Finding) : Finding :=
  {| fid := fid finding; title := title finding;
     severity := severity finding;
     file := file finding; line := line finding; effort := effort finding;
     issue := issue finding; evidence := evidence finding;
     recommendation := recommendation finding;
     original_severity := original_severity finding;
     validated := Some "confirmed";
     validation_reason := validation_reason finding |}.

(** The inner loop of [_apply_adjustments] over one agent's findings,
    threading [stats].  A rejected finding is rewritten in place
    ([mark_rejected]) and then skipped by [continue]: the rewritten
    object is in no list any more. *)
Fixpoint adjust_list (amap : gmap string Adjustment) (fs : list Finding)
    (stats : gmap string Z) : list Finding * gmap string Z :=
  match fs with
  | [] => ([], stats)
  | finding :: fs' =>
      match amap !! fid finding with
      | Some adj =>
          let stats := incr (decision adj) stats in
          if bool_decide (decision adj = "rejected") then
            let _dropped := mark_rejected adj finding in
            adjust_list amap fs' stats
          else
            let finding :=
              if bool_decide (decision adj = "downgraded")
              then mark_downgraded adj finding
              else mark_confirmed finding in
            let '(adjusted_findings, stats) := adjust_list amap fs' stats in
            (finding :: adjusted_findings, stats)
      | None =>
          let '(adjusted_findings, stats) := adjust_list amap fs' stats in
          (finding :: adjusted_findings, stats)
      end
  end.

(** The recount of a summary: every counter starts at zero and the
    remaining findings are counted one by one. *)
Definition count_one (summary_ : gmap string Z) (f : Finding)
    : gmap string Z :=
  let sev := Py.upper (severity f) in
  let summary_ :=
    if bool_decide (sev = "BLOCKER") then incr "blockers" summary_
    else if bool_decide (sev = "HIGH") then incr "high" summary_
    else if bool_decide (sev = "MEDIUM") then incr "medium" summary_
    else if bool_decide (sev = "LOW") then incr "low" summary_
    else summary_ in
  incr "total" summary_.

Definition zero_summary : gmap string Z :=
  {[ "blockers" := 0; "high" := 0; "medium" := 0; "low" := 0; "total" := 0 ]}.

Definition recount (fs : list Finding) : gmap string Z :=
  foldl count_one zero_summary fs.

(** The outer loop of [_apply_adjustments] over the agents. *)
Fixpoint adjust_agents (amap : gmap string Adjustment)
    (all_findings : AllFindings) (stats : gmap string Z)
    : AllFindings * gmap string Z :=
  match all_findings with
  | [] => ([], stats)
  | (agent_key, agent_data) :: rest =>
      let '(adjusted_findings, stats) :=
        adjust_list amap (get_findings agent_data) stats in
      let agent_data :=
        {| status := status agent_data;
           summary := Some (recount adjusted_findings);
           findings := Some adjusted_findings;
           rawMarkdown := rawMarkdown agent_data |} in
      let '(rest', stats) := adjust_agents amap rest stats in
      ((agent_key, agent_data) :: rest', stats)
  end.

Definition _apply_adjustments (all_findings : AllFindings)
    (adjustments : list Adjustment) : AllFindings * gmap string Z :=
  let adjustment_map_ := adjustment_map adjustments in
  let stats : gmap string Z :=
    {[ "confirmed" := 0; "downgraded" := 0; "rejected" := 0;
       "total" := Z.of_nat (length adjustments) ]} in
  adjust_agents adjustment_map_ all_findings stats.

Section run.

(** What [run_validator] takes from outside the module: the calibration
    context of an agent ([build_calibration_context(project_path, agent)]),
    the validator's instructions
    ([load_agent_instructions("validator", project_path)]) and the
    provider's [complete_with_retry] as a function of the shared context,
    the system prompt and the user prompt. *)
Variable build_calibration_context : string -> string.
Variable validator_instructions : string.
Variable provider : string -> string -> string -> CompletionResult.

(** The loop that gathers the calibration context once per agent. *)
Fixpoint calibration_parts (seen_agents : gset string)
    (items : list WorkItem) : list string :=
  match items with
  | [] => []
  | f :: items' =>
      let agent := w_agent f in
      if bool_decide (agent ∈ seen_agents)
      then calibration_parts seen_agents items'
      else
        let ctx := build_calibration_context agent in
        (if Py.truthy ctx then [ctx] else [])
          ++ calibration_parts ({[agent]} ∪ seen_agents) items'
  end.

(** The stats of the paths that do not consult the validator's answer:
    every worklist item counts as confirmed. *)
Definition all_confirmed (n : Z) : gmap string Z :=
  {[ "confirmed" := n; "downgraded" := 0; "rejected" := 0; "total" := n ]}.

(** The call to the validator: calibration context, prompts and the
    provider's answer. *)
Definition system_prompt : string :=
  "You are VALIDATOR, the finding validation specialist."
    +:+ LF +:+ LF +:+ validator_instructions.

Definition user_prompt (high_severity : list WorkItem) : string :=
  let calibration_context :=
    Py.join (LF +:+ LF) (calibration_parts ∅ high_severity) in
  _build_validation_prompt high_severity calibration_context.

Definition validator_call (shared_context : string)
    (high_severity : list WorkItem) : CompletionResult :=
  provider shared_context system_prompt (user_prompt high_severity).

(** [run_validator], where the code returns.  Console output and the
    copy of the raw answer written to [validator-output.md] are not part
    of the returned value.  The code raises, and returns nothing, where
    the reviews directory is missing when the copy is written
    ([FileNotFoundError] from [write_text]) and where a reviewed finding
    of the calibration file lacks one of its keys ([KeyError] in
    [build_calibration_context]); this function does not show either:
    the calibration context is the text the variable
    [build_calibration_context] gives, and the copy is taken to be
    written. *)
Definition run_validator (all_findings : AllFindings)
    (shared_context : string) (dry_run : bool)
    : AllFindings * gmap string Z :=
  let high_severity := _collect_high_severity_findings all_findings in
  match high_severity with
  | [] => (all_findings, all_confirmed 0)
  | _ :: _ =>
      if dry_run
      then (all_findings, all_confirmed (Z.of_nat (length high_severity)))
      else
        let result := validator_call shared_context high_severity in
        if negb (success result)
        then (all_findings, all_confirmed (Z.of_nat (length high_severity)))
        else
          let adjustments :=
            _parse_validation_results (str_or (content result) "") in
          _apply_adjustments all_findings adjustments
  end.

End run.

End Validator.

(** ** [core/synthesis.py]: verdict and exit code *)

Module Synthesis.

(** [models/review.py]. *)
Inductive Verdict : Type := SHIP | CONDITIONAL | HOLD.

(** Truth value of an agent result (a dict is false when it has no key)
    and of its summary (absent, or an empty dict). *)
Definition agent_truthy (d : AgentData) : bool :=
  bool_decide (is_Some (status d)) || bool_decide (is_Some (summary d))
  || bool_decide (is_Some (findings d))
  || bool_decide (is_Some (rawMarkdown d)).

Definition summary_truthy (s : option (gmap string Z)) : bool :=
  match s with
  | Some m => negb (bool_decide (m = ∅))
  | None => false
  end.

(** The loop of [calculate_verdict]: the running totals. *)
Fixpoint count_totals (all_findings : AllFindings)
    (total_blockers total_high : Z) : Z * Z :=
  match all_findings with
  | [] => (total_blockers, total_high)
  | (_, agent_data) :: rest =>
      if negb (agent_truthy agent_data)
         || negb (summary_truthy (summary agent_data))
      then count_totals rest total_blockers total_high
      else
        let summary_ := default ∅ (summary agent_data) in
        count_totals rest
          (total_blockers + get0 summary_ "blockers")
          (total_high + get0 summary_ "high")
  end.

Definition calculate_verdict (all_findings : AllFindings) : Verdict :=
  let '(total_blockers, total_high) := count_totals all_findings 0 0 in
  if 0 <? total_blockers then HOLD
  else if 3 <? total_high then CONDITIONAL
  else SHIP.

Definition get_exit_code (verdict : Verdict) : Z :=
  match verdict with
  | SHIP => 0
  | CONDITIONAL => 2
  | HOLD => 1
  end.

End Synthesis.

(** ** [core/scanner.py]: tiering and the budgeted selection *)

Module Scanner.
Import Re.

(** A path is the sequence of its components. *)
Definition Path : Type := list string.

Definition EXCLUDE_DIRS : gset string :=
  list_to_set
    ["node_modules"; ".git"; "__pycache__"; ".venv"; "venv";
     "dist"; "build"; ".next"; ".nuxt"; "coverage"; ".pytest_cache";
     ".code-conclave"; ".review-council"; ".claude"; "vendor";
     "bin"; "obj"; ".vs"; ".idea"].

Definition INCLUDE_EXTENSIONS : gset string :=
  list_to_set
    [".ps1"; ".py"; ".js"; ".ts"; ".jsx"; ".tsx"; ".cs"; ".java";
     ".go"; ".rs"; ".rb"; ".php"; ".swift"; ".kt"; ".scala";
     ".vue"; ".svelte"; ".html"; ".css"; ".scss"; ".sql";
     ".yaml"; ".yml"; ".json"; ".toml"; ".md"].

Definition EXCLUDE_PATTERNS : list string :=
  ["*.min.js"; "*.min.css"; "*.map"; "*.lock"; "package-lock.json";
   "*.generated.*"; "*.g.cs"; "*.designer.cs"].

Definition TIER1_ALWAYS : gset string :=
  list_to_set
    ["main.py"; "app.py"; "server.js"; "server.ts";
     "nginx.conf"; "dockerfile"; "manage.py"; "wsgi.py"; "asgi.py";
     ".env.example"; "requirements.txt"; "package.json"; "pyproject.toml";
     "setup.cfg"; "makefile"; "rakefile"; "gemfile";
     "go.mod"; "cargo.toml"; "pom.xml"; "build.gradle"].

Definition TIER1_BYPASS_NAMES : gset string :=
  list_to_set
    ["dockerfile"; "makefile"; "rakefile"; "gemfile"; "vagrantfile";
     "nginx.conf"; "requirements.txt"; ".env.example"; ".gitignore";
     "procfile"; "brewfile"].

Definition TIER2_DIRS : gset string :=
  list_to_set
    ["services"; "core"; "lib"; "utils"; "middleware"; "api"; "hooks";
     "controllers"; "handlers"; "routes"; "endpoints"].

Definition TIER3_DIRS : gset string :=
  list_to_set ["models"; "schemas"; "entities"; "types"].

Definition TEST_DIRS : gset string :=
  list_to_set ["tests"; "test"; "__tests__"; "spec"; "specs"].

Definition DOC_DIRS : gset string :=
  list_to_set ["docs"; "documentation"; "doc"].

Definition TIER6_DIRS : gset string :=
  list_to_set ["components"; "pages"; "views"; "screens"; "layouts";
               "templates"].

Definition API_DIRS : gset string :=
  list_to_set ["services"; "api"; "endpoints"; "controllers"; "handlers";
               "routes"].

(** [TIER_FILE_CAPS.get(t, 5)]. *)
Definition TIER_FILE_CAPS (t : Z) : Z :=
  if t =? 1 then 15 else if t =? 2 then 15 else if t =? 3 then 8
  else if t =? 4 then 10 else if t =? 5 then 8 else if t =? 6 then 10
  else 5.

(** [path.name]: the last component. *)
Definition path_name (p : Path) : string := default "" (last p).

(** [path.relative_to(base)]: [None] stands for [ValueError]. *)
Fixpoint relative_to (p base : Path) {struct base} : option Path :=
  match base with
  | [] => Some p
  | b :: base' =>
      match p with
      | c :: p' => if bool_decide (c = b) then relative_to p' base' else None
      | [] => None
      end
  end.

(** The index of the last dot of a name ([str.rfind(".")]). *)
Fixpoint rfind_dot (s : string) (i : nat) (found : option nat) : option nat :=
  match s with
  | EmptyString => found
  | String a s' =>
      rfind_dot s' (S i) (if Ascii.eqb a "." then Some i else found)
  end.

(** [path.suffix]: the name from its last dot on, when that dot is
    neither the first nor the last character. *)
Definition path_suffix (p : Path) : string :=
  let name := path_name p in
  match rfind_dot name 0 None with
  | Some i =>
      if (0 <? i)%nat && (i <? String.length name - 1)%nat
      then Py.slice_from name i else ""
  | None => ""
  end.

Definition _is_test_file (name : string) : bool :=
  Py.startswith name "test_"
  || Py.contains "_test." name
  || Py.contains ".test." name
  || Py.contains ".Tests." name
  || Py.contains ".spec." name
  || bool_decide (name = "conftest.py").

(** [fnmatch.translate] for patterns made of literal characters, [*]
    and [?] (the only ones the scanner uses). *)
Fixpoint translate (pattern : string) : regex :=
  match pattern with
  | EmptyString => Eos
  | String a pattern' =>
      Seq (if Ascii.eqb a "*" then Star (Chr any)
           else if Ascii.eqb a "?" then Chr any
           else Chr (is_chr a))
          (translate pattern')
  end.

Definition _matches_glob (name pattern : string) : bool :=
  match match_ (translate pattern) name with
  | Some _ => true
  | None => false
  end.

(** [any(p in dirs for p in parts)]. *)
Definition any_part_in (dirs : gset string) (parts : list string) : bool :=
  existsb (fun p => bool_decide (p ∈ dirs)) parts.

Definition doc_patterns : list string :=
  ["readme*"; "contributing*"; "changelog*"; "license*";
   "rollback*"; "migration*"; "deployment*"; "backup*";
   "operations*"; "runbook*"; "install*"; "architecture*"].

Definition get_file_tier (file_path project_path : Path) : Z :=
  let name := Py.lower (path_name file_path) in
  let relative :=
    match relative_to file_path project_path with
    | Some r => r
    | None => [path_name file_path]
    end in
  let parts := map Py.lower relative in
  if bool_decide (name ∈ TIER1_ALWAYS) then 1
  else if Py.startswith name "docker-compose." then 1
  else
    let in_api_dir := any_part_in API_DIRS parts in
    if negb in_api_dir
       && (bool_decide (name = "settings.py") || bool_decide (name = "setup.py")
           || Py.startswith name "config.")
    then 1
    else if (bool_decide (name = "index.js") || bool_decide (name = "index.ts"))
            && (length parts <=? 3)%nat
    then 1
    else
      let in_tier2_dir := any_part_in TIER2_DIRS parts in
      if in_tier2_dir && negb (_is_test_file name) then 2
      else if any_part_in TIER3_DIRS parts then 3
      else if _is_test_file name || any_part_in TEST_DIRS parts then 4
      else if existsb (_matches_glob name) doc_patterns then 5
      else if any_part_in DOC_DIRS parts
              && bool_decide (Py.lower (path_suffix file_path) = ".md")
      then 5
      else if any_part_in TIER6_DIRS parts then 6
      else 7.

Definition _should_include_file (file_path : Path) : bool :=
  let name := Py.lower (path_name file_path) in
  let ext := Py.lower (path_suffix file_path) in
  if negb (bool_decide (ext ∈ INCLUDE_EXTENSIONS))
     && negb (bool_decide (name ∈ TIER1_BYPASS_NAMES))
  then false
  else negb (existsb (_matches_glob name) EXCLUDE_PATTERNS).

Definition _is_in_excluded_dir (file_path project_path : Path) : bool :=
  match relative_to file_path project_path with
  | Some relative => any_part_in EXCLUDE_DIRS relative
  | None => false
  end.

(** A file as the scan sees it: its path, [stat().st_size], and what
    [read_text] returns ([None] when it raises). *)
Record File : Type := mkFile
  { path : Path;
    st_size : Z;
    text : option string }.

(** [list.sort]: a stable sort.  [le x y] says that [x] may stand before
    [y]; an element keeps its place before the later elements it ties
    with. *)
Fixpoint insert_by {A : Type} (le : A -> A -> bool) (x : A) (l : list A)
    : list A :=
  match l with
  | [] => [x]
  | y :: l' => if le x y then x :: l else y :: insert_by le x l'
  end.

Fixpoint sort_by {A : Type} (le : A -> A -> bool) (l : list A) : list A :=
  match l with
  | [] => []
  | x :: l' => insert_by le x (sort_by le l')
  end.

(** A file with its tier. *)
Definition Tiered : Type := (File * Z)%type.

Definition size_of (x : Tiered) : Z := st_size (fst x).
Definition tier_of (x : Tiered) : Z := snd x.

(** [key=lambda x: x[0].stat().st_size, reverse=True]. *)
Definition size_desc (x y : Tiered) : bool := size_of y <=? size_of x.

(** [key=lambda x: (x[1], -x[0].stat().st_size)]. *)
Definition tier_then_size (x y : Tiered) : bool :=
  (tier_of x <? tier_of y)
  || ((tier_of x =? tier_of y) && (- size_of x <=? - size_of y)).

Definition sum_sizes (l : list Tiered) : Z :=
  foldr (fun x acc => size_of x + acc) 0 l.

Section selection.

Variable project_path : Path.
Variable max_files : Z.
Variable max_size_kb : Z.
Variable min_file_bytes : Z.
Variable max_file_kb : Z.

Definition max_bytes : Z := max_size_kb * 1024.
Definition max_file_bytes : Z := max_file_kb * 1024.

(** [int(max_bytes * 0.30)].  The product is a binary floating-point
    number in the source; for a budget of whole kilobytes below 2^50
    bytes its integer part is the integer part of three tenths of the
    budget, which is what is computed here. *)
Definition tier_size_cap : Z := Z.quot (max_bytes * 3) 10.

(** The size filter and the classification. *)
Definition sized_files (all_files : list File) : list File :=
  filter (fun f => min_file_bytes <= st_size f <= max_file_bytes) all_files.

Definition classify (files : list File) : list Tiered :=
  map (fun f => (f, get_file_tier (path f) project_path)) files.

(** [tier_groups.get(t, [])] after the groups were sorted by size,
    largest first. *)
Definition tier_group (tiered : list Tiered) (t : Z) : list Tiered :=
  sort_by size_desc (filter (fun x => tier_of x = t) tiered).

(** Pass 1, the loop over one tier's group.  [tier_count] and
    [tier_size] are the tier's own counters, [selected] and [total_size]
    the overall ones. *)
Fixpoint pass1_group (group : list Tiered) (file_cap tier_count tier_size : Z)
    (selected : list Tiered) (total_size : Z) : list Tiered * Z :=
  match group with
  | [] => (selected, total_size)
  | (f, tier) :: group' =>
      if file_cap <=? tier_count then (selected, total_size)
      else if max_files <=? Z.of_nat (length selected)
      then (selected, total_size)
      else
        let fsize := st_size f in
        if max_bytes <? total_size + fsize
        then pass1_group group' file_cap tier_count tier_size
               selected total_size
        else if tier_size_cap <? tier_size + fsize
        then pass1_group group' file_cap tier_count tier_size
               selected total_size
        else pass1_group group' file_cap (tier_count + 1)
               (tier_size + fsize) (selected ++ [(f, tier)])
               (total_size + fsize)
  end.

(** Pass 1, the loop over the tiers. *)
Fixpoint pass1_tiers (tiers : list Z) (tiered : list Tiered)
    (selected : list Tiered) (total_size : Z) : list Tiered * Z :=
  match tiers with
  | [] => (selected, total_size)
  | t :: tiers' =>
      let '(selected, total_size) :=
        pass1_group (tier_group tiered t) (TIER_FILE_CAPS t) 0 0
          selected total_size in
      pass1_tiers tiers' tiered selected total_size
  end.

(** [range(1, 8)]. *)
Definition tier_range : list Z := [1; 2; 3; 4; 5; 6; 7].

Definition pass1 (tiered : list Tiered) : list Tiered * Z :=
  pass1_tiers tier_range tiered [] 0.

(** Pass 2, the loop over the files pass 1 left out. *)
Fixpoint pass2_loop (remaining : list Tiered) (selected : list Tiered)
    (total_size : Z) : list Tiered * Z :=
  match remaining with
  | [] => (selected, total_size)
  | (f, tier) :: remaining' =>
      if max_files <=? Z.of_nat (length selected)
      then (selected, total_size)
      else
        let fsize := st_size f in
        if max_bytes <? total_size + fsize
        then pass2_loop remaining' selected total_size
        else pass2_loop remaining' (selected ++ [(f, tier)])
               (total_size + fsize)
  end.

Definition pass2 (tiered : list Tiered) (selected : list Tiered)
    (total_size : Z) : list Tiered * Z :=
  if (Z.of_nat (length selected) <? max_files) && (total_size <? max_bytes)
  then
    let selected_paths := map (fun x => path (fst x)) selected in
    let remaining :=
      filter (fun x => path (fst x) ∉ selected_paths) tiered in
    let remaining := sort_by tier_then_size remaining in
    pass2_loop remaining selected total_size
  else (selected, total_size).

(** The block of one emitted file (a file the walk found lies under
    the project root, so [relative_to] does not raise). *)
Definition render (x : Tiered) : string :=
  let f := fst x in
  let relative := default [] (relative_to (path f) project_path) in
  let suffix := path_suffix (path f) in
  let lang_hint :=
    Py.slice_from suffix (if Py.startswith suffix "." then 1 else 0) in
  "---" +:+ LF +:+ "## File: " +:+ Py.join "/" relative +:+ LF
    +:+ "```" +:+ lang_hint +:+ LF +:+ default "" (text f) +:+ LF
    +:+ "```" +:+ LF.

(** The loop that builds the content.  [emitted] collects the files
    whose blocks were appended to [parts], in order. *)
Fixpoint emit_loop (selected : list Tiered) (emitted : list Tiered)
    (file_count actual_size : Z) : list Tiered * Z * Z :=
  match selected with
  | [] => (emitted, file_count, actual_size)
  | (f, tier) :: selected' =>
      if max_files <=? file_count then (emitted, file_count, actual_size)
      else
        let fsize := st_size f in
        if max_bytes <? actual_size + fsize
        then emit_loop selected' emitted file_count actual_size
        else
          match text f with
          | None => emit_loop selected' emitted file_count actual_size
          | Some content_ =>
              if negb (Py.truthy (Py.strip content_))
              then emit_loop selected' emitted file_count actual_size
              else emit_loop selected' (emitted ++ [(f, tier)])
                     (file_count + 1) (actual_size + fsize)
          end
  end.

(** How the source prints [round(actual_size / 1024, 1)], a
    floating-point number, as a function of the byte count. *)
Variable show_kb : Z -> string.

(** The result of a scan.  [emitted] lists the files whose blocks make
    up the content; [actual_size] is the byte total that the source
    reports, rounded to a tenth of a kilobyte, as [total_size_kb]. *)
Record ScanResult : Type := mkScanResult
  { content : string;
    emitted : list Tiered;
    file_count : Z;
    actual_size : Z;
    total_eligible : Z }.

(** The selection of [get_source_files_content]: pass 1, pass 2 and the
    final sort. *)
Definition select (tiered : list Tiered) : list Tiered :=
  let '(selected, total_size) := pass1 tiered in
  let '(selected, total_size) := pass2 tiered selected total_size in
  sort_by tier_then_size selected.

(** [get_source_files_content], from the files the walk found outside
    the excluded directories. *)
Definition get_source_files_content (walked : list File) : ScanResult :=
  let all_files := filter (fun f => _should_include_file (path f)) walked in
  let total_eligible_ := Z.of_nat (length all_files) in
  let tiered := classify (sized_files all_files) in
  let selected := select tiered in
  let '(emitted_, file_count_, actual_size_) := emit_loop selected [] 0 0 in
  if file_count_ =? 0 then
    {| content := "(No source files found matching criteria)";
       emitted := emitted_;
       file_count := 0;
       actual_size := 0;
       total_eligible := total_eligible_ |}
  else
    let header :=
      "# Source Files (" +:+ pretty file_count_ +:+ " files, "
        +:+ show_kb actual_size_ +:+ " KB)" +:+ LF +:+ LF in
    {| content := header +:+ Py.join LF (map render emitted_);
       emitted := emitted_;
       file_count := file_count_;
       actual_size := actual_size_;
       total_eligible := total_eligible_ |}.

End selection.

End Scanner.

(** * Specification vocabulary

    The notions the claims are stated with, defined independently of the
    loops they are compared to. *)

Module Spec.

(** The sum, over all agents, of one counter of their summaries (an
    agent without a summary, or without the counter, contributes 0). *)
Definition summed (key : string) (all_findings : AllFindings) : Z :=
  foldr (fun kd acc => get0 (default ∅ (summary (snd kd))) key + acc)
    0 all_findings.

(** What it means for a pattern to match a stretch of the text, apart
    from the order in which the matcher tries the alternatives:
    [matches text r i c j c'] says that [r] matches from offset [i] to
    offset [j] and turns the captures [c] into [c']. *)
Inductive matches (text : list ascii)
    : Re.regex -> nat -> Re.captures -> nat -> Re.captures -> Prop :=
| matches_eps i c : matches text Re.Eps i c i c
| matches_chr p i c a :
    text !! i = Some a -> p a = true ->
    matches text (Re.Chr p) i c (S i) c
| matches_seq r1 r2 i c j c1 k c2 :
    matches text r1 i c j c1 -> matches text r2 j c1 k c2 ->
    matches text (Re.Seq r1 r2) i c k c2
| matches_alt_l r1 r2 i c j c1 :
    matches text r1 i c j c1 -> matches text (Re.Alt r1 r2) i c j c1
| matches_alt_r r1 r2 i c j c1 :
    matches text r2 i c j c1 -> matches text (Re.Alt r1 r2) i c j c1
| matches_star_stop r i c : matches text (Re.Star r) i c i c
| matches_star_more r i c j c1 k c2 :
    matches text r i c j c1 -> matches text (Re.Star r) j c1 k c2 ->
    matches text (Re.Star r) i c k c2
| matches_lazy_stop r i c : matches text (Re.StarLazy r) i c i c
| matches_lazy_more r i c j c1 k c2 :
    matches text r i c j c1 -> matches text (Re.StarLazy r) j c1 k c2 ->
    matches text (Re.StarLazy r) i c k c2
| matches_group n r i c j c1 :
    matches text r i c j c1 ->
    matches text (Re.Group n r) i c j ((n, (i, j)) :: c1)
| matches_lookahead r i c j c1 :
    matches text r i c j c1 -> matches text (Re.Lookahead r) i c i c1
| matches_bos c : matches text Re.Bos 0 c 0 c
| matches_eos c : matches text Re.Eos (length text) c (length text) c
| matches_dollar i c :
    Re.at_dollar text i = true -> matches text Re.Dollar i c i c
| matches_word_boundary i c :
    Re.at_word_boundary text i = true ->
    matches text Re.WordBoundary i c i c.

(** A pattern without capturing group or lookahead. *)
Fixpoint plain (r : Re.regex) : bool :=
  match r with
  | Re.Seq r1 r2 | Re.Alt r1 r2 => plain r1 && plain r2
  | Re.Star r1 | Re.StarLazy r1 => plain r1
  | Re.Group _ _ | Re.Lookahead _ => false
  | _ => true
  end.

(** The four severities of a parsed finding. *)
Definition primary_severities : list string :=
  ["BLOCKER"; "HIGH"; "MEDIUM"; "LOW"].

(** The number of occurrences of a severity in a list of severities. *)
Fixpoint occurrences (sev : string) (sevs : list string) : Z :=
  match sevs with
  | [] => 0
  | s :: sevs' =>
      (if bool_decide (s = sev) then 1 else 0) + occurrences sev sevs'
  end.

(** A summary agrees with a list of severities: the total is the length
    of the list and each counter is the number of entries of its
    severity. *)
Definition counts (s : gmap string Z) (sevs : list string) : Prop :=
  s !! "total" = Some (Z.of_nat (length sevs))
  /\ s !! "blockers" = Some (occurrences "BLOCKER" sevs)
  /\ s !! "high" = Some (occurrences "HIGH" sevs)
  /\ s !! "medium" = Some (occurrences "MEDIUM" sevs)
  /\ s !! "low" = Some (occurrences "LOW" sevs).

(** A summary agrees with a findings list. *)
Definition consistent (s : gmap string Z) (fs : list Finding) : Prop :=
  counts s (map severity fs).

(** An agent result carries a findings list and a summary that agrees
    with it. *)
Definition agent_consistent (d : AgentData) : Prop :=
  exists fs s,
    findings d = Some fs /\ summary d = Some s /\ consistent s fs.

(** An offset lies inside a fenced code block of the content. *)
Definition inside_code_block (content : string) (pos : nat) : Prop :=
  exists start end_,
    (start, end_) ∈ Findings._get_code_block_ranges content
    /\ (start <= pos < end_)%nat.

(** A severity is written the way the data model writes it when
    [str.upper] leaves it alone: the comparisons of the validator, which
    go through [upper], then read it as it stands. *)
Definition canonical (sev : string) : Prop := Py.upper sev = sev.

Definition canonical_agent (kd : string * AgentData) : Prop :=
  Forall (fun f => canonical (severity f)) (get_findings (snd kd)).

Definition canonical_adjustment (a : Validator.Adjustment) : Prop :=
  canonical (Validator.adjusted_severity a).

(** The agent-results map of a run: each agent's markdown output,
    parsed. *)
Definition parse_all (outputs : list (string * string)) : AllFindings :=
  map (fun kc => (fst kc, Findings.parse_findings_markdown (snd kc))) outputs.

(** The adjustment that matches a finding id: the last one of the list
    that names it. *)
Definition matching (adjustments : list Validator.Adjustment) (id : string)
    : option Validator.Adjustment :=
  last (filter (fun a => Validator.finding_id a = id) adjustments).

(** A finding is rejected by a list of adjustments when its matching
    adjustment has the decision [rejected]. *)
Definition rejected_by (adjustments : list Validator.Adjustment)
    (f : Finding) : Prop :=
  exists adj, matching adjustments (fid f) = Some adj
              /\ Validator.decision adj = "rejected".

#[global] Instance rejected_by_dec (adjustments : list Validator.Adjustment)
    (f : Finding) : Decision (rejected_by adjustments f).
Proof.
  unfold rejected_by.
  destruct (matching adjustments (fid f)) as [adj|].
  - destruct (decide (Validator.decision adj = "rejected")) as [Hd|Hd].
    + left. exists adj. split; [reflexivity|exact Hd].
    + right. intros (a & Ha & Hr). inversion Ha; subst a. contradiction.
  - right. intros (a & Ha & _). discriminate.
Defined.

(** What the adjustments make of one finding, whichever agent reported
    it and whatever its severity: [None] when it is dropped. *)
Definition adjust_one (adjustments : list Validator.Adjustment)
    (f : Finding) : option Finding :=
  match matching adjustments (fid f) with
  | Some adj =>
      if bool_decide (Validator.decision adj = "rejected") then None
      else if bool_decide (Validator.decision adj = "downgraded")
      then Some (Validator.mark_downgraded adj f)
      else Some (Validator.mark_confirmed f)
  | None => Some f
  end.

(** What the adjustments make of one agent's result. *)
Definition adjust_agent (adjustments : list Validator.Adjustment)
    (d : AgentData) : AgentData :=
  let fs := omap (adjust_one adjustments) (get_findings d) in
  {| status := status d;
     summary := Some (Validator.recount fs);
     findings := Some fs;
     rawMarkdown := rawMarkdown d |}.

(** A finding without its [original_severity]. *)
Definition forget_original (f : Finding) : Finding :=
  {| fid := fid f; title := title f; severity := severity f;
     file := file f; line := line f; effort := effort f;
     issue := issue f; evidence := evidence f;
     recommendation := recommendation f;
     original_severity := None;
     validated := validated f;
     validation_reason := validation_reason f |}.

(** The adjustments applied to every agent of a map. *)
Definition adjust_all (adjustments : list Validator.Adjustment)
    (all_findings : AllFindings) : AllFindings :=
  map (fun kd => (fst kd, adjust_agent adjustments (snd kd))) all_findings.

Definition forget_originals (all_findings : AllFindings) : AllFindings :=
  map (fun kd =>
         (fst kd,
          {| status := status (snd kd);
             summary := summary (snd kd);
             findings := fmap (map forget_original) (findings (snd kd));
             rawMarkdown := rawMarkdown (snd kd) |}))
    all_findings.

(** A finding whose matching adjustment is a downgrade, with its
    [original_severity] overwritten by its current severity. *)
Definition restamp (adjustments : list Validator.Adjustment)
    (f : Finding) : Finding :=
  match matching adjustments (fid f) with
  | Some adj =>
      if bool_decide (Validator.decision adj = "downgraded")
      then {| fid := fid f; title := title f; severity := severity f;
              file := file f; line := line f; effort := effort f;
              issue := issue f; evidence := evidence f;
              recommendation := recommendation f;
              original_severity := Some (severity f);
              validated := validated f;
              validation_reason := validation_reason f |}
      else f
  | None => f
  end.

(** The [original_severity] of every finding of a map, by id. *)
Definition originals (all_findings : AllFindings)
    : list (string * option string) :=
  flat_map (fun kd =>
              map (fun f => (fid f, original_severity f))
                (get_findings (snd kd)))
    all_findings.

(** An agent's result with the findings list it had and the summary
    recounted from it. *)
Definition recounted (d : AgentData) : AgentData :=
  {| status := status d;
     summary := Some (Validator.recount (get_findings d));
     findings := Some (get_findings d);
     rawMarkdown := rawMarkdown d |}.

(** A failed provider result with its error message passed through the
    sanitizer. *)
Definition sanitized (env : Provider.Environ)
    (result : Provider.CompletionResult) : Provider.CompletionResult :=
  {| Provider.success := Provider.success result;
     Provider.content := Provider.content result;
     Provider.tokens_used := Provider.tokens_used result;
     Provider.error :=
       Some (Provider.sanitize_error env
               (Provider.str_or (Provider.error result) "")) |}.

(** The error message of a result ([result.error or ""]) carries one of
    the markers. *)
Definition carries (markers : list string)
    (result : Provider.CompletionResult) : Prop :=
  Provider.any_in markers (Provider.str_or (Provider.error result) "") = true.

Definition client_error_markers : list string := ["400"; "401"; "403"; "404"].
Definition rate_limit_markers : list string := ["429"].
Definition server_error_markers : list string :=
  ["500"; "502"; "503"; "504"; "timeout"; "timed out"].

(** The order of the final emission: tier ascending, then file size
    descending. *)
Definition emission_order (x y : Scanner.Tiered) : Prop :=
  Scanner.tier_of x < Scanner.tier_of y
  \/ (Scanner.tier_of x = Scanner.tier_of y
      /\ Scanner.size_of y <= Scanner.size_of x).

(** The order of a walk through the tiers: tier ascending. *)
Definition tier_order (x y : Scanner.Tiered) : Prop :=
  Scanner.tier_of x <= Scanner.tier_of y.

(** The files of a selection that belong to one tier. *)
Definition in_tier (t : Z) (l : list Scanner.Tiered) : list Scanner.Tiered :=
  filter (fun x => Scanner.tier_of x = t) l.

(** A selection keeps, in every tier, within the tier's file-count cap
    and within the per-tier byte cap. *)
Definition within_tier_caps (byte_cap : Z) (sel : list Scanner.Tiered)
    : Prop :=
  forall t,
    Z.of_nat (length (in_tier t sel)) <= Scanner.TIER_FILE_CAPS t
    /\ Scanner.sum_sizes (in_tier t sel) <= byte_cap.

(** The stats dict with every counter at zero. *)
Definition zero_stats : gmap string Z :=
  {[ "confirmed" := 0; "downgraded" := 0; "rejected" := 0; "total" := 0 ]}.

Definition restamp_all (adjustments : list Validator.Adjustment)
    (all_findings : AllFindings) : AllFindings :=
  map (fun kd =>
         (fst kd,
          {| status := status (snd kd);
             summary := summary (snd kd);
             findings :=
               fmap (map (restamp adjustments)) (findings (snd kd));
             rawMarkdown := rawMarkdown (snd kd) |}))
    all_findings.

End Spec.

(** * Sample inputs

    The inputs of the repository's unit tests and a few more, used to
    run the definitions above. *)

Module Examples.
Import Validator.

Definition finding (id title_ severity_ : string) : Finding :=
  {| fid := id; title := title_; severity := severity_;
     file := None; line := None; effort := None; issue := None;
     evidence := None; recommendation := None;
     original_severity := None; validated := None;
     validation_reason := None |}.

(** [tests/unit/test_validator.py], [_make_findings]. *)
Definition guardian : AgentData :=
  {| status := None;
     summary :=
       Some {[ "blockers" := 2; "high" := 1; "medium" := 0; "low" := 0;
               "total" := 3 ]};
     findings :=
       Some [finding "GUARDIAN-001" "Real issue" "BLOCKER";
             finding "GUARDIAN-002" "ORM wildcard" "BLOCKER";
             finding "GUARDIAN-003" "Fabricated" "HIGH"];
     rawMarkdown := None |}.

Definition make_findings : AllFindings := [("guardian", guardian)].

(** A validator answer with one downgrade. *)
Definition raw_downgrade : string :=
  "### VALIDATE: GUARDIAN-002 — BLOCKER → LOW" +:+ LF
    +:+ "**Reason:** Admin only." +:+ LF.

(** Two agents that both report an id [SEC-001], at different
    severities. *)
Definition sentinel_sec : Finding := finding "SEC-001" "Open redirect" "MEDIUM".

Definition sentinel : AgentData :=
  {| status := Some "complete";
     summary := None;
     findings := Some [sentinel_sec; finding "SENTINEL-002" "Typo" "LOW"];
     rawMarkdown := None |}.

Definition two_agents : AllFindings :=
  [("guardian",
    {| status := Some "complete";
       summary := None;
       findings := Some [finding "SEC-001" "SQL injection" "HIGH"];
       rawMarkdown := None |});
   ("sentinel", sentinel)].

Definition downgrade_sec : Adjustment :=
  {| finding_id := "SEC-001";
     a_original_severity := "HIGH";
     adjusted_severity := "LOW";
     decision := "downgraded";
     reason := "Admin only" |}.

Definition reject_g3 : Adjustment :=
  {| finding_id := "GUARDIAN-003";
     a_original_severity := "HIGH";
     adjusted_severity := "REJECTED";
     decision := "rejected";
     reason := "Fabricated" |}.

(** [tests/unit/test_findings.py],
    [test_skips_findings_inside_code_blocks]. *)
Definition fenced_markdown : string :=
  Py.join LF
    ["# Review"; "";
     "```markdown";
     "### FAKE-001: Not Real [BLOCKER]";
     "This is inside a code block.";
     "```"; "";
     "### REAL-001: Actual Finding [HIGH]"; "";
     "**Location:** src/app.py:1";
     "**Effort:** Low"; "";
     "**Issue:**";
     "Real issue here."; "";
     "**Recommendation:**";
     "Fix it."; "";
     "COMPLETE: 0 BLOCKER, 1 HIGH, 0 MEDIUM, 0 LOW"; ""].

(** One line with an inline fence: the text after the fence has the form
    of a heading, but the heading scan, which starts at the first [###],
    takes it into the title of the match that starts inside the fence. *)
Definition inline_fence : string :=
  "``` ### A-1: foo ``` ### B-2: bar [LOW]".

(** Two adjustments of the test findings
    ([tests/unit/test_validator.py], [test_summary_recalculated]). *)
Definition downgrade_g2 : Adjustment :=
  {| finding_id := "GUARDIAN-002";
     a_original_severity := "BLOCKER";
     adjusted_severity := "LOW";
     decision := "downgraded";
     reason := "" |}.

(** Providers for the retry loop: one that fails twice with a server
    error and then succeeds ([tests/unit/test_providers.py]), one that
    is rate limited at every call, one that is refused. *)
Definition failure (message : string) : Provider.CompletionResult :=
  {| Provider.success := false;
     Provider.content := None;
     Provider.tokens_used := None;
     Provider.error := Some message |}.

Definition flaky_complete (attempt : Z) : Provider.CompletionResult :=
  if attempt <? 3 then failure "500 Internal Server Error"
  else {| Provider.success := true;
          Provider.content := Some "ok";
          Provider.tokens_used := None;
          Provider.error := None |}.

Definition limited_complete (_ : Z) : Provider.CompletionResult :=
  failure "429 Too Many Requests; Authorization: Bearer sk-ant-abc123 in /home/ann/.cfg".

Definition refused_complete (_ : Z) : Provider.CompletionResult :=
  failure "401 Unauthorized (retry after 429)".

Definition ann : Provider.Environ :=
  {| Provider.USERPROFILE := None; Provider.HOME := Some "/home/ann" |}.

(** A provider whose call fails, and one that answers without any
    validation block. *)
Definition failing_provider (_ _ _ : string) : Provider.CompletionResult :=
  {| Provider.success := false;
     Provider.content := None;
     Provider.tokens_used := None;
     Provider.error := Some "503 Service Unavailable" |}.

Definition chatty_provider (_ _ _ : string) : Provider.CompletionResult :=
  {| Provider.success := true;
     Provider.content := Some "All findings look plausible to me.";
     Provider.tokens_used := None;
     Provider.error := None |}.

Definition no_calibration (_ : string) : string := "".

(** A small project for the scanner: four files under [proj], a budget
    of three files and one kilobyte. *)
Definition project : Scanner.Path := ["proj"].

Definition project_files : list Scanner.File :=
  [ {| Scanner.path := ["proj"; "docs"; "README.md"];
       Scanner.st_size := 200; Scanner.text := Some "# Project" |};
    {| Scanner.path := ["proj"; "main.py"];
       Scanner.st_size := 600; Scanner.text := Some "print(1)" |};
    {| Scanner.path := ["proj"; "tests"; "test_a.py"];
       Scanner.st_size := 300; Scanner.text := Some "assert True" |};
    {| Scanner.path := ["proj"; "src"; "services"; "a.py"];
       Scanner.st_size := 500; Scanner.text := Some "x = 1" |} ].

(** A byte count in kilobytes, to the nearest tenth. *)
Definition show_tenths (bytes : Z) : string :=
  let tenths := (bytes * 20 + 1024) / 2048 in
  pretty (tenths / 10) +:+ "." +:+ pretty (tenths mod 10).

Definition project_scan : Scanner.ScanResult :=
  Scanner.get_source_files_content project 3 1 50 50 show_tenths
    project_files.

End Examples.

(** * Reports, exports, the diff context and the calibration file *)

(** ** [core/synthesis.py]: the parts of the report that are computed
    from the findings *)

Module Report.
Import Synthesis.

(** The dict [totals] of [generate_synthesis_report]. *)
Record Totals : Type := mkTotals
  { t_blockers : Z; t_high : Z; t_medium : Z; t_low : Z; t_total : Z }.

(** The loop that aggregates the totals of the summary table. *)
Fixpoint aggregate (all_findings : AllFindings) (totals : Totals) : Totals :=
  match all_findings with
  | [] => totals
  | (_, agent_data) :: rest =>
      if negb (agent_truthy agent_data)
         || negb (summary_truthy (summary agent_data))
      then aggregate rest totals
      else
        let s := default ∅ (summary agent_data) in
        aggregate rest
          {| t_blockers := t_blockers totals + get0 s "blockers";
             t_high := t_high totals + get0 s "high";
             t_medium := t_medium totals + get0 s "medium";
             t_low := t_low totals + get0 s "low";
             t_total := t_total totals + get0 s "total" |}
  end.

Definition report_totals (all_findings : AllFindings) : Totals :=
  aggregate all_findings
    {| t_blockers := 0; t_high := 0; t_medium := 0; t_low := 0;
       t_total := 0 |}.

(** A copy of a finding with its agent's key ([f_copy["_agent"]]). *)
Definition Tagged : Type := (Finding * string)%type.

(** The loop that gathers the findings of every agent. *)
Fixpoint gather (all_findings : AllFindings) : list Tagged :=
  match all_findings with
  | [] => []
  | (agent_key, agent_data) :: rest =>
      if negb (agent_truthy agent_data) then gather rest
      else map (fun f => (f, agent_key)) (get_findings agent_data)
             ++ gather rest
  end.

(** [severity_order.get(sev, 4)]. *)
Definition severity_order (sev : string) : Z :=
  if bool_decide (sev = "BLOCKER") then 0
  else if bool_decide (sev = "HIGH") then 1
  else if bool_decide (sev = "MEDIUM") then 2
  else if bool_decide (sev = "LOW") then 3
  else 4.

Definition rank (x : Tagged) : Z := severity_order (severity (fst x)).

(** [key=lambda f: severity_order.get(f.get("severity", "LOW"), 4)]. *)
Definition by_severity (x y : Tagged) : bool := rank x <=? rank y.

Definition all_sorted (all_findings : AllFindings) : list Tagged :=
  Scanner.sort_by by_severity (gather all_findings).

(** The lines of one finding in the detail section. *)
Definition detail (x : Tagged) : list string :=
  let f := fst x in
  ["### " +:+ fid f +:+ ": " +:+ title f +:+ " [" +:+ severity f +:+ "]"]
  ++ (match file f with
      | Some file_ =>
          if Py.truthy file_ then
            let loc :=
              match line f with
              | Some n => if n =? 0 then file_ else file_ +:+ ":" +:+ pretty n
              | None => file_
              end in
            ["**Location:** `" +:+ loc +:+ "`"]
          else []
      | None => []
      end)
  ++ (match effort f with
      | Some e => if Py.truthy e then ["**Effort:** " +:+ e] else []
      | None => []
      end)
  ++ (match issue f with
      | Some text => if Py.truthy text then [LF +:+ text] else []
      | None => []
      end)
  ++ [""].

(** The section [## Findings Detail], absent when there is no finding. *)
Definition findings_detail (all_findings : AllFindings) : list string :=
  match all_sorted all_findings with
  | [] => []
  | sorted => ["## Findings Detail"; ""] ++ concat (map detail sorted)
  end.

End Report.

(** ** [core/findings.py]: the summary of the run archive *)

Module Archive.
Import Synthesis.

(** The loop of [export_run_archive] that aggregates the four severity
    counters. *)
Fixpoint aggregate (agent_findings : AllFindings)
    (total_b total_h total_m total_l : Z) : Z * Z * Z * Z :=
  match agent_findings with
  | [] => (total_b, total_h, total_m, total_l)
  | (_, af) :: rest =>
      if agent_truthy af && summary_truthy (summary af)
      then
        let s := default ∅ (summary af) in
        aggregate rest (total_b + get0 s "blockers") (total_h + get0 s "high")
          (total_m + get0 s "medium") (total_l + get0 s "low")
      else aggregate rest total_b total_h total_m total_l
  end.

(** The key [summary] of the archive. *)
Definition archive_summary (agent_findings : AllFindings) : gmap string Z :=
  let '(total_b, total_h, total_m, total_l) :=
    aggregate agent_findings 0 0 0 0 in
  {[ "blockers" := total_b; "high" := total_h; "medium" := total_m;
     "low" := total_l;
     "total" := total_b + total_h + total_m + total_l ]}.

End Archive.

(** ** [formatters/junit.py]: the JUnit counters *)

Module Junit.
Import Synthesis.

(** A finding as the formatter takes it.  The formatter only tests
    [issue] and [recommendation] for truth: a text that is missing, which
    the source holds as [None] or as the empty string, is [None] here. *)
Record JFinding : Type := mkJFinding
  { j_id : string;
    j_title : string;
    j_severity : string;
    j_file : option string;
    j_line : option Z;
    j_issue : option string;
    j_recommendation : option string }.

Definition convert_finding (f : Finding) : JFinding :=
  {| j_id := fid f;
     j_title := title f;
     j_severity := severity f;
     j_file := file f;
     j_line := line f;
     j_issue := issue f;
     j_recommendation := recommendation f |}.

Definition convert_parsed_findings_to_junit (json_findings : AllFindings)
    : list (string * list JFinding) :=
  map (fun kd =>
         (fst kd,
          if agent_truthy (snd kd)
          then map convert_finding (get_findings (snd kd))
          else []))
    json_findings.

(** What [export_junit_results] returns, apart from the path of the
    file it wrote, where it returns.  The XML document is not modelled:
    the code builds it, serialises it ([ET.tostring]), parses it again
    ([minidom.parseString]) and writes it, and a text of a finding with
    a character that XML does not allow (a control character) makes the
    parsing raise [ExpatError]; the counters below are then not
    returned. *)
Record JunitResult : Type := mkJunitResult
  { total_tests : Z; failures : Z; passed : Z }.

(** The loop over one agent's findings. *)
Fixpoint count_suite (fail_set : gset string) (fs : list JFinding)
    (total_tests_ total_failures : Z) : Z * Z :=
  match fs with
  | [] => (total_tests_, total_failures)
  | finding :: fs' =>
      let total_tests_ := total_tests_ + 1 in
      if bool_decide (j_severity finding ∈ fail_set)
      then count_suite fail_set fs' total_tests_ (total_failures + 1)
      else count_suite fail_set fs' total_tests_ total_failures
  end.

(** The loop over the agents; an agent without findings is skipped. *)
Fixpoint count_suites (fail_set : gset string)
    (all_findings : list (string * list JFinding))
    (total_tests_ total_failures : Z) : Z * Z :=
  match all_findings with
  | [] => (total_tests_, total_failures)
  | (_, []) :: rest => count_suites fail_set rest total_tests_ total_failures
  | (_, fs) :: rest =>
      let '(total_tests_, total_failures) :=
        count_suite fail_set fs total_tests_ total_failures in
      count_suites fail_set rest total_tests_ total_failures
  end.

Definition export_junit_results (all_findings : list (string * list JFinding))
    (fail_on : option (list string)) : JunitResult :=
  let fail_on := default ["BLOCKER"; "HIGH"] fail_on in
  let fail_set : gset string := list_to_set fail_on in
  let '(total_tests_, total_failures) :=
    count_suites fail_set all_findings 0 0 in
  {| total_tests := total_tests_;
     failures := total_failures;
     passed := total_tests_ - total_failures |}.

End Junit.

(** ** [core/scanner.py]: the changed files of [get_diff_context] *)

Module Diff.
Import Scanner.

(** A path that git lists as changed: the path as git prints it, and the
    file at [project_path / rel] when that is a regular file. *)
Definition Changed : Type := (string * option File)%type.

(** An entry of [files_to_read]; its size is [st_size] of the file. *)
Definition ToRead : Type := (string * File)%type.

Definition fsize_of (x : ToRead) : Z := st_size (snd x).

(** [key=lambda x: x[2]]. *)
Definition by_size (x y : ToRead) : bool := fsize_of x <=? fsize_of y.

(** [suffix.lstrip(".")]. *)
Fixpoint lstrip_dots (s : string) : string :=
  match s with
  | EmptyString => EmptyString
  | String a s' => if Ascii.eqb a "." then lstrip_dots s' else s
  end.

(** The block of one changed file. *)
Definition block (x : ToRead) : string :=
  let ext := lstrip_dots (path_suffix (path (snd x))) in
  "---" +:+ LF +:+ "## File: " +:+ fst x +:+ LF
    +:+ "```" +:+ ext +:+ LF +:+ default "" (text (snd x)) +:+ LF
    +:+ "```" +:+ LF.

Section content.

Variable max_content_kb : Z.
Variable max_file_kb : Z.

Definition max_content_bytes : Z := max_content_kb * 1024.
Definition max_file_bytes : Z := max_file_kb * 1024.

(** The loop that keeps the changed paths that are files of at most
    [max_file_kb]. *)
Fixpoint files_to_read (changed_files : list Changed) : list ToRead :=
  match changed_files with
  | [] => []
  | (rel, None) :: rest => files_to_read rest
  | (rel, Some full) :: rest =>
      if st_size full <=? max_file_bytes
      then (rel, full) :: files_to_read rest
      else files_to_read rest
  end.

(** The loop that reads the files.  [read] collects the files whose
    blocks were appended to [parts], in order. *)
Fixpoint read_loop (files : list ToRead) (read : list ToRead)
    (total_size file_count : Z) : list ToRead * Z * Z :=
  match files with
  | [] => (read, total_size, file_count)
  | x :: files' =>
      let fsize := fsize_of x in
      if max_content_bytes <? total_size + fsize
      then read_loop files' read total_size file_count
      else
        match text (snd x) with
        | None => read_loop files' read total_size file_count
        | Some content_ =>
            if negb (Py.truthy content_)
            then read_loop files' read total_size file_count
            else read_loop files' (read ++ [x]) (total_size + fsize)
                   (file_count + 1)
        end
  end.

(** How the source prints [round(total_size / 1024, 1)], a
    floating-point number, as a function of the byte count. *)
Variable show_kb : Z -> string.

(** What [get_diff_context] computes from the changed files: the fields
    [file_contents], [file_count] and [total_size_kb] of its result
    (the latter as the byte total [total_size] that the source rounds
    to a tenth of a kilobyte), and the files that were read. *)
Record ChangedContent : Type := mkChangedContent
  { file_contents : string;
    read : list ToRead;
    file_count : Z;
    total_size : Z }.

Definition changed_content (changed_files : list Changed) : ChangedContent :=
  let files := sort_by by_size (files_to_read changed_files) in
  let '(read_, total_size_, file_count_) := read_loop files [] 0 0 in
  {| file_contents :=
       if 0 <? file_count_
       then "# Changed Files (" +:+ pretty file_count_ +:+ " files, "
              +:+ show_kb total_size_ +:+ " KB)" +:+ LF +:+ LF
              +:+ Py.join LF (map block read_)
       else "(No readable changed files found)";
     read := read_;
     file_count := file_count_;
     total_size := total_size_ |}.

End content.

(** A file whose text could be read and is not empty. *)
Definition has_text (x : ToRead) : bool :=
  match text (snd x) with
  | Some content_ => Py.truthy content_
  | None => false
  end.

Definition sum_fsizes (l : list ToRead) : Z :=
  foldr (fun x acc => fsize_of x + acc) 0 l.

End Diff.

Module DiffSamples.
Import Scanner Diff.

(** Three changed paths: a small file, a large one and a deleted one. *)
Definition small : File :=
  {| path := ["repo"; "a.py"]; st_size := 600; text := Some "x = 1" |}.
Definition large : File :=
  {| path := ["repo"; "b.py"]; st_size := 900; text := Some "y = 2" |}.
Definition changed : list Changed :=
  [("b.py", Some large); ("gone.py", None); ("a.py", Some small)].

End DiffSamples.

(** ** [core/calibration.py]: reviewed findings and project rules *)

Module Calibration.

(** The double quote. *)
Definition QUOTE : string := String "034" EmptyString.

(** One reviewed finding of the calibration file.  The file is YAML
    that may be edited by hand: every key may be missing.  Values are
    strings. *)
Record Reviewed : Type := mkReviewed
  { r_finding_id : option string;
    r_agent : option string;
    r_title : option string;
    r_file : option string;
    r_original_severity : option string;
    r_adjusted_severity : option string;
    r_verdict : option string;
    r_reason : option string;
    r_reviewed_at : option string }.

(** One project rule.  [p_severity_cap] is [None] also when the key
    holds null, which [add_project_rule] writes when no cap is given. *)
Record Rule : Type := mkRule
  { p_rule : option string;
    p_applies_to : option string;
    p_severity_cap : option string;
    p_added_at : option string }.

(** The calibration data, with the two keys [load_calibration]
    guarantees. *)
Record Data : Type := mkData
  { reviewed_findings : list Reviewed;
    project_rules : list Rule }.

(** The calibration file of a project: [None] when it does not exist
    or cannot be read, otherwise the data [yaml.safe_load] reads from
    it. *)
Definition CalibrationFile : Type := option Data.

Definition load_calibration (file : CalibrationFile) : Data :=
  default {| reviewed_findings := []; project_rules := [] |} file.

Section yaml.

(** What [yaml.safe_load] reads back of a string that [yaml.dump] has
    written as the value of a key.  PyYAML keeps the structure of the
    data, the keys and the absent values, and gives most strings back as
    they were, but not all of them: a string that holds the line break
    U+0085, for one, comes back with a space in its place. *)
Variable reread : string -> string -> string.

Definition reread_review (f : Reviewed) : Reviewed :=
  {| r_finding_id := reread "finding_id" <$> r_finding_id f;
     r_agent := reread "agent" <$> r_agent f;
     r_title := reread "title" <$> r_title f;
     r_file := reread "file" <$> r_file f;
     r_original_severity :=
       reread "original_severity" <$> r_original_severity f;
     r_adjusted_severity :=
       reread "adjusted_severity" <$> r_adjusted_severity f;
     r_verdict := reread "verdict" <$> r_verdict f;
     r_reason := reread "reason" <$> r_reason f;
     r_reviewed_at := reread "reviewed_at" <$> r_reviewed_at f |}.

Definition reread_rule (r : Rule) : Rule :=
  {| p_rule := reread "rule" <$> p_rule r;
     p_applies_to := reread "applies_to" <$> p_applies_to r;
     p_severity_cap := reread "severity_cap" <$> p_severity_cap r;
     p_added_at := reread "added_at" <$> p_added_at r |}.

(** [save_calibration]: the file it leaves, as the next
    [load_calibration] will read it. *)
Definition save_calibration (calibration : Data) : CalibrationFile :=
  Some {| reviewed_findings :=
            map reread_review (reviewed_findings calibration);
          project_rules := map reread_rule (project_rules calibration) |}.

(** [add_reviewed_finding]: the entry it returns and the file it
    leaves.  [today] is the date [datetime.now()] gives. *)
Definition add_reviewed_finding (today : string) (file : CalibrationFile)
    (finding_id agent original_severity adjusted_severity verdict
       reason : string)
    (file_path title : option string) : Reviewed * CalibrationFile :=
  let calibration := load_calibration file in
  let entry :=
    {| r_finding_id := Some finding_id;
       r_agent := Some agent;
       r_title := Some (Provider.str_or title "");
       r_file := Some (Provider.str_or file_path "");
       r_original_severity := Some (Py.upper original_severity);
       r_adjusted_severity := Some (Py.upper adjusted_severity);
       r_verdict := Some verdict;
       r_reason := Some reason;
       r_reviewed_at := Some today |} in
  let reviewed :=
    filter (fun f => r_finding_id f <> Some finding_id)
      (reviewed_findings calibration)
    ++ [entry] in
  (entry,
   save_calibration
     {| reviewed_findings := reviewed;
        project_rules := project_rules calibration |}).

Definition add_project_rule (today : string) (file : CalibrationFile)
    (rule applies_to : string) (severity_cap : option string)
    : Rule * CalibrationFile :=
  let calibration := load_calibration file in
  let entry :=
    {| p_rule := Some rule;
       p_applies_to := Some applies_to;
       p_severity_cap := severity_cap;
       p_added_at := Some today |} in
  (entry,
   save_calibration
     {| reviewed_findings := reviewed_findings calibration;
        project_rules := project_rules calibration ++ [entry] |}).

End yaml.

(** [l[-n:]] for a positive [n]. *)
Definition last_n {A : Type} (n : nat) (l : list A) : list A :=
  drop (length l - n) l.

(** The line of a rule; [None] stands for the [KeyError] of
    [r['rule']]. *)
Definition rule_line (r : Rule) : option string :=
  rule ← p_rule r;
  let line := "- " +:+ rule in
  Some (match p_severity_cap r with
        | Some cap =>
            if Py.truthy cap
            then line +:+ " (severity cap: " +:+ cap +:+ ")"
            else line
        | None => line
        end).

(** The common head of the line of a reviewed finding. *)
Definition reviewed_head (f : Reviewed) : string :=
  "- **" +:+ default "?" (r_finding_id f) +:+ "**: " +:+ QUOTE
    +:+ default "" (r_title f) +:+ QUOTE +:+ " at `"
    +:+ default "?" (r_file f) +:+ "`".

Definition false_positive_line (f : Reviewed) : option string :=
  original ← r_original_severity f;
  Some (reviewed_head f +:+ " — was " +:+ original
          +:+ ", REJECTED because: "
          +:+ default "no reason given" (r_reason f)).

Definition adjusted_line (f : Reviewed) : option string :=
  original ← r_original_severity f;
  adjusted ← r_adjusted_severity f;
  Some (reviewed_head f +:+ " — was " +:+ original
          +:+ ", adjusted to " +:+ adjusted +:+ " because: "
          +:+ default "no reason given" (r_reason f)).

Definition confirmed_line (f : Reviewed) : option string :=
  original ← r_original_severity f;
  Some (reviewed_head f +:+ " [" +:+ original +:+ "] — confirmed").

(** One block of reviewed findings: nothing when there is none,
    otherwise two lines of heading, the lines of the most recent ones
    and an empty line. *)
Definition block (heading intro : string) (keep : nat)
    (line : Reviewed -> option string) (fs : list Reviewed)
    : option (list string) :=
  match fs with
  | [] => Some []
  | _ :: _ =>
      lines ← mapM line (last_n keep fs);
      Some ([heading; intro] ++ lines ++ [""])
  end.

(** The four blocks of the context. *)
Definition rules_block (relevant_rules : list Rule) : option (list string) :=
  match relevant_rules with
  | [] => Some []
  | _ :: _ =>
      lines ← mapM rule_line relevant_rules;
      Some (["## Project-Specific Rules" +:+ LF;
             "The following rules have been established for this project:"
               +:+ LF]
            ++ lines ++ [""])
  end.

Definition false_positives_block : list Reviewed -> option (list string) :=
  block ("## Previous False Positives (DO NOT repeat these)" +:+ LF)
    ("These findings were previously flagged but a human reviewer "
       +:+ "determined they were false positives. Do NOT repeat them:"
       +:+ LF)
    10 false_positive_line.

Definition adjusted_block : list Reviewed -> option (list string) :=
  block ("## Previous Severity Adjustments (calibrate accordingly)" +:+ LF)
    ("These findings were flagged at the wrong severity. "
       +:+ "Use these as calibration examples:" +:+ LF)
    10 adjusted_line.

Definition confirmed_block : list Reviewed -> option (list string) :=
  block ("## Confirmed True Positives (good catches)" +:+ LF)
    ("These were correctly identified. Look for similar patterns:" +:+ LF)
    5 confirmed_line.

(** The list [sections] that [build_calibration_context] joins; [None]
    when a subscript raises [KeyError]. *)
Definition calibration_sections (file : CalibrationFile) (agent_key : string)
    : option (list string) :=
  let calibration := load_calibration file in
  let rules := project_rules calibration in
  let relevant_rules :=
    filter (fun r => default "all" (p_applies_to r) ∈ ["all"; agent_key])
      rules in
  rule_lines ← rules_block relevant_rules;
  let reviewed := reviewed_findings calibration in
  let relevant :=
    filter (fun f => Py.lower (default "" (r_agent f)) = Py.lower agent_key)
      reviewed in
  let false_positives :=
    filter (fun f => r_verdict f = Some "false_positive") relevant in
  let adjusted :=
    filter (fun f => r_verdict f = Some "adjusted") relevant in
  let confirmed :=
    filter (fun f => r_verdict f = Some "confirmed") relevant in
  fp_lines ← false_positives_block false_positives;
  adj_lines ← adjusted_block adjusted;
  conf_lines ← confirmed_block confirmed;
  Some (rule_lines ++ fp_lines ++ adj_lines ++ conf_lines).

Definition build_calibration_context (file : CalibrationFile)
    (agent_key : string) : option string :=
  sections ← calibration_sections file agent_key;
  Some (match sections with
        | [] => ""
        | _ :: _ =>
            "# CALIBRATION DATA (from previous human reviews)" +:+ LF +:+ LF
              +:+ Py.join LF sections
        end).

End Calibration.

Module CalibrationSamples.

(** The line break U+0085, in UTF-8. *)
Definition NEL : string := String "194" (String "133" EmptyString).

(** A round trip that gives every string back as it is, except that it
    turns the line break U+0085 into a space. *)
Definition fold_breaks (_ : string) (s : string) : string :=
  Py.replace s NEL " ".

(** A finding id that holds the line break. *)
Definition broken_id : string := "G" +:+ NEL +:+ "1".

End CalibrationSamples.

(** * Vocabulary of the further properties *)

Module Chars.

(** The 256 characters. *)
Definition all_ascii : list ascii := map ascii_of_nat (seq 0 256).

(** A property of one character, or of two, checked on all of them. *)
Definition for_all (p : ascii -> bool) : bool := forallb p all_ascii.

Definition for_all2 (p : ascii -> ascii -> bool) : bool :=
  for_all (fun a => for_all (p a)).

(** Every character of a string is of a class. *)
Definition all_chars (p : ascii -> bool) (s : string) : bool :=
  forallb p (list_ascii_of_string s).

(** A text of ASCII characters only.  On such a text the character
    classes of the patterns ([\s], [\d], [\b], [re.IGNORECASE]), the
    case mappings and [str.strip] of Python are the ones of this
    embedding; on other texts Python also knows the white space, the
    digits and the letters beyond code point 127. *)
Definition is_ascii (a : ascii) : bool := (Py.code a <? 128)%nat.

Definition ascii_only (s : string) : Prop := all_chars is_ascii s = true.



(** The characters of a stretch of a text all belong to a class. *)
Definition stretch (text : list ascii) (p : ascii -> bool) (i j : nat)
    : Prop :=
  forall k, (i <= k < j)%nat -> exists a, text !! k = Some a /\ p a = true.

End Chars.

Module Strings.

(** [sub] is spelled out in [s] from offset [i] on. *)
Definition occurs_at (sub s : string) (i : nat) : Prop :=
  forall k x, String.get k sub = Some x ->
              list_ascii_of_string s !! (i + k)%nat = Some x.

End Strings.

Module Markers.
Import Provider.

(** A message mentions a marker: the marker is spelled out in it from
    some offset on. *)
Definition mentions (marker message : string) : Prop :=
  exists n, Strings.occurs_at marker message n.

(** The error message of a result (the empty message when it has none)
    mentions one of the markers. *)
Definition bears (markers : list string) (result : CompletionResult)
    : Prop :=
  exists marker,
    marker ∈ markers /\ mentions marker (str_or (error result) "").

End Markers.

Module Decisions.

(** The decision the adjustments take on a finding: the decision of its
    matching adjustment, if it has one. *)
Definition decision_for (adjustments : list Validator.Adjustment)
    (f : Finding) : option string :=
  Validator.decision <$> Spec.matching adjustments (fid f).

(** All findings of a map, agent by agent. *)
Definition all_of (all_findings : AllFindings) : list Finding :=
  flat_map (fun kd => get_findings (snd kd)) all_findings.

(** The stats dict [_apply_adjustments] starts from. *)
Definition initial_stats (adjustments : list Validator.Adjustment)
    : gmap string Z :=
  {[ "confirmed" := 0; "downgraded" := 0; "rejected" := 0;
     "total" := Z.of_nat (length adjustments) ]}.

(** The number of findings on which the adjustments take a given
    decision. *)
Definition decided (adjustments : list Validator.Adjustment) (key : string)
    (fs : list Finding) : Z :=
  Z.of_nat (length (filter (fun f => decision_for adjustments f = Some key) fs)).

End Decisions.

Module Frame.

(** What a finding says: every key the parser writes, apart from the
    severity. *)
Definition text_fields (f : Finding)
    : string * string * option string * option Z * option string
      * option string * option string * option string :=
  (fid f, title f, file f, line f, effort f, issue f, evidence f,
   recommendation f).

(** A finding reads as BLOCKER or HIGH, whatever the case of its
    letters. *)
Definition reads_high (f : Finding) : bool :=
  bool_decide (Py.upper (severity f) = "BLOCKER")
  || bool_decide (Py.upper (severity f) = "HIGH").

End Frame.

Module Applied.
Import Validator Spec Frame.

(** What an adjustment list makes of a finding that it does not
    reject, field by field.  The adjustment is looked up by the finding's
    id and by nothing else: neither the agent that reported the finding
    nor its severity takes part.  Under a downgrade the finding takes
    the adjusted severity, keeps its old severity as
    [original_severity] and is stamped [downgraded] with the
    adjustment's reason; under any other decision it is stamped
    [confirmed] and is otherwise unchanged; a finding whose id no
    adjustment names is unchanged. *)
Definition applied (adjustments : list Adjustment)
    (before after : Finding) : Prop :=
  text_fields after = text_fields before
  /\ match matching adjustments (fid before) with
     | Some adj =>
         if decide (decision adj = "downgraded")
         then severity after = adjusted_severity adj
              /\ original_severity after = Some (severity before)
              /\ validated after = Some "downgraded"
              /\ validation_reason after = Some (reason adj)
         else severity after = severity before
              /\ original_severity after = original_severity before
              /\ validated after = Some "confirmed"
              /\ validation_reason after = validation_reason before
     | None => after = before
     end.

End Applied.

Module Shape.

(** The state of a run, as the synthesis step may find it: every agent
    carries a findings list of primary severities and a summary that
    agrees with it. *)
Definition well_formed (all_findings : AllFindings) : Prop :=
  Forall (fun kd =>
            Spec.agent_consistent (snd kd)
            /\ Forall (fun f => severity f ∈ Spec.primary_severities)
                 (get_findings (snd kd)))
    all_findings.

(** The number of findings of a severity, over all agents. *)
Definition findings_of (sev : string) (all_findings : AllFindings) : Z :=
  Spec.occurrences sev (map severity (Decisions.all_of all_findings)).

(** The agent-results map after the validator has applied the
    adjustments it parsed from an answer. *)
Definition validated (outputs : list (string * string)) (raw : string)
    : AllFindings :=
  fst (Validator._apply_adjustments (Spec.parse_all outputs)
         (Validator._parse_validation_results raw)).


(** The counters of a summary that agrees with a findings list. *)
Definition counter_of (key sev : string) : Prop :=
  (key, sev) ∈ [("blockers", "BLOCKER"); ("high", "HIGH");
                ("medium", "MEDIUM"); ("low", "LOW")].

End Shape.

Module Failing.

(** The number of test cases that fail: the findings whose severity is
    one of [fail_on]. *)
Definition failing (fail_on : list string) (fs : list Junit.JFinding) : Z :=
  Z.of_nat (length (filter (fun f => Junit.j_severity f ∈ fail_on) fs)).

End Failing.

Module Ties.

(** Two elements tie in an order when each may stand before the
    other. *)
Definition tie {A : Type} (le : A -> A -> bool) (x y : A) : bool :=
  le x y && le y x.

End Ties.

Module Failures.
Import Provider Spec.

(** A response that fails with a server error or a timeout and nothing
    else, and one that fails with a rate limit. *)
Definition server_failure (result : CompletionResult) : Prop :=
  success result = false
  /\ ~ carries client_error_markers result
  /\ ~ carries rate_limit_markers result
  /\ carries server_error_markers result.

Definition rate_limited (result : CompletionResult) : Prop :=
  success result = false
  /\ ~ carries client_error_markers result
  /\ carries rate_limit_markers result.

(** The waits before the attempts 2, ..., [n]: a base delay times the
    number of the attempt that failed, at most three. *)
Definition backoff (base n : Z) : list Z :=
  (fun attempt => base * Z.min attempt 3) <$> seqZ 1 (n - 1).

End Failures.

Module Samples.

(** A provider whose server is down at every call. *)
Definition down_complete (_ : Z) : Provider.CompletionResult :=
  Examples.failure "503 Service Unavailable".

End Samples.

Module Ids.

(** An id of the form the heading pattern asks for: upper-case letters,
    a dash, digits. *)
Definition id_shaped (s : string) : Prop :=
  exists letters digits,
    s = letters +:+ "-" +:+ digits
    /\ letters <> "" /\ digits <> ""
    /\ Chars.all_chars Py.is_upper letters = true
    /\ Chars.all_chars Py.is_digit digits = true.


End Ids.

Module Simple.
Import Re.


End Simple.

Module Headings.
Import Strings Chars.





(** White space, and a text without a line feed. *)
Definition blank (s : string) : Prop := all_chars Py.is_space s = true.
Definition one_line (s : string) : Prop :=
  all_chars (fun a => negb (Ascii.eqb a "010")) s = true.

(** A text of the form [### ID: Title [SEVERITY]]: three hashes, white
    space, an id of upper-case letters, a dash and digits, a colon,
    optional white space, a title on one line, optional white space, and
    one of the four severities in square brackets. *)
Definition heading (s id title sev : string) : Prop :=
  exists ws1 ws2 ws3,
    s = "###" +:+ ws1 +:+ id +:+ ":" +:+ ws2 +:+ title +:+ ws3
          +:+ "[" +:+ sev +:+ "]"
    /\ ws1 <> "" /\ blank ws1 /\ blank ws2 /\ blank ws3
    /\ Ids.id_shaped id
    /\ title <> "" /\ one_line title
    /\ sev ∈ Spec.primary_severities.




End Headings.

Module Layout.
Import Strings Chars.



End Layout.

Module Fences.

(** A well-formed list of code-block spans of a text: each begins and
    ends with a fence of three backticks that do not overlap, lies
    inside the text, and none starts before the one before it has
    ended. *)
Definition fenced (content : string) (r : nat * nat) : Prop :=
  (fst r + 6 <= snd r <= String.length content)%nat
  /\ Py.slice content (fst r) (fst r + 3) = "```"
  /\ Py.slice content (snd r - 3) (snd r) = "```".

End Fences.

Module Contexts.

(** The agents of a worklist in the order in which each one first
    appears. *)
Fixpoint first_seen (agents : list string) : list string :=
  match agents with
  | [] => []
  | a :: rest => a :: filter (fun b => b <> a) (first_seen rest)
  end.

(** The calibration context of an agent, when it is not empty. *)
Definition context_of (build_calibration_context : string -> string)
    (agent : string) : option string :=
  Py.or_none (build_calibration_context agent).

End Contexts.

Module Eligibility.
Import Scanner.

(** A file whose text could be read and is not blank. *)
Definition readable (x : Tiered) : bool :=
  match text (fst x) with
  | Some content_ => Py.truthy (Py.strip content_)
  | None => false
  end.

(** The path of a classified file. *)
Definition path_of (x : Tiered) : Path := path (fst x).

(** The files of a walk that are eligible for the selection: they pass
    [_should_include_file] and the size filter. *)
Definition eligible (min_file_bytes max_file_kb : Z) (f : File) : Prop :=
  _should_include_file (path f) = true
  /\ min_file_bytes <= st_size f <= max_file_kb * 1024.

End Eligibility.

Module Managed.
Import Calibration.

(** An entry that carries the keys [build_calibration_context]
    subscripts. *)
Definition complete_review (f : Reviewed) : Prop :=
  is_Some (r_original_severity f) /\ is_Some (r_adjusted_severity f).

Definition complete_rule (r : Rule) : Prop := is_Some (p_rule r).

Definition complete (file : CalibrationFile) : Prop :=
  Forall complete_review (reviewed_findings (load_calibration file))
  /\ Forall complete_rule (project_rules (load_calibration file)).

(** A calibration file that only [add_reviewed_finding] and
    [add_project_rule] have written, whatever the YAML round trip makes
    of the strings. *)
Inductive managed (reread : string -> string -> string)
    : CalibrationFile -> Prop :=
| managed_absent : managed reread None
| managed_review today file finding_id agent original_severity
    adjusted_severity verdict reason file_path title :
    managed reread file ->
    managed reread
      (snd (add_reviewed_finding reread today file finding_id agent
              original_severity adjusted_severity verdict reason
              file_path title))
| managed_rule today file rule applies_to severity_cap :
    managed reread file ->
    managed reread
      (snd (add_project_rule reread today file rule applies_to
              severity_cap)).

(** The YAML round trip gives an entry, or every entry of a file, back
    as it is. *)
Definition review_reads_back (reread : string -> string -> string)
    (f : Reviewed) : Prop :=
  reread_review reread f = f.

Definition reads_back (reread : string -> string -> string)
    (calibration : Data) : Prop :=
  Forall (review_reads_back reread) (reviewed_findings calibration)
  /\ Forall (fun r => reread_rule reread r = r) (project_rules calibration).

(** The line of a reviewed finding under each of the three verdicts. *)
Definition review_lines : list (string * (Reviewed -> option string)) :=
  [("false_positive", false_positive_line); ("adjusted", adjusted_line);
   ("confirmed", confirmed_line)].

End Managed.

Module Reviews.
Import Calibration.

(** The reviewed findings of a file that are relevant to an agent and
    carry a verdict. *)
Definition reviews_of (file : CalibrationFile) (agent_key verdict : string)
    : list Reviewed :=
  filter (fun f => r_verdict f = Some verdict)
    (filter (fun f => Py.lower (default "" (r_agent f)) = Py.lower agent_key)
       (reviewed_findings (load_calibration file))).

End Reviews.

(** * Theorems *)

(** ** Synthesis *)

Section SynthesisProofs.
Import Synthesis Spec.

Lemma get0_falsy_summary (s : option (gmap string Z)) (key : string) :
  summary_truthy s = false -> get0 (default ∅ s) key = 0.
Proof.
  destruct s as [m|]; simpl; [|reflexivity].
  intros H. apply negb_false_iff, bool_decide_eq_true in H. subst m.
  reflexivity.
Qed.

Lemma agent_falsy_no_summary (d : AgentData) :
  agent_truthy d = false -> summary d = None.
Proof.
  unfold agent_truthy. intros H.
  destruct (summary d) as [m|] eqn:E; [|reflexivity].
  rewrite (bool_decide_eq_true_2 (is_Some (Some m))) in H by eauto.
  rewrite orb_true_r in H. discriminate.
Qed.

Lemma count_totals_summed (all_findings : AllFindings) (tb th : Z) :
  count_totals all_findings tb th =
    (tb + summed "blockers" all_findings, th + summed "high" all_findings).
Proof.
  revert tb th.
  induction all_findings as [|[k d] rest IH]; intros tb th; simpl.
  - f_equal; lia.
  - destruct (negb (agent_truthy d) || negb (summary_truthy (summary d)))
      eqn:Hskip.
    + assert (Hs : summary_truthy (summary d) = false).
      { apply orb_true_iff in Hskip as [H|H]; apply negb_true_iff in H.
        - rewrite (agent_falsy_no_summary d H). reflexivity.
        - exact H. }
      rewrite IH, !(get0_falsy_summary _ _ Hs). f_equal; lia.
    + rewrite IH. f_equal; lia.
Qed.

(** C1.  For every map of agent results, [calculate_verdict] is [HOLD]
    when the blockers summed over the agents exceed 0, otherwise
    [CONDITIONAL] when the summed highs exceed 3, otherwise [SHIP]; and
    [get_exit_code] maps [SHIP] to 0, [CONDITIONAL] to 2 and [HOLD]
    to 1. *)
Theorem calculate_verdict_priority (all_findings : AllFindings) :
  calculate_verdict all_findings =
    (if 0 <? summed "blockers" all_findings then HOLD
     else if 3 <? summed "high" all_findings then CONDITIONAL
     else SHIP)
  /\ get_exit_code SHIP = 0
  /\ get_exit_code CONDITIONAL = 2
  /\ get_exit_code HOLD = 1.
Proof.
  split; [|repeat split].
  unfold calculate_verdict. rewrite count_totals_summed.
  rewrite !Z.add_0_l. reflexivity.
Qed.

End SynthesisProofs.

(** ** The matcher *)

Section MatcherProofs.
Import Re Spec.

Variable text : list ascii.

(** Whatever the matcher finds is a match: when [run] succeeds, the
    pattern matches some stretch from the given offset and the
    continuation succeeded at its end. *)
Lemma run_Star (r1 : regex) i c k :
  run text (Star r1) i c k = star_loop text r1 k (S (length text)) i c.
Proof. reflexivity. Qed.

Lemma run_StarLazy (r1 : regex) i c k :
  run text (StarLazy r1) i c k = lazy_loop text r1 k (S (length text)) i c.
Proof. reflexivity. Qed.

Lemma run_sound (r : regex) :
  forall i c k res,
    run text r i c k = Some res ->
    exists j c', matches text r i c j c' /\ k j c' = Some res.
Proof.
  induction r as [|p|r1 IH1 r2 IH2|r1 IH1 r2 IH2|r1 IH1|r1 IH1
                  |n r1 IH1|r1 IH1| | | | ];
    intros i c k res Hrun.
  - exists i, c. split; [constructor|exact Hrun].
  - cbn [run] in Hrun.
    destruct (text !! i) as [a|] eqn:Ha; [|discriminate].
    destruct (p a) eqn:Hp; [|discriminate].
    exists (S i), c. split; [econstructor; eassumption|exact Hrun].
  - cbn [run] in Hrun.
    apply IH1 in Hrun as (j & c1 & Hm1 & Hrun).
    apply IH2 in Hrun as (j2 & c2 & Hm2 & Hk).
    exists j2, c2. split; [econstructor; eassumption|exact Hk].
  - cbn [run] in Hrun.
    destruct (run text r1 i c k) as [res1|] eqn:E1.
    + inversion Hrun; subst res1.
      apply IH1 in E1 as (j & c1 & Hm & Hk).
      exists j, c1. split; [apply matches_alt_l; exact Hm|exact Hk].
    + apply IH2 in Hrun as (j & c1 & Hm & Hk).
      exists j, c1. split; [apply matches_alt_r; exact Hm|exact Hk].
  - rewrite run_Star in Hrun. revert Hrun.
    generalize (S (length text)). intros fuel. revert i c.
    induction fuel as [|fuel IHf]; intros i c Hrun; cbn [star_loop] in Hrun.
    + exists i, c. split; [constructor|exact Hrun].
    + match type of Hrun with
      | match ?first with _ => _ end = _ => destruct first as [res1|] eqn:E1
      end.
      * inversion Hrun; subst res1.
        apply IH1 in E1 as (j & c1 & Hm & Hloop).
        destruct (i <? j)%nat; [|discriminate].
        apply IHf in Hloop as (j2 & c2 & Hm2 & Hk).
        exists j2, c2. split; [|exact Hk].
        eapply matches_star_more; eassumption.
      * exists i, c. split; [constructor|exact Hrun].
  - rewrite run_StarLazy in Hrun. revert Hrun.
    generalize (S (length text)). intros fuel. revert i c.
    induction fuel as [|fuel IHf]; intros i c Hrun; cbn [lazy_loop] in Hrun.
    + exists i, c. split; [constructor|exact Hrun].
    + destruct (k i c) as [res1|] eqn:E1.
      * inversion Hrun; subst res1.
        exists i, c. split; [constructor|exact E1].
      * apply IH1 in Hrun as (j & c1 & Hm & Hloop).
        destruct (i <? j)%nat; [|discriminate].
        apply IHf in Hloop as (j2 & c2 & Hm2 & Hk).
        exists j2, c2. split; [|exact Hk].
        eapply matches_lazy_more; eassumption.
  - cbn [run] in Hrun. apply IH1 in Hrun as (j & c1 & Hm & Hk).
    exists j, ((n, (i, j)) :: c1). split; [constructor; exact Hm|exact Hk].
  - cbn [run] in Hrun.
    destruct (run text r1 i c (fun j c' => Some (j, c')))
      as [[j c1]|] eqn:E1; [|discriminate].
    apply IH1 in E1 as (j' & c' & Hm & Hk). inversion Hk; subst j' c'.
    exists i, c1. split; [econstructor; exact Hm|exact Hrun].
  - cbn [run] in Hrun. destruct (i =? 0)%nat eqn:E; [|discriminate].
    apply Nat.eqb_eq in E. subst i.
    exists 0%nat, c. split; [constructor|exact Hrun].
  - cbn [run] in Hrun.
    destruct (i =? length text)%nat eqn:E; [|discriminate].
    apply Nat.eqb_eq in E. subst i.
    exists (length text), c. split; [constructor|exact Hrun].
  - cbn [run] in Hrun. destruct (at_dollar text i) eqn:E; [|discriminate].
    exists i, c. split; [constructor; exact E|exact Hrun].
  - cbn [run] in Hrun.
    destruct (at_word_boundary text i) eqn:E; [|discriminate].
    exists i, c. split; [constructor; exact E|exact Hrun].
Qed.

Lemma match_at_sound (r : regex) (i j : nat) (c : captures) :
  match_at text r i = Some (j, c) -> matches text r i [] j c.
Proof.
  unfold match_at. intros Hrun.
  apply run_sound in Hrun as (j' & c' & Hm & Hk).
  inversion Hk; subst j' c'. exact Hm.
Qed.

(** Every match object of a scan comes from a successful attempt at its
    start offset. *)
Lemma scan_sound (r : regex) (fuel i : nat) (m : rmatch) :
  m ∈ scan fuel r text i ->
  match_at text r (m_start m) = Some (m_end m, m_groups m).
Proof.
  revert i. induction fuel as [|fuel IH]; intros i Hm; cbn [scan] in Hm.
  - inversion Hm.
  - destruct (length text <? i)%nat; [inversion Hm|].
    destruct (match_at text r i) as [[j c]|] eqn:E.
    + apply elem_of_cons in Hm as [->|Hm]; [exact E|].
      exact (IH _ Hm).
    + exact (IH _ Hm).
Qed.

(** A literal matches exactly its characters and leaves the captures
    alone. *)
Lemma matches_Lit (s : string) (i j : nat) (c c' : captures) :
  matches text (Lit s) i c j c' ->
  c' = c /\ j = (i + String.length s)%nat
  /\ forall k a, String.get k s = Some a -> text !! (i + k)%nat = Some a.
Proof.
  revert i c. induction s as [|a s IH]; intros i c Hm.
  - cbn [Lit] in Hm. inversion Hm; subst.
    split; [reflexivity|]. split; [cbn; lia|]. intros k b Hk. discriminate.
  - assert (Hstep : forall i1 c1,
               matches text (Chr (is_chr a)) i c i1 c1 ->
               c1 = c /\ i1 = S i /\ text !! i = Some a).
    { intros i1 c1 H1. inversion H1; subst.
      match goal with H : is_chr a _ = true |- _ =>
        apply Ascii.eqb_eq in H; subst end.
      auto. }
    destruct s as [|b s].
    + cbn [Lit] in Hm. apply Hstep in Hm as (-> & -> & Ha).
      split; [reflexivity|]. split; [cbn; lia|].
      intros [|k] x Hk; cbn in Hk; [|discriminate].
      inversion Hk; subst x. rewrite Nat.add_0_r. exact Ha.
    + change (Lit (String a (String b s)))
        with (Seq (Chr (is_chr a)) (Lit (String b s))) in Hm.
      inversion Hm as [| |? ? ? ? i1 c1 ? ? H1 H2| | | | | | | | | | | | ];
        subst.
      apply Hstep in H1 as (-> & -> & Ha).
      apply IH in H2 as (-> & -> & Hrest).
      split; [reflexivity|]. split; [cbn [String.length]; lia|].
      intros [|k] x Hk.
      * cbn in Hk. inversion Hk; subst x. rewrite Nat.add_0_r. exact Ha.
      * replace (i + S k)%nat with (S i + k)%nat by lia.
        apply Hrest. exact Hk.
Qed.

Lemma matches_plain (r : regex) (i j : nat) (c c' : captures) :
  plain r = true -> matches text r i c j c' -> c' = c.
Proof.
  intros Hplain Hm.
  induction Hm; cbn [plain] in Hplain;
    try apply andb_true_iff in Hplain as [Hp1 Hp2];
    try discriminate; try reflexivity; auto.
  - rewrite IHHm2, IHHm1 by assumption. reflexivity.
  - rewrite IHHm2, IHHm1 by assumption. reflexivity.
  - rewrite IHHm2, IHHm1 by assumption. reflexivity.
Qed.

Lemma matches_Seq_inv (r1 r2 : regex) (i j : nat) (c c' : captures) :
  matches text (Seq r1 r2) i c j c' ->
  exists m c1, matches text r1 i c m c1 /\ matches text r2 m c1 j c'.
Proof. intros Hm. inversion Hm; subst. eauto. Qed.

Lemma matches_Group_inv (n : nat) (r : regex) (i j : nat) (c c' : captures) :
  matches text (Group n r) i c j c' ->
  exists c1, matches text r i c j c1 /\ c' = (n, (i, j)) :: c1.
Proof. intros Hm. inversion Hm; subst. eauto. Qed.

Lemma matches_Alt_inv (r1 r2 : regex) (i j : nat) (c c' : captures) :
  matches text (Alt r1 r2) i c j c' ->
  matches text r1 i c j c' \/ matches text r2 i c j c'.
Proof. intros Hm. inversion Hm; subst; auto. Qed.

End MatcherProofs.

Section SliceProofs.

(** A stretch of a string that spells [s] is the slice [s]. *)
Lemma substring_chars (content s : string) (a : nat) :
  (forall k x, String.get k s = Some x ->
               list_ascii_of_string content !! (a + k)%nat = Some x) ->
  String.substring a (String.length s) content = s.
Proof.
  revert content s. induction a as [|a IHa]; intros content s Hchars.
  - revert content Hchars. induction s as [|x s IHs]; intros content Hchars.
    + destruct content; reflexivity.
    + pose proof (Hchars 0%nat x eq_refl) as H0.
      destruct content as [|y content]; [discriminate|].
      cbn in H0. inversion H0; subst y.
      cbn [String.length String.substring]. f_equal. apply IHs.
      intros k z Hk. exact (Hchars (S k) z Hk).
  - destruct content as [|y content].
    + destruct s as [|x s]; [reflexivity|].
      pose proof (Hchars 0%nat x eq_refl) as H0. discriminate.
    + cbn [String.substring]. apply IHa.
      intros k z Hk. exact (Hchars k z Hk).
Qed.

Lemma slice_chars (content s : string) (a b : nat) :
  b = (a + String.length s)%nat ->
  (forall k x, String.get k s = Some x ->
               list_ascii_of_string content !! (a + k)%nat = Some x) ->
  Py.slice content a b = s.
Proof.
  intros -> Hchars. unfold Py.slice.
  replace (a + String.length s - a)%nat with (String.length s) by lia.
  apply substring_chars. exact Hchars.
Qed.

End SliceProofs.

(** ** The findings parser *)

Section FindingsProofs.
Import Re Findings Spec.

Lemma count_severity_occurrences (sev : string) (fs : list Finding) :
  count_severity sev fs = occurrences sev (map severity fs).
Proof.
  unfold count_severity.
  induction fs as [|f fs IH]; [reflexivity|].
  cbn [occurrences map]. rewrite <- IH. rewrite filter_cons.
  case_bool_decide as Hsev; destruct (decide (severity f = sev));
    try contradiction; cbn [length]; lia.
Qed.

Lemma build_summary_consistent (fs : list Finding) :
  consistent (build_summary fs) fs.
Proof.
  unfold consistent, counts, build_summary.
  rewrite <- !count_severity_occurrences, length_map.
  repeat split; simplify_map_eq; reflexivity.
Qed.


(** The loop of the parser keeps exactly the matches that start outside
    every code block, in order. *)
Lemma collect_findings_kept (content : string) (ranges : list (nat * nat))
    (matches : list rmatch) :
  collect_findings content ranges matches =
    map (finding_of_match content)
      (filter (fun m => _in_code_block (m_start m) ranges = false) matches).
Proof.
  induction matches as [|m matches IH]; [reflexivity|].
  cbn [collect_findings]. rewrite filter_cons.
  destruct (_in_code_block (m_start m) ranges) eqn:E.
  - destruct (decide (true = false)); [discriminate|]. exact IH.
  - destruct (decide (false = false)); [|contradiction].
    cbn [map]. f_equal. exact IH.
Qed.

(** The third group of a heading match is one of the four severities. *)
Lemma heading_match_severity (content : string) (m : rmatch) :
  m ∈ finditer heading_re content ->
  exists sev, sev ∈ primary_severities /\ group content m 3 = Some sev.
Proof.
  unfold finditer. intros Hm.
  apply scan_sound, match_at_sound in Hm.
  unfold heading_re in Hm. cbn [Seqs] in Hm.
  do 7 (apply matches_Seq_inv in Hm as (? & ? & _ & Hm)).
  apply matches_Seq_inv in Hm as (a & c1 & _ & Hm).
  apply matches_Seq_inv in Hm as (b & c3 & Hgroup & Hclose).
  apply matches_plain in Hclose; [|reflexivity].
  apply matches_Group_inv in Hgroup as (c2 & Halts & ->).
  unfold group. rewrite Hclose. cbn [capture Nat.eqb].
  cbn [Alts] in Halts.
  assert (Hlit : forall name,
             matches (list_ascii_of_string content) (Lit name) a c1 b c2 ->
             Py.slice content a b = name).
  { intros name Hname. apply matches_Lit in Hname as (_ & Hb & Hchars).
    apply slice_chars; assumption. }
  unfold primary_severities.
  apply matches_Alt_inv in Halts as [H|Halts];
    [|apply matches_Alt_inv in Halts as [H|Halts];
      [|apply matches_Alt_inv in Halts as [H|H]]];
    apply Hlit in H; rewrite H; eexists; (split; [|reflexivity]);
    set_solver.
Qed.

(** Spec section 3: the severity of a parsed finding is always one of
    the four primary values. *)
Lemma parsed_severities_primary (content : string) :
  Forall (fun f => severity f ∈ primary_severities)
    (get_findings (parse_findings_markdown content)).
Proof.
  unfold get_findings. cbn [parse_findings_markdown findings default].
  unfold id. rewrite collect_findings_kept.
  apply Forall_forall. intros f Hf.
  apply list_elem_of_In, in_map_iff in Hf as (m & <- & Hm).
  apply list_elem_of_In, list_elem_of_filter in Hm as [_ Hm].
  destruct (heading_match_severity content m Hm) as (sev & Hsev & Hgroup).
  cbn [finding_of_match severity].
  unfold finding_of_match.
  repeat match goal with
         | |- context [let '(_, _) := ?e in _] => destruct e
         end.
  cbn [severity]. rewrite Hgroup. exact Hsev.
Qed.

Lemma primary_canonical (sev : string) :
  sev ∈ primary_severities -> canonical sev.
Proof.
  unfold primary_severities, canonical. intros Hsev.
  repeat (apply elem_of_cons in Hsev as [->|Hsev]; [reflexivity|]).
  inversion Hsev.
Qed.

End FindingsProofs.

(** ** The validator *)

Section ValidatorProofs.
Import Re Provider Validator Spec.

Lemma upper_char_idem (a : ascii) :
  Py.upper_char (Py.upper_char a) = Py.upper_char a.
Proof. destruct a as [[] [] [] [] [] [] [] []]; reflexivity. Qed.

Lemma upper_idem (s : string) : Py.upper (Py.upper s) = Py.upper s.
Proof.
  induction s as [|a s IH]; [reflexivity|].
  cbn. rewrite upper_char_idem. f_equal. exact IH.
Qed.

(** The dict comprehension keeps, for each id, the last adjustment that
    names it. *)
Lemma adjustment_map_matching (adjustments : list Adjustment) (id : string) :
  adjustment_map adjustments !! id = matching adjustments id.
Proof.
  unfold adjustment_map, matching.
  induction adjustments as [|a adjustments IH] using rev_ind.
  - cbn. apply lookup_empty.
  - rewrite foldl_app, filter_app. cbn [foldl].
    rewrite filter_cons, filter_nil.
    destruct (decide (finding_id a = id)) as [Heq|Hne].
    + rewrite last_snoc. subst id. apply lookup_insert_eq.
    + rewrite app_nil_r, lookup_insert_ne by exact Hne. exact IH.
Qed.

Lemma adjust_list_fst (adjustments : list Adjustment) (fs : list Finding)
    (stats : gmap string Z) :
  fst (adjust_list (adjustment_map adjustments) fs stats)
    = omap (adjust_one adjustments) fs.
Proof.
  revert stats. induction fs as [|f fs IH]; intros stats; [reflexivity|].
  cbn [adjust_list omap list_omap]. unfold adjust_one at 1.
  rewrite adjustment_map_matching.
  destruct (matching adjustments (fid f)) as [adj|].
  - destruct (bool_decide (decision adj = "rejected")).
    + apply IH.
    + specialize (IH (incr (decision adj) stats)).
      destruct (adjust_list _ fs _) as [l st]. cbn in *. rewrite IH.
      destruct (bool_decide (decision adj = "downgraded")); reflexivity.
  - specialize (IH stats).
    destruct (adjust_list _ fs _) as [l st]. cbn in *. rewrite IH.
    reflexivity.
Qed.

Lemma adjust_agents_fst (adjustments : list Adjustment)
    (all_findings : AllFindings) (stats : gmap string Z) :
  fst (adjust_agents (adjustment_map adjustments) all_findings stats)
    = adjust_all adjustments all_findings.
Proof.
  revert stats.
  induction all_findings as [|[k d] rest IH]; intros stats; [reflexivity|].
  cbn [adjust_agents adjust_all map].
  pose proof (adjust_list_fst adjustments (get_findings d) stats) as Hl.
  destruct (adjust_list _ (get_findings d) stats) as [l st]. cbn in Hl.
  specialize (IH st).
  destruct (adjust_agents _ rest st) as [rest' st']. cbn in IH |- *.
  unfold adjust_agent. rewrite Hl. f_equal. exact IH.
Qed.

(** [_apply_adjustments] treats every agent, and every finding of an
    agent, on its own. *)
Lemma apply_adjustments_fst (all_findings : AllFindings)
    (adjustments : list Adjustment) :
  fst (_apply_adjustments all_findings adjustments)
    = adjust_all adjustments all_findings.
Proof. apply adjust_agents_fst. Qed.

Lemma occurrences_snoc (sev : string) (sevs : list string) (x : string) :
  occurrences sev (sevs ++ [x])
    = occurrences sev sevs + (if bool_decide (x = sev) then 1 else 0).
Proof.
  induction sevs as [|y sevs IH]; cbn [app occurrences]; [lia|].
  rewrite IH. lia.
Qed.

Lemma counts_zero : counts zero_summary [].
Proof. unfold counts, zero_summary. repeat split. Qed.

Lemma count_one_counts (s : gmap string Z) (sevs : list string) (f : Finding) :
  counts s sevs -> counts (count_one s f) (sevs ++ [Py.upper (severity f)]).
Proof.
  unfold counts. intros (Ht & Hb & Hh & Hm & Hl).
  rewrite !occurrences_snoc, length_app. cbn [length].
  replace (Z.of_nat (length sevs + 1)) with (Z.of_nat (length sevs) + 1)
    by lia.
  unfold count_one, incr, get0.
  repeat case_bool_decide; simplify_map_eq;
    repeat split; f_equal; try lia; congruence.
Qed.

(** The recount of a summary counts every finding once in the total and
    once under the severity that [upper] reads. *)
Lemma recount_counts (fs : list Finding) :
  counts (recount fs) (map (fun f => Py.upper (severity f)) fs).
Proof.
  unfold recount.
  induction fs as [|f fs IH] using rev_ind; [exact counts_zero|].
  rewrite foldl_app, map_app. cbn [foldl map].
  apply count_one_counts. exact IH.
Qed.

Lemma recount_consistent (fs : list Finding) :
  Forall (fun f => canonical (severity f)) fs -> consistent (recount fs) fs.
Proof.
  intros Hc. unfold consistent.
  replace (map severity fs) with (map (fun f => Py.upper (severity f)) fs).
  - apply recount_counts.
  - induction Hc as [|f fs Hf _ IH]; [reflexivity|].
    cbn [map]. rewrite IH. f_equal. exact Hf.
Qed.

Lemma matching_elem_of (adjustments : list Adjustment) (id : string)
    (adj : Adjustment) :
  matching adjustments id = Some adj ->
  adj ∈ adjustments /\ finding_id adj = id.
Proof.
  unfold matching. intros H. apply last_Some in H as [l' Hl].
  assert (Hin : adj ∈ filter (fun a => finding_id a = id) adjustments).
  { rewrite Hl. apply elem_of_app. right. left. }
  apply list_elem_of_filter in Hin as [Hid Hin]. split; assumption.
Qed.

Lemma adjust_one_fid (adjustments : list Adjustment) (f f' : Finding) :
  adjust_one adjustments f = Some f' -> fid f' = fid f.
Proof.
  unfold adjust_one. intros Hone.
  destruct (matching adjustments (fid f)) as [adj|];
    repeat case_bool_decide; inversion Hone; reflexivity.
Qed.

Lemma adjust_one_rejected (adjustments : list Adjustment) (f : Finding) :
  adjust_one adjustments f = None <-> rejected_by adjustments f.
Proof.
  unfold adjust_one, rejected_by.
  destruct (matching adjustments (fid f)) as [adj|].
  - repeat case_bool_decide; split; try discriminate; try reflexivity.
    + intros _. exists adj. split; [reflexivity|assumption].
    + intros (a & Ha & Hr). inversion Ha; subst a. contradiction.
    + intros (a & Ha & Hr). inversion Ha; subst a. contradiction.
  - split; [discriminate|]. intros (a & Ha & _). discriminate.
Qed.

Lemma adjust_one_canonical (adjustments : list Adjustment) (f f' : Finding) :
  Forall canonical_adjustment adjustments ->
  canonical (severity f) ->
  adjust_one adjustments f = Some f' -> canonical (severity f').
Proof.
  intros Hadj Hf. unfold adjust_one.
  destruct (matching adjustments (fid f)) as [adj|] eqn:Hm.
  - apply matching_elem_of in Hm as [Hin _].
    rewrite Forall_forall in Hadj. specialize (Hadj adj Hin).
    repeat case_bool_decide; intros Hone; inversion Hone; subst f'; cbn;
      assumption.
  - intros Hone; inversion Hone; subst f'. exact Hf.
Qed.

Lemma omap_adjust_canonical (adjustments : list Adjustment)
    (fs : list Finding) :
  Forall canonical_adjustment adjustments ->
  Forall (fun f => canonical (severity f)) fs ->
  Forall (fun f => canonical (severity f)) (omap (adjust_one adjustments) fs).
Proof.
  intros Hadj Hfs. apply Forall_forall. intros f' Hin.
  apply list_elem_of_omap in Hin as (f & Hf & Hone).
  rewrite Forall_forall in Hfs.
  exact (adjust_one_canonical adjustments f f' Hadj (Hfs f Hf) Hone).
Qed.

(** The adjusted length: what is left is what was not rejected. *)
Lemma omap_adjust_length (adjustments : list Adjustment) (fs : list Finding) :
  Z.of_nat (length (omap (adjust_one adjustments) fs))
    = Z.of_nat (length fs)
      - Z.of_nat (length (filter (rejected_by adjustments) fs)).
Proof.
  induction fs as [|f fs IH]; [reflexivity|].
  cbn [omap list_omap]. rewrite filter_cons.
  destruct (adjust_one adjustments f) as [f'|] eqn:E.
  - destruct (decide (rejected_by adjustments f)) as [Hr|Hr].
    + apply adjust_one_rejected in Hr. congruence.
    + cbn [length]. lia.
  - destruct (decide (rejected_by adjustments f)) as [Hr|Hr].
    + cbn [length]. lia.
    + exfalso. apply Hr. apply adjust_one_rejected. exact E.
Qed.

Lemma parsed_adjustments_canonical (raw : string) :
  Forall canonical_adjustment (_parse_validation_results raw).
Proof.
  unfold _parse_validation_results. apply Forall_forall. intros a Ha.
  apply list_elem_of_In, in_map_iff in Ha as (m & <- & _).
  unfold canonical_adjustment, canonical. cbn. apply upper_idem.
Qed.

Lemma Forall_adjust_all (P : AgentData -> Prop)
    (adjustments : list Adjustment) (all_findings : AllFindings) :
  (forall kd, kd ∈ all_findings -> P (adjust_agent adjustments (snd kd))) ->
  Forall (fun kd => P (snd kd)) (adjust_all adjustments all_findings).
Proof.
  intros H. apply Forall_forall. intros kd' Hin.
  apply list_elem_of_In, in_map_iff in Hin as (kd & <- & Hkd).
  apply H. apply list_elem_of_In. exact Hkd.
Qed.

Lemma parse_all_canonical (outputs : list (string * string)) :
  Forall canonical_agent (parse_all outputs).
Proof.
  unfold parse_all. apply Forall_forall. intros kd Hkd.
  apply list_elem_of_In, in_map_iff in Hkd as ([k content_] & <- & _).
  unfold canonical_agent. cbn [snd].
  eapply Forall_impl; [apply parsed_severities_primary|].
  intros f Hf. apply primary_canonical. exact Hf.
Qed.

(** C2.  For every markdown input the summary built by the parser has
    [total] equal to the number of findings and each severity counter
    equal to the number of findings of that severity.  After the
    validator has applied any list of adjustments, each agent's summary
    is the recount of its remaining findings and nothing else: its total
    is their number and each counter is the number of them that the
    recount, which compares [severity.upper()], reads as that severity.
    With severities written in upper case, as the data model writes
    them, the summary satisfies the same equations as the parser's; that
    is the case in every run, where the findings come from the parser
    and the adjustments from a validator answer. *)
Theorem summaries_count_findings :
  (forall content : string,
     agent_consistent (Findings.parse_findings_markdown content))
  /\ (forall (all_findings : AllFindings) (adjustments : list Adjustment),
        Forall (fun kd =>
                  exists fs,
                    findings (snd kd) = Some fs
                    /\ summary (snd kd) = Some (recount fs)
                    /\ counts (recount fs)
                         (map (fun f => Py.upper (severity f)) fs))
          (fst (_apply_adjustments all_findings adjustments)))
  /\ (forall (all_findings : AllFindings) (adjustments : list Adjustment),
        Forall canonical_agent all_findings ->
        Forall canonical_adjustment adjustments ->
        Forall (fun kd => agent_consistent (snd kd))
          (fst (_apply_adjustments all_findings adjustments)))
  /\ (forall (outputs : list (string * string)) (raw : string),
        Forall (fun kd => agent_consistent (snd kd))
          (fst (_apply_adjustments (parse_all outputs)
                  (_parse_validation_results raw)))).
Proof.
  assert (Hcanonical :
            forall (all_findings : AllFindings)
                   (adjustments : list Adjustment),
              Forall canonical_agent all_findings ->
              Forall canonical_adjustment adjustments ->
              Forall (fun kd => agent_consistent (snd kd))
                (fst (_apply_adjustments all_findings adjustments))).
  { intros all_findings adjustments Hall Hadj.
    rewrite apply_adjustments_fst.
    apply (Forall_adjust_all agent_consistent). intros kd Hkd.
    unfold agent_consistent. eexists _, _.
    split; [reflexivity|]. split; [reflexivity|].
    apply recount_consistent. apply omap_adjust_canonical; [exact Hadj|].
    rewrite Forall_forall in Hall. exact (Hall kd Hkd). }
  split; [|split; [|split]].
  - intros content. unfold agent_consistent.
    eexists _, _. split; [reflexivity|]. split; [reflexivity|].
    apply build_summary_consistent.
  - intros all_findings adjustments. rewrite apply_adjustments_fst.
    apply (Forall_adjust_all
             (fun d => exists fs, findings d = Some fs
                                  /\ summary d = Some (recount fs)
                                  /\ counts (recount fs) _)).
    intros kd _. eexists. split; [reflexivity|]. split; [reflexivity|].
    apply recount_counts.
  - exact Hcanonical.
  - intros outputs raw. apply Hcanonical.
    + apply parse_all_canonical.
    + apply parsed_adjustments_canonical.
Qed.

Lemma Forall2_adjust_all (R : string * AgentData -> string * AgentData -> Prop)
    (adjustments : list Adjustment) (all_findings : AllFindings) :
  (forall kd, R kd (fst kd, adjust_agent adjustments (snd kd))) ->
  Forall2 R all_findings (adjust_all adjustments all_findings).
Proof.
  intros H. induction all_findings as [|kd rest IH]; constructor.
  - apply H.
  - exact IH.
Qed.

Lemma rejected_by_fid (adjustments : list Adjustment) (f g : Finding) :
  fid f = fid g -> rejected_by adjustments f -> rejected_by adjustments g.
Proof. unfold rejected_by. intros ->. trivial. Qed.

(** C4.  For every agent-results map and every adjustment list, agent by
    agent: a finding whose matching adjustment has the decision
    [rejected] is in the adjusted findings list under no severity (no
    finding of the list bears its id), every finding of the list comes
    from one that is not rejected, the new summary is the recount of the
    list, and its total is the old number of findings less the number of
    rejected ones. *)
Theorem rejected_findings_removed (all_findings : AllFindings)
    (adjustments : list Adjustment) :
  Forall2
    (fun before after =>
       fst after = fst before
       /\ exists fs' s',
            findings (snd after) = Some fs'
            /\ summary (snd after) = Some s'
            /\ (forall f, f ∈ get_findings (snd before) ->
                  rejected_by adjustments f ->
                  forall f', f' ∈ fs' -> fid f' <> fid f)
            /\ (forall f', f' ∈ fs' ->
                  exists f, f ∈ get_findings (snd before)
                            /\ ~ rejected_by adjustments f
                            /\ fid f' = fid f)
            /\ s' = recount fs'
            /\ s' !! "total" = Some (Z.of_nat (length fs'))
            /\ Z.of_nat (length fs')
               = Z.of_nat (length (get_findings (snd before)))
                 - Z.of_nat (length (filter (rejected_by adjustments)
                                       (get_findings (snd before)))))
    all_findings (fst (_apply_adjustments all_findings adjustments)).
Proof.
  rewrite apply_adjustments_fst. apply Forall2_adjust_all.
  intros [k d]. cbn [fst snd]. split; [reflexivity|].
  eexists _, _. split; [reflexivity|]. split; [reflexivity|].
  split; [|split; [|split; [|split]]].
  - intros f Hf Hrej f' Hf' Hid.
    apply list_elem_of_omap in Hf' as (f0 & Hf0 & Hone).
    pose proof (adjust_one_fid _ _ _ Hone) as Hid0.
    assert (Hr0 : rejected_by adjustments f0).
    { apply (rejected_by_fid adjustments f); [congruence|exact Hrej]. }
    apply adjust_one_rejected in Hr0. congruence.
  - intros f' Hf'.
    apply list_elem_of_omap in Hf' as (f0 & Hf0 & Hone).
    exists f0. split; [exact Hf0|]. split.
    + intros Hr. apply adjust_one_rejected in Hr. congruence.
    + exact (adjust_one_fid _ _ _ Hone).
  - reflexivity.
  - pose proof (recount_counts (omap (adjust_one adjustments)
                                  (get_findings d))) as (Ht & _).
    rewrite length_map in Ht. exact Ht.
  - apply omap_adjust_length.
Qed.

Lemma restamp_severity (adjustments : list Adjustment) (f : Finding) :
  severity (restamp adjustments f) = severity f.
Proof.
  unfold restamp. destruct (matching adjustments (fid f)) as [adj|];
    [case_bool_decide|]; reflexivity.
Qed.

Lemma restamp_idem (adjustments : list Adjustment) (f : Finding) :
  restamp adjustments (restamp adjustments f) = restamp adjustments f.
Proof.
  unfold restamp.
  destruct (matching adjustments (fid f)) as [adj|] eqn:Hm.
  - case_bool_decide as Hd; cbn [fid]; rewrite Hm.
    + rewrite bool_decide_eq_true_2 by exact Hd. reflexivity.
    + rewrite bool_decide_eq_false_2 by exact Hd. reflexivity.
  - rewrite Hm. reflexivity.
Qed.

Lemma forget_restamp (adjustments : list Adjustment) (f : Finding) :
  forget_original (restamp adjustments f) = forget_original f.
Proof.
  unfold restamp. destruct (matching adjustments (fid f)) as [adj|];
    [case_bool_decide|]; reflexivity.
Qed.

(** A finding that one application has let through is, at the next
    application, only restamped. *)
Lemma adjust_one_again (adjustments : list Adjustment) (f0 f1 : Finding) :
  adjust_one adjustments f0 = Some f1 ->
  adjust_one adjustments f1 = Some (restamp adjustments f1).
Proof.
  intros Hone. pose proof (adjust_one_fid _ _ _ Hone) as Hid.
  unfold adjust_one in *. unfold restamp. rewrite Hid.
  destruct (matching adjustments (fid f0)) as [adj|].
  - case_bool_decide as Hr; [discriminate|].
    case_bool_decide as Hd; inversion Hone; subst f1; reflexivity.
  - inversion Hone; subst f1. reflexivity.
Qed.

Lemma omap_adjust_again (adjustments : list Adjustment) (fs : list Finding) :
  omap (adjust_one adjustments) (omap (adjust_one adjustments) fs)
    = map (restamp adjustments) (omap (adjust_one adjustments) fs).
Proof.
  induction fs as [|f fs IH]; [reflexivity|].
  cbn [omap list_omap].
  destruct (adjust_one adjustments f) as [f1|] eqn:E; [|exact IH].
  cbn [omap list_omap map]. rewrite (adjust_one_again _ _ _ E).
  f_equal. exact IH.
Qed.

Lemma foldl_count_one_ext (fs fs' : list Finding) (s : gmap string Z) :
  map severity fs = map severity fs' ->
  foldl count_one s fs = foldl count_one s fs'.
Proof.
  revert fs' s. induction fs as [|f fs IH]; intros [|f' fs'] s Hmap;
    try discriminate; [reflexivity|].
  cbn [map] in Hmap. inversion Hmap as [[Hsev Hrest]].
  cbn [foldl]. replace (count_one s f') with (count_one s f).
  - apply IH. exact Hrest.
  - unfold count_one. rewrite Hsev. reflexivity.
Qed.

Lemma recount_restamp (adjustments : list Adjustment) (fs : list Finding) :
  recount (map (restamp adjustments) fs) = recount fs.
Proof.
  apply foldl_count_one_ext. rewrite map_map.
  apply map_ext. intros f. apply restamp_severity.
Qed.

Lemma adjust_all_again (adjustments : list Adjustment)
    (all_findings : AllFindings) :
  adjust_all adjustments (adjust_all adjustments all_findings)
    = restamp_all adjustments (adjust_all adjustments all_findings).
Proof.
  unfold adjust_all, restamp_all. rewrite !map_map. apply map_ext.
  intros [k d]. cbn [fst snd]. f_equal.
  unfold adjust_agent. cbn [get_findings findings default status rawMarkdown
                              summary fmap option_fmap option_map].
  unfold id. rewrite omap_adjust_again, recount_restamp. reflexivity.
Qed.

Lemma restamp_all_idem (adjustments : list Adjustment)
    (all_findings : AllFindings) :
  restamp_all adjustments (restamp_all adjustments all_findings)
    = restamp_all adjustments all_findings.
Proof.
  unfold restamp_all. rewrite map_map. apply map_ext.
  intros [k d]. cbn [fst snd status summary findings rawMarkdown].
  f_equal. f_equal. destruct (findings d) as [fs|]; [|reflexivity].
  cbn. f_equal. rewrite map_map. apply map_ext. intros f.
  apply restamp_idem.
Qed.

Lemma forget_restamp_all (adjustments : list Adjustment)
    (all_findings : AllFindings) :
  forget_originals (restamp_all adjustments all_findings)
    = forget_originals all_findings.
Proof.
  unfold forget_originals, restamp_all. rewrite map_map. apply map_ext.
  intros [k d]. cbn [fst snd status summary findings rawMarkdown].
  f_equal. f_equal. destruct (findings d) as [fs|]; [|reflexivity].
  cbn. f_equal. rewrite map_map. apply map_ext. intros f.
  apply forget_restamp.
Qed.

(** Counterexample to C6 as stated: the downgrade of GUARDIAN-002
    applied a second time to the already adjusted state gives another
    state; its [original_severity] turns from BLOCKER into LOW. *)
Lemma revalidation_not_idempotent :
  let adjustments := _parse_validation_results Examples.raw_downgrade in
  let once := fst (_apply_adjustments Examples.make_findings adjustments) in
  let twice := fst (_apply_adjustments once adjustments) in
  originals once
    = [("GUARDIAN-001", None); ("GUARDIAN-002", Some "BLOCKER");
       ("GUARDIAN-003", None)]
  /\ originals twice
     = [("GUARDIAN-001", None); ("GUARDIAN-002", Some "LOW");
        ("GUARDIAN-003", None)]
  /\ twice <> once.
Proof.
  cbv zeta. split; [vm_compute; reflexivity|].
  split; [vm_compute; reflexivity|].
  intros Heq. apply (f_equal originals) in Heq.
  vm_compute in Heq. discriminate Heq.
Qed.

(** C6, amended.  For every agent-results map and every raw validator
    output, applying the parsed adjustments a second time to the already
    adjusted state only restamps it: the agents, their findings lists,
    every field of every finding other than [original_severity], and the
    summaries are those of the first application, and
    [original_severity] of each finding matched by a downgrade now holds
    its adjusted severity; any further application changes nothing. *)
Theorem revalidation_only_restamps (all_findings : AllFindings)
    (raw : string) :
  let adjustments := _parse_validation_results raw in
  let once := fst (_apply_adjustments all_findings adjustments) in
  let twice := fst (_apply_adjustments once adjustments) in
  twice = restamp_all adjustments once
  /\ forget_originals twice = forget_originals once
  /\ fst (_apply_adjustments twice adjustments) = twice.
Proof.
  intros adjustments once twice. subst once twice.
  rewrite !apply_adjustments_fst.
  split; [apply adjust_all_again|]. split.
  - rewrite adjust_all_again. apply forget_restamp_all.
  - rewrite !adjust_all_again. rewrite restamp_all_idem. reflexivity.
Qed.

Lemma adjust_list_no_adjustments (fs : list Finding) (stats : gmap string Z) :
  adjust_list ∅ fs stats = (fs, stats).
Proof.
  induction fs as [|f fs IH]; [reflexivity|].
  cbn [adjust_list]. rewrite lookup_empty, IH. reflexivity.
Qed.

Lemma adjust_agents_no_adjustments (all_findings : AllFindings)
    (stats : gmap string Z) :
  adjust_agents ∅ all_findings stats
    = (map (fun kd => (fst kd, recounted (snd kd))) all_findings, stats).
Proof.
  induction all_findings as [|[k d] rest IH]; [reflexivity|].
  cbn [adjust_agents]. rewrite adjust_list_no_adjustments, IH.
  reflexivity.
Qed.

(** C5.  The defect at its failing input: three BLOCKER/HIGH findings
    and a provider that answers successfully with a text that holds no
    validation block.  The findings stay, but the stats report 0
    confirmed findings out of a total of 0.  On the same findings the
    two sibling returns of [run_validator], after a failed call and on a
    dry run, report 3 confirmed out of 3. *)
Lemma silent_validator_reports_zero_confirmed :
  let run provider dry_run :=
    run_validator Examples.no_calibration "" provider
      Examples.make_findings "" dry_run in
  success (Examples.chatty_provider "" "" "") = true
  /\ _parse_validation_results "All findings look plausible to me." = []
  /\ length (_collect_high_severity_findings Examples.make_findings) = 3%nat
  /\ map (fun kd => (fst kd, get_findings (snd kd)))
       (fst (run Examples.chatty_provider false))
     = map (fun kd => (fst kd, get_findings (snd kd))) Examples.make_findings
  /\ snd (run Examples.chatty_provider false) = zero_stats
  /\ snd (run Examples.chatty_provider false) !! "confirmed" <> Some 3
  /\ success (Examples.failing_provider "" "" "") = false
  /\ snd (run Examples.failing_provider false) = all_confirmed 3
  /\ snd (run Examples.chatty_provider true) = all_confirmed 3
  /\ all_confirmed 3 !! "confirmed" = Some 3.
Proof.
  cbv zeta. repeat split; try (vm_compute; reflexivity).
  vm_compute. discriminate.
Qed.

(** The two degraded paths of [run_validator], for every input.  When
    the AI call fails the agent-results map is returned untouched, with
    stats that report every worklist item as confirmed ([confirmed] and
    [total] are the size of the worklist, [downgraded] and [rejected]
    are 0).  When the call succeeds and its answer holds no parseable
    adjustment block, every agent keeps its findings list and gets its
    summary recounted from it, and every counter of the stats is 0,
    [confirmed] included. *)
Lemma validator_degraded_paths
    (build_calibration_context : string -> string)
    (validator_instructions : string)
    (provider : string -> string -> string -> CompletionResult)
    (all_findings : AllFindings) (shared_context : string)
    (dry_run : bool) :
  let worklist := _collect_high_severity_findings all_findings in
  let answer :=
    validator_call build_calibration_context validator_instructions
      provider shared_context worklist in
  let run :=
    run_validator build_calibration_context validator_instructions
      provider all_findings shared_context dry_run in
  (success answer = false ->
   run = (all_findings, all_confirmed (Z.of_nat (length worklist)))
   /\ snd run !! "confirmed" = Some (Z.of_nat (length worklist))
   /\ snd run !! "downgraded" = Some 0
   /\ snd run !! "rejected" = Some 0)
  /\ (worklist <> [] -> dry_run = false -> success answer = true ->
      _parse_validation_results (str_or (content answer) "") = [] ->
      fst run = map (fun kd => (fst kd, recounted (snd kd))) all_findings
      /\ Forall2 (fun before after =>
                    fst after = fst before
                    /\ get_findings (snd after) = get_findings (snd before))
           all_findings (fst run)
      /\ snd run = zero_stats).
Proof.
  intros worklist answer run. split.
  - intros Hfail.
    assert (Hrun : run = (all_findings,
                          all_confirmed (Z.of_nat (length worklist)))).
    { subst run. unfold run_validator. fold worklist.
      destruct worklist as [|w ws] eqn:Hw; [reflexivity|].
      destruct dry_run; [reflexivity|].
      fold answer. rewrite Hfail. reflexivity. }
    split; [exact Hrun|]. rewrite Hrun. cbn [snd]. unfold all_confirmed.
    repeat split; simplify_map_eq; reflexivity.
  - intros Hwork Hdry Hok Hnone.
    assert (Hrun : run = (map (fun kd => (fst kd, recounted (snd kd)))
                            all_findings, zero_stats)).
    { subst run. unfold run_validator. fold worklist.
      destruct worklist as [|w ws] eqn:Hw; [contradiction|].
      rewrite Hdry. fold answer. rewrite Hok. cbn [negb].
      rewrite Hnone. unfold _apply_adjustments.
      apply adjust_agents_no_adjustments. }
    rewrite Hrun. cbn [fst snd]. split; [reflexivity|].
    split; [|reflexivity].
    clear. induction all_findings as [|[k d] rest IH]; constructor.
    + split; reflexivity.
    + exact IH.
Qed.

End ValidatorProofs.

(** ** The retry policy *)

Section RetryProofs.
Import Provider Spec.

Variable max_attempts : Z.
Variable retry_delay : Z.
Variable env : Environ.

Lemma any_in_one (marker error_msg : string) :
  any_in [marker] error_msg = Py.contains marker error_msg.
Proof. unfold any_in. cbn. apply orb_false_r. Qed.

Lemma step_failure (attempt : Z) (result : CompletionResult) :
  success result = false ->
  attempt_step max_attempts retry_delay env attempt result
    = let error_msg := str_or (error result) "" in
      if negb (is_retryable error_msg)
         || ((if is_rate_limit error_msg then rate_limit_max max_attempts
              else max_attempts) <=? attempt)
      then Return (sanitized env result)
      else Sleep ((if is_rate_limit error_msg then 30 else retry_delay)
                  * Z.min attempt 3).
Proof.
  intros Hfail. unfold attempt_step, sanitized. rewrite Hfail. reflexivity.
Qed.

Lemma step_client_error (attempt : Z) (result : CompletionResult) :
  success result = false ->
  carries client_error_markers result ->
  attempt_step max_attempts retry_delay env attempt result
    = Return (sanitized env result).
Proof.
  unfold carries, client_error_markers. intros Hfail H4.
  rewrite (step_failure _ _ Hfail). cbv zeta. unfold is_retryable.
  rewrite H4. cbn [negb]. rewrite andb_false_r. reflexivity.
Qed.

Lemma step_rate_limit (attempt : Z) (result : CompletionResult) :
  success result = false ->
  ~ carries client_error_markers result ->
  carries rate_limit_markers result ->
  (attempt < Z.max max_attempts 5 ->
   attempt_step max_attempts retry_delay env attempt result
     = Sleep (30 * Z.min attempt 3))
  /\ (Z.max max_attempts 5 <= attempt ->
      attempt_step max_attempts retry_delay env attempt result
        = Return (sanitized env result)).
Proof.
  unfold carries, client_error_markers, rate_limit_markers.
  intros Hfail H4 H429. rewrite any_in_one in H429.
  apply not_true_is_false in H4.
  rewrite (step_failure _ _ Hfail). cbv zeta.
  unfold is_retryable, is_rate_limit.
  rewrite H429, H4. cbn [orb negb andb]. unfold rate_limit_max. split.
  - intros Hlt. rewrite (proj2 (Z.leb_gt _ _) Hlt). reflexivity.
  - intros Hge. rewrite (proj2 (Z.leb_le _ _) Hge). reflexivity.
Qed.

Lemma step_server_error (attempt : Z) (result : CompletionResult) :
  success result = false ->
  ~ carries client_error_markers result ->
  ~ carries rate_limit_markers result ->
  carries server_error_markers result ->
  (attempt < max_attempts ->
   attempt_step max_attempts retry_delay env attempt result
     = Sleep (retry_delay * Z.min attempt 3))
  /\ (max_attempts <= attempt ->
      attempt_step max_attempts retry_delay env attempt result
        = Return (sanitized env result)).
Proof.
  unfold carries, client_error_markers, rate_limit_markers,
    server_error_markers.
  intros Hfail H4 H429 H5. rewrite any_in_one in H429.
  apply not_true_is_false in H4. apply not_true_is_false in H429.
  rewrite (step_failure _ _ Hfail). cbv zeta.
  unfold is_retryable, is_rate_limit.
  rewrite H429, H4, H5. cbn [orb negb andb]. split.
  - intros Hlt. rewrite (proj2 (Z.leb_gt _ _) Hlt). reflexivity.
  - intros Hge. rewrite (proj2 (Z.leb_le _ _) Hge). reflexivity.
Qed.

(** At the last attempt of the loop every step returns. *)
Lemma step_at_last_attempt (attempt : Z) (result : CompletionResult)
    (wait_time : Z) :
  Z.max max_attempts 5 <= attempt ->
  attempt_step max_attempts retry_delay env attempt result
    <> Sleep wait_time.
Proof.
  intros Hge. unfold attempt_step.
  destruct (success result); [discriminate|].
  set (msg := str_or (error result) "").
  assert (Hmax : ((if is_rate_limit msg then rate_limit_max max_attempts
                   else max_attempts) <=? attempt) = true).
  { apply Z.leb_le. unfold rate_limit_max.
    destruct (is_rate_limit msg); lia. }
  rewrite Hmax, orb_true_r. discriminate.
Qed.

Lemma step_returns_failure (attempt : Z) (result r : CompletionResult) :
  attempt_step max_attempts retry_delay env attempt result = Return r ->
  success r = false ->
  success result = false /\ r = sanitized env result.
Proof.
  destruct (success result) eqn:Hs.
  - unfold attempt_step. rewrite Hs. intros [= <-] Hr. congruence.
  - rewrite (step_failure _ _ Hs). cbv zeta.
    destruct (_ || _); [|discriminate].
    intros [= <-] _. split; reflexivity.
Qed.

Variable complete : Z -> CompletionResult.

(** The loop, from any attempt on: it returns at some attempt [n] no
    later than the last one, after sleeping once for every attempt
    before [n]. *)
Lemma retry_loop_trace (fuel : nat) (attempt : Z)
    (last_result : option CompletionResult) (slept : list Z) :
  Z.of_nat fuel = Z.max max_attempts 5 - attempt + 1 ->
  (0 < fuel)%nat ->
  let run :=
    retry_loop max_attempts retry_delay env complete fuel attempt
      last_result slept in
  attempt <= calls run <= Z.max max_attempts 5
  /\ attempt_step max_attempts retry_delay env (calls run)
       (complete (calls run)) = Return (returned run)
  /\ exists waits,
       sleeps run = slept ++ waits
       /\ Z.of_nat (length waits) = calls run - attempt
       /\ forall i, attempt <= i < calls run ->
            exists wait_time,
              waits !! Z.to_nat (i - attempt) = Some wait_time
              /\ attempt_step max_attempts retry_delay env i (complete i)
                 = Sleep wait_time.
Proof.
  revert attempt last_result slept.
  induction fuel as [|fuel IH]; intros attempt last_result slept Hfuel Hpos;
    [lia|].
  cbn [retry_loop].
  destruct (attempt_step max_attempts retry_delay env attempt
              (complete attempt)) as [r|w] eqn:Hstep; cbn zeta.
  - cbn [calls returned sleeps]. split; [lia|]. split; [exact Hstep|].
    exists []. rewrite app_nil_r. split; [reflexivity|].
    split; [cbn; lia|]. intros i Hi. lia.
  - destruct fuel as [|fuel'].
    { exfalso. apply (step_at_last_attempt attempt (complete attempt) w);
        [lia|exact Hstep]. }
    specialize (IH (attempt + 1) (Some (complete attempt)) (slept ++ [w])).
    destruct IH as (Hcalls & Hret & waits & Hsl & Hlen & Hwaits);
      [lia|lia|].
    split; [lia|]. split; [exact Hret|].
    exists (w :: waits). rewrite Hsl, <- app_assoc. split; [reflexivity|].
    split; [cbn [length]; lia|].
    intros i Hi. destruct (decide (i = attempt)) as [->|Hne].
    + exists w. rewrite Z.sub_diag. split; [reflexivity|exact Hstep].
    + destruct (Hwaits i) as (wt & Hlook & Hs); [lia|].
      exists wt. split; [|exact Hs].
      replace (Z.to_nat (i - attempt)) with (S (Z.to_nat (i - (attempt + 1))))
        by lia.
      exact Hlook.
Qed.


End RetryProofs.

(** ** The scanner: tiers *)

Section TierProofs.
Import Scanner.

Lemma relative_to_under (root rel : Path) :
  relative_to (root ++ rel) root = Some rel.
Proof.
  induction root as [|c root IH]; [reflexivity|].
  cbn [app relative_to]. rewrite bool_decide_eq_true_2 by reflexivity.
  exact IH.
Qed.

Lemma path_name_under (root rel : Path) :
  rel <> [] -> path_name (root ++ rel) = path_name rel.
Proof.
  intros Hrel. unfold path_name. rewrite last_app.
  destruct (last rel) eqn:E; [reflexivity|].
  apply last_None in E. contradiction.
Qed.

(** The tier of a file depends on its path below the project root
    only. *)
Lemma get_file_tier_under (root rel : Path) :
  rel <> [] -> get_file_tier (root ++ rel) root = get_file_tier rel [].
Proof.
  intros Hrel. unfold get_file_tier, path_suffix.
  rewrite relative_to_under, (path_name_under root rel Hrel).
  reflexivity.
Qed.

(** C7.  Under any project root, [get_file_tier] gives: [main.py] at
    the root tier 1, [src/services/x.py] tier 2, [src/models/x.py]
    tier 3, [tests/test_x.py] tier 4, [docs/README.md] tier 5,
    [src/components/App.tsx] tier 6, [data/data.csv] tier 7, [index.js]
    at the root tier 1, [src/components/deep/index.js] a tier other
    than 1 and [src/api/settings.py] a tier other than 1. *)
Theorem scanner_tiering_examples (project_path : Path) :
  let tier := fun rel => get_file_tier (project_path ++ rel) project_path in
  tier ["main.py"] = 1
  /\ tier ["src"; "services"; "x.py"] = 2
  /\ tier ["src"; "models"; "x.py"] = 3
  /\ tier ["tests"; "test_x.py"] = 4
  /\ tier ["docs"; "README.md"] = 5
  /\ tier ["src"; "components"; "App.tsx"] = 6
  /\ tier ["data"; "data.csv"] = 7
  /\ tier ["index.js"] = 1
  /\ tier ["src"; "components"; "deep"; "index.js"] <> 1
  /\ tier ["src"; "api"; "settings.py"] <> 1.
Proof.
  cbv beta zeta. rewrite !get_file_tier_under by discriminate.
  repeat split; try (vm_compute; reflexivity);
    vm_compute; discriminate.
Qed.

End TierProofs.

(** ** The scanner: sorting *)

Section SortProofs.
Import Scanner.

Context {A : Type}.
Variable le : A -> A -> bool.
Hypothesis le_total : forall x y, le x y = true \/ le y x = true.
Hypothesis le_trans :
  forall x y z, le x y = true -> le y z = true -> le x z = true.

Lemma insert_by_Permutation (x : A) (l : list A) :
  insert_by le x l ≡ₚ x :: l.
Proof.
  induction l as [|y l IH]; cbn [insert_by]; [reflexivity|].
  destruct (le x y); [reflexivity|].
  rewrite IH. apply Permutation_swap.
Qed.

Lemma sort_by_Permutation (l : list A) : sort_by le l ≡ₚ l.
Proof.
  induction l as [|x l IH]; cbn [sort_by]; [reflexivity|].
  rewrite insert_by_Permutation, IH. reflexivity.
Qed.

Lemma insert_by_sorted (x : A) (l : list A) :
  StronglySorted (fun a b => le a b = true) l ->
  StronglySorted (fun a b => le a b = true) (insert_by le x l).
Proof.
  induction 1 as [|y l Hsorted IH Hy]; cbn [insert_by].
  - constructor; constructor.
  - destruct (le x y) eqn:E.
    + constructor; [constructor; assumption|].
      constructor; [exact E|].
      eapply Forall_impl; [exact Hy|].
      intros z Hz. exact (le_trans x y z E Hz).
    + constructor; [exact IH|].
      rewrite insert_by_Permutation. constructor; [|exact Hy].
      destruct (le_total x y) as [H|H]; [congruence|exact H].
Qed.

Lemma sort_by_sorted (l : list A) :
  StronglySorted (fun a b => le a b = true) (sort_by le l).
Proof.
  induction l as [|x l IH]; cbn [sort_by]; [constructor|].
  apply insert_by_sorted. exact IH.
Qed.

End SortProofs.

Section OrderProofs.
Import Scanner Spec.

Lemma tier_then_size_order (x y : Tiered) :
  tier_then_size x y = true <-> emission_order x y.
Proof.
  unfold tier_then_size, emission_order.
  rewrite orb_true_iff, andb_true_iff, Z.ltb_lt, Z.eqb_eq, Z.leb_le. lia.
Qed.

Lemma tier_then_size_total (x y : Tiered) :
  tier_then_size x y = true \/ tier_then_size y x = true.
Proof. rewrite !tier_then_size_order. unfold emission_order. lia. Qed.

Lemma tier_then_size_trans (x y z : Tiered) :
  tier_then_size x y = true -> tier_then_size y z = true ->
  tier_then_size x z = true.
Proof. rewrite !tier_then_size_order. unfold emission_order. lia. Qed.

Lemma size_desc_total (x y : Tiered) :
  size_desc x y = true \/ size_desc y x = true.
Proof. unfold size_desc. rewrite !Z.leb_le. lia. Qed.

Lemma size_desc_trans (x y z : Tiered) :
  size_desc x y = true -> size_desc y z = true -> size_desc x z = true.
Proof. unfold size_desc. rewrite !Z.leb_le. lia. Qed.

Lemma sorted_emission_order (l : list Tiered) :
  StronglySorted emission_order (sort_by tier_then_size l).
Proof.
  pose proof (sort_by_sorted tier_then_size tier_then_size_total
                tier_then_size_trans l) as Hs.
  induction Hs as [|x l' Hs IH Hx]; constructor; [exact IH|].
  eapply Forall_impl; [exact Hx|].
  intros y Hy. apply tier_then_size_order. exact Hy.
Qed.

Lemma StronglySorted_sublist {B : Type} (R : B -> B -> Prop) (l k : list B) :
  sublist l k -> StronglySorted R k -> StronglySorted R l.
Proof.
  induction 1 as [|x l k Hsub IH|x l k Hsub IH]; intros Hk.
  - constructor.
  - apply StronglySorted_inv in Hk as [Hk Hx].
    constructor; [exact (IH Hk)|].
    apply Forall_forall. intros y Hy. rewrite Forall_forall in Hx.
    apply Hx. exact (elem_of_sublist _ _ _ Hy Hsub).
  - apply StronglySorted_inv in Hk as [Hk _]. exact (IH Hk).
Qed.

Lemma sum_sizes_app (l k : list Tiered) :
  sum_sizes (l ++ k) = sum_sizes l + sum_sizes k.
Proof.
  unfold sum_sizes. induction l as [|x l IH]; cbn [app foldr]; [lia|].
  rewrite IH. lia.
Qed.

Lemma sum_sizes_Permutation (l k : list Tiered) :
  l ≡ₚ k -> sum_sizes l = sum_sizes k.
Proof.
  unfold sum_sizes. induction 1; cbn [foldr]; lia.
Qed.

End OrderProofs.

(** ** The scanner: the two-pass selection *)

Section SelectionProofs.
Import Scanner Spec.

Variable project_path : Path.
Variable max_files : Z.
Variable max_size_kb : Z.
Variable min_file_bytes : Z.
Variable max_file_kb : Z.

Hypothesis max_files_nonneg : 0 <= max_files.
Hypothesis max_size_nonneg : 0 <= max_size_kb.

Lemma max_bytes_nonneg : 0 <= max_bytes max_size_kb.
Proof. unfold max_bytes. lia. Qed.

Lemma tier_size_cap_nonneg : 0 <= tier_size_cap max_size_kb.
Proof.
  unfold tier_size_cap. apply Z.quot_pos; [|lia].
  pose proof max_bytes_nonneg. lia.
Qed.

Lemma TIER_FILE_CAPS_nonneg (t : Z) : 0 <= TIER_FILE_CAPS t.
Proof. unfold TIER_FILE_CAPS. repeat (destruct (_ =? _)); lia. Qed.

(** One tier's loop of pass 1 appends a part of the group, within the
    tier's caps and the overall budgets. *)
Lemma pass1_group_spec (group : list Tiered) (cap tc ts : Z)
    (sel : list Tiered) (tot : Z) :
  exists added,
    pass1_group max_files max_size_kb group cap tc ts sel tot
      = (sel ++ added, tot + sum_sizes added)
    /\ sublist added group
    /\ (tc <= cap -> tc + Z.of_nat (length added) <= cap)
    /\ (ts <= tier_size_cap max_size_kb ->
        ts + sum_sizes added <= tier_size_cap max_size_kb)
    /\ (Z.of_nat (length sel) <= max_files ->
        Z.of_nat (length (sel ++ added)) <= max_files)
    /\ (tot <= max_bytes max_size_kb ->
        tot + sum_sizes added <= max_bytes max_size_kb).
Proof.
  revert tc ts sel tot.
  induction group as [|[f tier] group IH]; intros tc ts sel tot.
  - exists []. cbn [pass1_group]. rewrite app_nil_r.
    change (sum_sizes []) with 0. rewrite !Z.add_0_r.
    repeat split; try tauto; try (cbn; lia). constructor.
  - cbn [pass1_group].
    assert (Hstop : exists added : list Tiered,
               (sel, tot) = (sel ++ added, tot + sum_sizes added)
               /\ sublist added ((f, tier) :: group)
               /\ (tc <= cap -> tc + Z.of_nat (length added) <= cap)
               /\ (ts <= tier_size_cap max_size_kb ->
                   ts + sum_sizes added <= tier_size_cap max_size_kb)
               /\ (Z.of_nat (length sel) <= max_files ->
                   Z.of_nat (length (sel ++ added)) <= max_files)
               /\ (tot <= max_bytes max_size_kb ->
                   tot + sum_sizes added <= max_bytes max_size_kb)).
    { exists []. rewrite app_nil_r. change (sum_sizes []) with 0.
      rewrite !Z.add_0_r.
      repeat split; try tauto; try (cbn; lia). apply sublist_nil_l. }
    destruct (cap <=? tc) eqn:E1; [exact Hstop|].
    destruct (max_files <=? Z.of_nat (length sel)) eqn:E2; [exact Hstop|].
    clear Hstop. apply Z.leb_gt in E1, E2.
    destruct (max_bytes max_size_kb <? tot + st_size f) eqn:E3.
    { destruct (IH tc ts sel tot) as (added & Heq & Hsub & Hrest).
      exists added. split; [exact Heq|]. split; [|exact Hrest].
      apply sublist_cons. exact Hsub. }
    destruct (tier_size_cap max_size_kb <? ts + st_size f) eqn:E4.
    { destruct (IH tc ts sel tot) as (added & Heq & Hsub & Hrest).
      exists added. split; [exact Heq|]. split; [|exact Hrest].
      apply sublist_cons. exact Hsub. }
    apply Z.ltb_ge in E3, E4.
    destruct (IH (tc + 1) (ts + st_size f) (sel ++ [(f, tier)])
                (tot + st_size f))
      as (added & Heq & Hsub & Hcap & Hsize & Hlen & Htot).
    exists ((f, tier) :: added).
    rewrite Heq, <- app_assoc. cbn [app].
    change (sum_sizes ((f, tier) :: added))
      with (st_size f + sum_sizes added).
    rewrite !length_app in Hlen. rewrite !length_app.
    cbn [length] in Hlen |- *.
    split; [f_equal; lia|]. split; [apply sublist_skip; exact Hsub|].
    repeat split; intros; lia.
Qed.

(** Once the file budget is used up, a tier's loop selects nothing. *)
Lemma pass1_group_full (group : list Tiered) (cap tc ts : Z)
    (sel : list Tiered) (tot : Z) :
  max_files <= Z.of_nat (length sel) ->
  pass1_group max_files max_size_kb group cap tc ts sel tot = (sel, tot).
Proof.
  intros Hfull. destruct group as [|[f tier] group]; [reflexivity|].
  cbn [pass1_group]. destruct (cap <=? tc); [reflexivity|].
  rewrite (proj2 (Z.leb_le _ _) Hfull). reflexivity.
Qed.

(** Once the byte budget is used up, a tier's loop selects no file of
    positive size. *)
Lemma pass1_group_spent (group : list Tiered) (cap tc ts : Z)
    (sel : list Tiered) (tot : Z) :
  max_bytes max_size_kb <= tot ->
  Forall (fun x => 0 < size_of x) group ->
  pass1_group max_files max_size_kb group cap tc ts sel tot = (sel, tot).
Proof.
  intros Hspent Hpos.
  induction Hpos as [|[f tier] group Hf _ IH]; [reflexivity|].
  cbn [pass1_group]. destruct (cap <=? tc); [reflexivity|].
  destruct (max_files <=? Z.of_nat (length sel)); [reflexivity|].
  unfold size_of in Hf. cbn [fst] in Hf.
  rewrite (proj2 (Z.ltb_lt _ _)) by lia. exact IH.
Qed.

Lemma tier_group_Permutation (tiered : list Tiered) (t : Z) :
  tier_group tiered t ≡ₚ in_tier t tiered.
Proof. unfold tier_group, in_tier. apply sort_by_Permutation. Qed.

Lemma tier_group_tier (tiered : list Tiered) (t : Z) :
  Forall (fun x => tier_of x = t) (tier_group tiered t).
Proof.
  rewrite tier_group_Permutation. unfold in_tier.
  apply Forall_forall. intros x Hx.
  apply list_elem_of_filter in Hx as [Hx _]. exact Hx.
Qed.

Lemma in_tier_same (l : list Tiered) (t : Z) :
  Forall (fun x => tier_of x = t) l -> in_tier t l = l.
Proof.
  unfold in_tier. induction 1 as [|x l Hx _ IH]; [reflexivity|].
  rewrite filter_cons, IH. destruct (decide (tier_of x = t)); tauto.
Qed.

Lemma in_tier_other (l : list Tiered) (t : Z) :
  Forall (fun x => tier_of x <> t) l -> in_tier t l = [].
Proof.
  unfold in_tier. induction 1 as [|x l Hx _ IH]; [reflexivity|].
  rewrite filter_cons, IH. destruct (decide (tier_of x = t)); tauto.
Qed.

Lemma same_tier_sorted (l : list Tiered) (t : Z) :
  Forall (fun x => tier_of x = t) l -> StronglySorted tier_order l.
Proof.
  induction 1 as [|x l Hx Hl IH]; constructor; [exact IH|].
  eapply Forall_impl; [exact Hl|]. intros y Hy. unfold tier_order. cbn beta in *. lia.
Qed.

(** The walk of pass 1 through ascending tiers keeps the selection
    within every cap and budget, and in tier order. *)
Lemma pass1_tiers_spec (tiers : list Z) (tiered sel : list Tiered) (tot : Z) :
  StronglySorted Z.lt tiers ->
  Forall (fun x => Forall (fun t => tier_of x < t) tiers) sel ->
  tot = sum_sizes sel ->
  Z.of_nat (length sel) <= max_files ->
  tot <= max_bytes max_size_kb ->
  within_tier_caps (tier_size_cap max_size_kb) sel ->
  StronglySorted tier_order sel ->
  let r := pass1_tiers max_files max_size_kb tiers tiered sel tot in
  snd r = sum_sizes (fst r)
  /\ Z.of_nat (length (fst r)) <= max_files
  /\ snd r <= max_bytes max_size_kb
  /\ within_tier_caps (tier_size_cap max_size_kb) (fst r)
  /\ StronglySorted tier_order (fst r).
Proof.
  revert sel tot.
  induction tiers as [|t tiers IH];
    intros sel tot Hasc Hbelow Htot Hlen Hbytes Hcaps Hsorted.
  - cbn. tauto.
  - cbn [pass1_tiers].
    destruct (pass1_group_spec (tier_group tiered t) (TIER_FILE_CAPS t)
                0 0 sel tot)
      as (added & Heq & Hsub & Hcap & Hsize & Hlen' & Htot').
    rewrite Heq.
    apply StronglySorted_inv in Hasc as [Hasc Ht].
    assert (Hadded : Forall (fun x => tier_of x = t) added).
    { apply Forall_forall. intros x Hx.
      pose proof (tier_group_tier tiered t) as Hg.
      rewrite Forall_forall in Hg. apply Hg.
      exact (elem_of_sublist _ _ _ Hx Hsub). }
    assert (Hsel : Forall (fun x => tier_of x < t) sel).
    { eapply Forall_impl; [exact Hbelow|].
      intros x Hx. apply Forall_cons in Hx as [Hx _]. exact Hx. }
    apply IH.
    + exact Hasc.
    + apply Forall_app. split.
      * eapply Forall_impl; [exact Hbelow|].
        intros x Hx. apply Forall_cons in Hx as [_ Hx]. exact Hx.
      * eapply Forall_impl; [exact Hadded|].
        intros x Hx. eapply Forall_impl; [exact Ht|].
        intros t' Ht'. cbn beta in *. lia.
    + rewrite sum_sizes_app. lia.
    + apply Hlen'. exact Hlen.
    + apply Htot'. exact Hbytes.
    + intros t0. unfold in_tier. rewrite filter_app. fold (in_tier t0 sel).
      fold (in_tier t0 added). destruct (decide (t0 = t)) as [->|Hne].
      * rewrite (in_tier_other sel t), (in_tier_same added t Hadded).
        -- cbn [app]. pose proof (TIER_FILE_CAPS_nonneg t).
           pose proof tier_size_cap_nonneg. lia.
        -- eapply Forall_impl; [exact Hsel|]. intros x Hx. cbn beta in *. lia.
      * rewrite (in_tier_other added t0), app_nil_r; [apply Hcaps|].
        eapply Forall_impl; [exact Hadded|]. intros x Hx. cbn beta in *. lia.
    + apply StronglySorted_app. split; [|split].
      * intros x1 x2 Hx1 Hx2. rewrite Forall_forall in Hsel, Hadded.
        specialize (Hsel x1 Hx1). specialize (Hadded x2 Hx2).
        unfold tier_order. cbn beta in *. lia.
      * exact Hsorted.
      * exact (same_tier_sorted added t Hadded).
Qed.

Lemma tier_range_ascending : StronglySorted Z.lt tier_range.
Proof.
  unfold tier_range.
  repeat (constructor; [|repeat (constructor; [lia|]); constructor]).
  constructor.
Qed.

Lemma pass1_spec (tiered : list Tiered) :
  let r := pass1 max_files max_size_kb tiered in
  snd r = sum_sizes (fst r)
  /\ Z.of_nat (length (fst r)) <= max_files
  /\ snd r <= max_bytes max_size_kb
  /\ within_tier_caps (tier_size_cap max_size_kb) (fst r)
  /\ StronglySorted tier_order (fst r).
Proof.
  unfold pass1. apply pass1_tiers_spec.
  - exact tier_range_ascending.
  - constructor.
  - reflexivity.
  - cbn. exact max_files_nonneg.
  - exact max_bytes_nonneg.
  - intros t. cbn. pose proof (TIER_FILE_CAPS_nonneg t).
    pose proof tier_size_cap_nonneg. lia.
  - constructor.
Qed.

Lemma pass1_tiers_full (tiers : list Z) (tiered sel : list Tiered) (tot : Z) :
  max_files <= Z.of_nat (length sel) ->
  pass1_tiers max_files max_size_kb tiers tiered sel tot = (sel, tot).
Proof.
  intros Hfull. induction tiers as [|t tiers IH]; [reflexivity|].
  cbn [pass1_tiers]. rewrite pass1_group_full by exact Hfull. exact IH.
Qed.

Lemma pass1_tiers_spent (tiers : list Z) (tiered sel : list Tiered) (tot : Z) :
  max_bytes max_size_kb <= tot ->
  Forall (fun x => 0 < size_of x) tiered ->
  pass1_tiers max_files max_size_kb tiers tiered sel tot = (sel, tot).
Proof.
  intros Hspent Hpos. induction tiers as [|t tiers IH]; [reflexivity|].
  cbn [pass1_tiers]. rewrite pass1_group_spent; [exact IH|exact Hspent|].
  rewrite tier_group_Permutation. unfold in_tier.
  apply Forall_forall. intros x Hx.
  apply list_elem_of_filter in Hx as [_ Hx].
  rewrite Forall_forall in Hpos. exact (Hpos x Hx).
Qed.

Lemma pass2_loop_spec (remaining sel : list Tiered) (tot : Z) :
  exists added,
    pass2_loop max_files max_size_kb remaining sel tot
      = (sel ++ added, tot + sum_sizes added)
    /\ (Z.of_nat (length sel) <= max_files ->
        Z.of_nat (length (sel ++ added)) <= max_files)
    /\ (tot <= max_bytes max_size_kb ->
        tot + sum_sizes added <= max_bytes max_size_kb).
Proof.
  revert sel tot.
  induction remaining as [|[f tier] remaining IH]; intros sel tot.
  - exists []. cbn [pass2_loop]. rewrite app_nil_r.
    change (sum_sizes []) with 0. rewrite !Z.add_0_r. tauto.
  - cbn [pass2_loop].
    destruct (max_files <=? Z.of_nat (length sel)) eqn:E1.
    { exists []. rewrite app_nil_r. change (sum_sizes []) with 0.
      rewrite !Z.add_0_r. tauto. }
    destruct (max_bytes max_size_kb <? tot + st_size f) eqn:E2;
      [apply IH|].
    apply Z.leb_gt in E1. apply Z.ltb_ge in E2.
    destruct (IH (sel ++ [(f, tier)]) (tot + st_size f))
      as (added & Heq & Hlen & Htot).
    exists ((f, tier) :: added). rewrite Heq, <- app_assoc. cbn [app].
    change (sum_sizes ((f, tier) :: added))
      with (st_size f + sum_sizes added).
    rewrite !length_app in Hlen. rewrite !length_app.
    cbn [length] in Hlen |- *.
    split; [f_equal; lia|]. split; intros; lia.
Qed.

(** The selection after both passes and the final sort is within the
    overall budgets and in emission order. *)
Lemma select_spec (tiered : list Tiered) :
  Z.of_nat (length (select max_files max_size_kb tiered)) <= max_files
  /\ sum_sizes (select max_files max_size_kb tiered)
     <= max_bytes max_size_kb
  /\ StronglySorted emission_order (select max_files max_size_kb tiered).
Proof.
  unfold select.
  pose proof (pass1_spec tiered) as (Htot & Hlen & Hbytes & _).
  destruct (pass1 max_files max_size_kb tiered) as [sel tot].
  cbn [fst snd] in Htot, Hlen, Hbytes.
  assert (H2 : exists sel2 tot2,
             pass2 max_files max_size_kb tiered sel tot = (sel2, tot2)
             /\ tot2 = sum_sizes sel2
             /\ Z.of_nat (length sel2) <= max_files
             /\ tot2 <= max_bytes max_size_kb).
  { unfold pass2. destruct (_ && _).
    - match goal with
      | |- context [pass2_loop _ _ ?rem sel tot] =>
          destruct (pass2_loop_spec rem sel tot) as (added & Heq & Hl & Hb)
      end.
      rewrite Heq. eexists _, _. split; [reflexivity|].
      rewrite sum_sizes_app. split; [lia|]. split; [auto|auto].
    - eexists _, _. split; [reflexivity|]. auto. }
  destruct H2 as (sel2 & tot2 & -> & Htot2 & Hlen2 & Hbytes2).
  pose proof (sort_by_Permutation tier_then_size sel2) as Hperm.
  rewrite (Permutation_length Hperm), (sum_sizes_Permutation _ _ Hperm).
  split; [exact Hlen2|]. split; [lia|]. apply sorted_emission_order.
Qed.

(** The emission loop appends a part of the selection, within the
    overall budgets. *)
Lemma emit_loop_spec (selected emitted_ : list Tiered) (fc asz : Z) :
  exists added,
    emit_loop max_files max_size_kb selected emitted_ fc asz
      = (emitted_ ++ added, fc + Z.of_nat (length added),
         asz + sum_sizes added)
    /\ sublist added selected
    /\ (fc <= max_files -> fc + Z.of_nat (length added) <= max_files)
    /\ (asz <= max_bytes max_size_kb ->
        asz + sum_sizes added <= max_bytes max_size_kb).
Proof.
  revert emitted_ fc asz.
  induction selected as [|[f tier] selected IH]; intros emitted_ fc asz.
  - exists []. cbn [emit_loop length]. rewrite app_nil_r.
    change (sum_sizes []) with 0. rewrite !Z.add_0_r.
    split; [reflexivity|]. split; [constructor|tauto].
  - cbn [emit_loop].
    assert (Hskip : forall r,
               (exists added,
                  r = (emitted_ ++ added, fc + Z.of_nat (length added),
                       asz + sum_sizes added)
                  /\ sublist added selected
                  /\ (fc <= max_files ->
                      fc + Z.of_nat (length added) <= max_files)
                  /\ (asz <= max_bytes max_size_kb ->
                      asz + sum_sizes added <= max_bytes max_size_kb)) ->
               exists added,
                 r = (emitted_ ++ added, fc + Z.of_nat (length added),
                      asz + sum_sizes added)
                 /\ sublist added ((f, tier) :: selected)
                 /\ (fc <= max_files ->
                     fc + Z.of_nat (length added) <= max_files)
                 /\ (asz <= max_bytes max_size_kb ->
                     asz + sum_sizes added <= max_bytes max_size_kb)).
    { intros r (added & Heq & Hsub & Hrest). exists added.
      split; [exact Heq|]. split; [apply sublist_cons; exact Hsub|].
      exact Hrest. }
    destruct (max_files <=? fc) eqn:E1.
    { exists []. cbn [length]. rewrite app_nil_r.
      change (sum_sizes []) with 0. rewrite !Z.add_0_r.
      split; [reflexivity|]. split; [apply sublist_nil_l|tauto]. }
    destruct (max_bytes max_size_kb <? asz + st_size f) eqn:E2;
      [apply Hskip, IH|].
    destruct (text f) as [content_|]; [|apply Hskip, IH].
    destruct (negb (Py.truthy (Py.strip content_))); [apply Hskip, IH|].
    apply Z.leb_gt in E1. apply Z.ltb_ge in E2.
    destruct (IH (emitted_ ++ [(f, tier)]) (fc + 1) (asz + st_size f))
      as (added & Heq & Hsub & Hlen & Htot).
    exists ((f, tier) :: added). rewrite Heq, <- app_assoc. cbn [app length].
    change (sum_sizes ((f, tier) :: added))
      with (st_size f + sum_sizes added).
    split; [f_equal; [f_equal|]; lia|].
    split; [apply sublist_skip; exact Hsub|]. split; intros; lia.
Qed.

Lemma classify_sizes_positive (files : list File) :
  0 < min_file_bytes ->
  Forall (fun x => 0 < size_of x)
    (classify project_path (sized_files min_file_bytes max_file_kb files)).
Proof.
  intros Hmin. unfold classify, sized_files.
  apply Forall_forall. intros x Hx.
  apply list_elem_of_In, in_map_iff in Hx as (f & <- & Hf).
  apply list_elem_of_In, list_elem_of_filter in Hf as [Hf _].
  unfold size_of. cbn [fst]. lia.
Qed.

(** C8.  For every list of files found by the walk, with a file budget
    and a byte budget that are not negative: the scan emits at most
    [max_files] files whose sizes sum to at most [max_size_kb] * 1024
    bytes, and so does the selection its two passes make; the emitted
    files are a part of that selection, in the order tier ascending,
    then size descending.  Pass 1 walks the tiers upwards, keeps in each
    tier within the tier's file-count cap and within a byte cap of three
    tenths of the byte budget, keeps overall within both budgets, and
    selects nothing more once [max_files] files are selected or, files
    being of positive size, once the byte budget is used up. *)
Theorem selection_within_budgets (show_kb : Z -> string)
    (walked : list File) :
  let result :=
    get_source_files_content project_path max_files max_size_kb
      min_file_bytes max_file_kb show_kb walked in
  let tiered :=
    classify project_path
      (sized_files min_file_bytes max_file_kb
         (filter (fun f => _should_include_file (path f)) walked)) in
  let selected := select max_files max_size_kb tiered in
  let first_pass := pass1 max_files max_size_kb tiered in
  let byte_cap := tier_size_cap max_size_kb in
  (file_count result = Z.of_nat (length (emitted result))
   /\ actual_size result = sum_sizes (emitted result)
   /\ file_count result <= max_files
   /\ actual_size result <= max_size_kb * 1024
   /\ sublist (emitted result) selected
   /\ StronglySorted emission_order (emitted result))
  /\ (Z.of_nat (length selected) <= max_files
      /\ sum_sizes selected <= max_size_kb * 1024)
  /\ (10 * byte_cap <= 3 * (max_size_kb * 1024) < 10 * byte_cap + 10
      /\ within_tier_caps byte_cap (fst first_pass)
      /\ StronglySorted tier_order (fst first_pass)
      /\ Z.of_nat (length (fst first_pass)) <= max_files
      /\ snd first_pass = sum_sizes (fst first_pass)
      /\ snd first_pass <= max_size_kb * 1024)
  /\ (forall tiers sel tot,
        max_files <= Z.of_nat (length sel) ->
        pass1_tiers max_files max_size_kb tiers tiered sel tot = (sel, tot))
  /\ (0 < min_file_bytes ->
      forall tiers sel tot,
        max_size_kb * 1024 <= tot ->
        pass1_tiers max_files max_size_kb tiers tiered sel tot = (sel, tot)).
Proof.
  intros result tiered selected first_pass byte_cap.
  pose proof (select_spec tiered) as (Hsel_len & Hsel_sum & Hsel_sorted).
  pose proof (pass1_spec tiered) as (Htot & Hlen & Hbytes & Hcaps & Hwalk).
  fold first_pass in Htot, Hlen, Hbytes, Hcaps, Hwalk.
  fold selected in Hsel_len, Hsel_sum, Hsel_sorted.
  unfold max_bytes in *.
  split; [|split; [|split; [|split]]].
  - destruct (emit_loop_spec selected [] 0 0)
      as (added & Heq & Hsub & Hcount & Hsize).
    specialize (Hcount max_files_nonneg).
    specialize (Hsize ltac:(unfold max_bytes; lia)).
    unfold max_bytes in Hsize. cbn [app] in Heq.
    assert (Hres : emitted result = added
                   /\ file_count result = Z.of_nat (length added)
                   /\ actual_size result = sum_sizes added).
    { subst result. unfold get_source_files_content.
      fold tiered. fold selected. rewrite Heq.
      destruct (0 + Z.of_nat (length added) =? 0) eqn:E;
        cbn [emitted file_count actual_size].
      - apply Z.eqb_eq in E. destruct added; [|cbn in E; lia].
        repeat split.
      - repeat split; lia. }
    destruct Hres as (-> & -> & ->).
    split; [reflexivity|]. split; [reflexivity|].
    split; [lia|]. split; [lia|]. split; [exact Hsub|].
    exact (StronglySorted_sublist _ _ _ Hsub Hsel_sorted).
  - split; [exact Hsel_len|exact Hsel_sum].
  - split.
    { subst byte_cap. unfold tier_size_cap, max_bytes.
      rewrite Z.quot_div_nonneg by lia.
      pose proof (Z.div_mod (max_size_kb * 1024 * 3) 10 ltac:(lia)).
      pose proof (Z.mod_pos_bound (max_size_kb * 1024 * 3) 10 ltac:(lia)).
      lia. }
    split; [exact Hcaps|]. split; [exact Hwalk|].
    split; [exact Hlen|]. split; [exact Htot|exact Hbytes].
  - intros tiers sel tot Hfull. apply pass1_tiers_full. exact Hfull.
  - intros Hmin tiers sel tot Hspent. apply pass1_tiers_spent.
    + unfold max_bytes. exact Hspent.
    + apply classify_sizes_positive. exact Hmin.
Qed.

End SelectionProofs.

(** ** Runs on the sample inputs *)

Section Runs.
Import Spec.

(** The parser on the fenced sample: the heading inside the fence is
    skipped, the one outside is parsed with its fields. *)
Example parse_fenced_markdown :
  findings (Findings.parse_findings_markdown Examples.fenced_markdown)
  = Some [ {| fid := "REAL-001";
              title := "Actual Finding";
              severity := "HIGH";
              file := Some "src/app.py";
              line := Some 1;
              effort := None;
              issue := Some "Real issue here.";
              evidence := None;
              recommendation :=
                Some ("Fix it." +:+ LF +:+ LF
                        +:+ "COMPLETE: 0 BLOCKER, 1 HIGH, 0 MEDIUM, 0 LOW");
              original_severity := None;
              validated := None;
              validation_reason := None |} ]
  /\ Findings._get_code_block_ranges Examples.fenced_markdown
     = [(10%nat, 87%nat)]
  /\ map Re.m_start (Re.finditer Findings.heading_re Examples.fenced_markdown)
     = [22%nat; 89%nat].
Proof. repeat split; vm_compute; reflexivity. Qed.

(** The heading matches are the non-overlapping matches of the scan: on
    the inline fence there is one, from offset 4 inside the fence to the
    end of the line, and it is skipped. *)
Example parse_inline_fence :
  Findings._get_code_block_ranges Examples.inline_fence = [(0%nat, 20%nat)]
  /\ map (fun m => (Re.m_start m, Re.m_end m,
                    Re.group Examples.inline_fence m 2))
       (Re.finditer Findings.heading_re Examples.inline_fence)
     = [(4%nat, 39%nat, Some "foo ``` ### B-2: bar")]
  /\ findings (Findings.parse_findings_markdown Examples.inline_fence)
     = Some [].
Proof. repeat split; vm_compute; reflexivity. Qed.

(** The validator on the test findings: GUARDIAN-002 downgraded to LOW,
    GUARDIAN-003 rejected. *)
Example apply_test_adjustments :
  let result :=
    Validator._apply_adjustments Examples.make_findings
      [Examples.downgrade_g2; Examples.reject_g3] in
  map (fun kd => map (fun f => (fid f, severity f, original_severity f))
                   (get_findings (snd kd)))
    (fst result)
  = [[("GUARDIAN-001", "BLOCKER", None);
      ("GUARDIAN-002", "LOW", Some "BLOCKER")]]
  /\ map (fun kd => summary (snd kd)) (fst result)
     = [Some {[ "blockers" := 1; "high" := 0; "medium" := 0; "low" := 1;
                "total" := 2 ]}]
  /\ snd result
     = {[ "confirmed" := 0; "downgraded" := 1; "rejected" := 1;
          "total" := 2 ]}.
Proof. cbv zeta. repeat split; vm_compute; reflexivity. Qed.

(** Witness of C2: the parser on the fenced sample, and the validator
    rejecting GUARDIAN-003 of the test findings. *)
Lemma summaries_on_test_findings :
  agent_consistent
    (Findings.parse_findings_markdown Examples.fenced_markdown)
  /\ Forall (fun kd => agent_consistent (snd kd))
       (fst (Validator._apply_adjustments Examples.make_findings
               [Examples.reject_g3])).
Proof.
  destruct summaries_count_findings as (Hparse & _ & Hvalid & _).
  split; [apply Hparse|]. apply Hvalid.
  - repeat constructor.
  - repeat constructor.
Defined.

(** The retry loop on the sample providers. *)
Example retry_runs :
  Provider.complete_with_retry 3 0 Examples.ann Examples.flaky_complete
  = {| Provider.returned := Examples.flaky_complete 3;
       Provider.calls := 3;
       Provider.sleeps := [0; 0] |}
  /\ Provider.complete_with_retry 3 5 Examples.ann Examples.limited_complete
     = {| Provider.returned :=
            Examples.failure
              "429 Too Many Requests; Authorization: [REDACTED] [REDACTED] in [USER_HOME]/.cfg";
          Provider.calls := 5;
          Provider.sleeps := [30; 60; 90; 90] |}
  /\ Provider.complete_with_retry 3 5 Examples.ann Examples.refused_complete
     = {| Provider.returned :=
            Examples.failure "401 Unauthorized (retry after 429)";
          Provider.calls := 1;
          Provider.sleeps := [] |}.
Proof. repeat split; vm_compute; reflexivity. Qed.

(** Witness of C8: the scan of the sample project.  Pass 1 takes the
    test and the document (the two larger files exceed the per-tier byte
    cap of 307 bytes), pass 2 adds the service file, and the emission is
    in tier order. *)
Lemma project_scan_within_budgets :
  Scanner.file_count Examples.project_scan <= 3
  /\ Scanner.actual_size Examples.project_scan <= 1 * 1024
  /\ map (fun x => (Scanner.path (fst x), snd x))
       (Scanner.emitted Examples.project_scan)
     = [(["proj"; "src"; "services"; "a.py"], 2);
        (["proj"; "tests"; "test_a.py"], 4);
        (["proj"; "docs"; "README.md"], 5)].
Proof.
  destruct (selection_within_budgets Examples.project 3 1 50 50
              ltac:(lia) ltac:(lia) Examples.show_tenths
              Examples.project_files)
    as ((_ & _ & Hcount & Hsize & _) & _).
  split; [exact Hcount|]. split; [exact Hsize|].
  vm_compute. reflexivity.
Defined.

End Runs.

(** * Further properties *)

Section StatsProofs.
Import Validator Spec Decisions.

Lemma get0_incr (k key : string) (d : gmap string Z) :
  get0 (incr k d) key = get0 d key + (if bool_decide (k = key) then 1 else 0).
Proof.
  unfold incr, get0. case_bool_decide as Hk.
  - subst key. rewrite lookup_insert_eq. cbn. reflexivity.
  - rewrite lookup_insert_ne by exact Hk. lia.
Qed.

Lemma incr_is_Some (k key : string) (d : gmap string Z) :
  is_Some (d !! key) -> is_Some (incr k d !! key).
Proof.
  intros H. unfold incr. destruct (decide (k = key)) as [->|Hne].
  - rewrite lookup_insert_eq. eauto.
  - rewrite lookup_insert_ne by exact Hne. exact H.
Qed.

Lemma decided_cons (adjustments : list Adjustment) (key : string)
    (f : Finding) (fs : list Finding) :
  decided adjustments key (f :: fs)
  = (if bool_decide (decision_for adjustments f = Some key) then 1 else 0)
    + decided adjustments key fs.
Proof.
  unfold decided. rewrite filter_cons.
  case_bool_decide as Hd; destruct (decide (decision_for adjustments f = Some key));
    try contradiction; cbn [length]; lia.
Qed.

Lemma decided_app (adjustments : list Adjustment) (key : string)
    (fs gs : list Finding) :
  decided adjustments key (fs ++ gs)
  = decided adjustments key fs + decided adjustments key gs.
Proof.
  unfold decided. rewrite filter_app, length_app. lia.
Qed.

Lemma adjust_list_stats (adjustments : list Adjustment) (fs : list Finding)
    (stats : gmap string Z) (key : string) :
  get0 (snd (adjust_list (adjustment_map adjustments) fs stats)) key
  = get0 stats key + decided adjustments key fs.
Proof.
  revert stats. induction fs as [|f fs IH]; intros stats.
  - cbn. unfold decided. cbn. lia.
  - cbn [adjust_list]. rewrite decided_cons. unfold decision_for.
    rewrite adjustment_map_matching.
    destruct (matching adjustments (fid f)) as [adj|] eqn:Hm; cbn [fmap option_fmap option_map].
    + case_bool_decide as Hrej.
      * cbv zeta. rewrite IH, get0_incr.
        repeat case_bool_decide; try congruence; lia.
      * cbv zeta.
        destruct (adjust_list (adjustment_map adjustments) fs
                    (incr (decision adj) stats)) as [l s] eqn:E.
        cbn [snd]. replace s with (snd (adjust_list (adjustment_map adjustments) fs
                    (incr (decision adj) stats))) by (rewrite E; reflexivity).
        rewrite IH, get0_incr.
        repeat case_bool_decide; try congruence; lia.
    + destruct (adjust_list (adjustment_map adjustments) fs stats) as [l s] eqn:E.
      cbn [snd]. replace s with (snd (adjust_list (adjustment_map adjustments) fs stats))
        by (rewrite E; reflexivity).
      rewrite IH. case_bool_decide; try congruence; lia.
Qed.

Lemma adjust_list_is_Some (amap : gmap string Adjustment) (fs : list Finding)
    (stats : gmap string Z) (key : string) :
  is_Some (stats !! key) ->
  is_Some (snd (adjust_list amap fs stats) !! key).
Proof.
  revert stats. induction fs as [|f fs IH]; intros stats Hs; [exact Hs|].
  cbn [adjust_list].
  destruct (amap !! fid f) as [adj|].
  - case_bool_decide.
    + cbv zeta. apply IH, incr_is_Some, Hs.
    + cbv zeta.
      destruct (adjust_list amap fs (incr (decision adj) stats)) as [l s] eqn:E.
      cbn [snd]. replace s with (snd (adjust_list amap fs (incr (decision adj) stats)))
        by (rewrite E; reflexivity).
      apply IH, incr_is_Some, Hs.
  - destruct (adjust_list amap fs stats) as [l s] eqn:E.
    cbn [snd]. replace s with (snd (adjust_list amap fs stats))
      by (rewrite E; reflexivity).
    apply IH, Hs.
Qed.

Lemma adjust_agents_stats (adjustments : list Adjustment)
    (all_findings : AllFindings) (stats : gmap string Z) (key : string) :
  get0 (snd (adjust_agents (adjustment_map adjustments) all_findings stats)) key
  = get0 stats key + decided adjustments key (all_of all_findings).
Proof.
  revert stats. induction all_findings as [|[k d] rest IH]; intros stats.
  - cbn. unfold decided. cbn. lia.
  - cbn [adjust_agents].
    pose proof (adjust_list_stats adjustments (get_findings d) stats key) as Hl.
    destruct (adjust_list (adjustment_map adjustments) (get_findings d) stats)
      as [l s] eqn:E.
    cbn [snd] in Hl.
    specialize (IH s).
    destruct (adjust_agents (adjustment_map adjustments) rest s) as [r s'] eqn:E'.
    cbn [snd] in *. rewrite IH, Hl.
    unfold all_of. cbn [flat_map snd]. rewrite decided_app.
    unfold all_of. lia.
Qed.

Lemma adjust_agents_is_Some (amap : gmap string Adjustment)
    (all_findings : AllFindings) (stats : gmap string Z) (key : string) :
  is_Some (stats !! key) ->
  is_Some (snd (adjust_agents amap all_findings stats) !! key).
Proof.
  revert stats. induction all_findings as [|[k d] rest IH]; intros stats Hs;
    [exact Hs|].
  cbn [adjust_agents].
  pose proof (adjust_list_is_Some amap (get_findings d) stats key Hs) as Hl.
  destruct (adjust_list amap (get_findings d) stats) as [l s] eqn:E.
  cbn [snd] in Hl. specialize (IH s Hl).
  destruct (adjust_agents amap rest s) as [r s'] eqn:E'.
  exact IH.
Qed.

End StatsProofs.

Section StatsCountProofs.
Import Validator Spec Decisions.

Lemma parsed_decisions (raw : string) :
  Forall (fun a => decision a ∈ ["confirmed"; "downgraded"; "rejected"])
    (_parse_validation_results raw).
Proof.
  unfold _parse_validation_results. apply Forall_forall. intros a Ha.
  apply list_elem_of_In, in_map_iff in Ha as (m & <- & _).
  unfold adjustment_of_match. cbn [decision].
  repeat case_bool_decide; set_solver.
Qed.

Lemma decision_for_elem_of (adjustments : list Adjustment) (f : Finding)
    (key : string) :
  decision_for adjustments f = Some key ->
  exists adj, adj ∈ adjustments /\ decision adj = key.
Proof.
  unfold decision_for. intros H.
  destruct (matching adjustments (fid f)) as [adj|] eqn:Hm; [|discriminate].
  cbn in H. inversion H; subst key.
  apply matching_elem_of in Hm as [Hin _]. eauto.
Qed.

Lemma decided_none (adjustments : list Adjustment) (key : string)
    (fs : list Finding) :
  (forall adj, adj ∈ adjustments -> decision adj <> key) ->
  decided adjustments key fs = 0.
Proof.
  intros Hno. induction fs as [|f fs IH]; [reflexivity|].
  rewrite decided_cons, IH. case_bool_decide as Hd; [|reflexivity].
  apply decision_for_elem_of in Hd as (adj & Hin & Hk).
  exfalso. exact (Hno adj Hin Hk).
Qed.

Lemma decided_three (adjustments : list Adjustment) (fs : list Finding) :
  Forall (fun a => decision a ∈ ["confirmed"; "downgraded"; "rejected"])
    adjustments ->
  decided adjustments "confirmed" fs + decided adjustments "downgraded" fs
    + decided adjustments "rejected" fs
  = Z.of_nat (length (filter (fun f => is_Some (matching adjustments (fid f))) fs)).
Proof.
  intros Hthree. induction fs as [|f fs IH]; [reflexivity|].
  rewrite !decided_cons, filter_cons.
  destruct (decide (is_Some (matching adjustments (fid f)))) as [Hs|Hn].
  - cbn [length]. destruct Hs as [adj Hadj].
    unfold decision_for. rewrite Hadj. cbn [fmap option_fmap option_map].
    apply matching_elem_of in Hadj as [Hin _].
    rewrite Forall_forall in Hthree. specialize (Hthree adj Hin).
    repeat (apply elem_of_cons in Hthree as [->|Hthree]);
      [| | |inversion Hthree];
      repeat case_bool_decide; try congruence; lia.
  - unfold decision_for.
    destruct (matching adjustments (fid f)); [exfalso; apply Hn; eauto|].
    cbn [fmap option_fmap option_map].
    repeat case_bool_decide; try congruence; lia.
Qed.

Lemma all_of_adjust_all (adjustments : list Adjustment)
    (all_findings : AllFindings) :
  all_of (adjust_all adjustments all_findings)
  = omap (adjust_one adjustments) (all_of all_findings).
Proof.
  unfold all_of, adjust_all.
  induction all_findings as [|[k d] rest IH]; [reflexivity|].
  cbn [map flat_map fst snd]. rewrite IH.
  unfold adjust_agent at 1. unfold get_findings at 1. cbn [findings default].
  unfold id. rewrite omap_app. reflexivity.
Qed.

Lemma rejected_by_decision_for (adjustments : list Adjustment) (f : Finding) :
  rejected_by adjustments f <-> decision_for adjustments f = Some "rejected".
Proof.
  unfold rejected_by, decision_for. split.
  - intros (adj & -> & Hd). cbn. rewrite Hd. reflexivity.
  - intros H. destruct (matching adjustments (fid f)) as [adj|]; [|discriminate].
    cbn in H. inversion H. eauto.
Qed.

Lemma decided_rejected (adjustments : list Adjustment) (fs : list Finding) :
  decided adjustments "rejected" fs
  = Z.of_nat (length (filter (rejected_by adjustments) fs)).
Proof.
  induction fs as [|f fs IH]; [reflexivity|].
  rewrite decided_cons, filter_cons, IH.
  pose proof (rejected_by_decision_for adjustments f) as Hiff.
  case_bool_decide as Hd; destruct (decide (rejected_by adjustments f)) as [Hr|Hr];
    cbn [length]; try lia; tauto.
Qed.

(** X1.  The stats of [_apply_adjustments] count findings, not
    adjustments.  Whatever the adjustments are, each counter ends at its
    initial value plus the number of findings (over all agents) whose
    matching adjustment carries that decision.  For the adjustments parsed
    from a validator answer: [total] is the number of parsed adjustments,
    [rejected] is the number of findings removed, and the three decision
    counters add up to the number of findings that have a matching
    adjustment (which need not be [total]). *)
Theorem validator_stats_count_findings (all_findings : AllFindings) :
  (forall (adjustments : list Adjustment) (key : string),
     get0 (snd (_apply_adjustments all_findings adjustments)) key
     = get0 (initial_stats adjustments) key
       + decided adjustments key (all_of all_findings))
  /\ (forall raw : string,
        let adjustments := _parse_validation_results raw in
        let result := _apply_adjustments all_findings adjustments in
        let count := fun key => decided adjustments key (all_of all_findings) in
        snd result !! "total" = Some (Z.of_nat (length adjustments))
        /\ snd result !! "confirmed" = Some (count "confirmed")
        /\ snd result !! "downgraded" = Some (count "downgraded")
        /\ snd result !! "rejected" = Some (count "rejected")
        /\ count "rejected"
           = Z.of_nat (length (all_of all_findings))
             - Z.of_nat (length (all_of (fst result)))
        /\ count "confirmed" + count "downgraded" + count "rejected"
           = Z.of_nat (length (filter
                                 (fun f => is_Some (matching adjustments (fid f)))
                                 (all_of all_findings)))).
Proof.
  assert (Hgen : forall (adjustments : list Adjustment) (key : string),
     get0 (snd (_apply_adjustments all_findings adjustments)) key
     = get0 (initial_stats adjustments) key
       + decided adjustments key (all_of all_findings)).
  { intros adjustments key. unfold _apply_adjustments.
    apply adjust_agents_stats. }
  split; [exact Hgen|].
  intros raw adjustments result count.
  assert (Hsome : forall key,
             is_Some (initial_stats adjustments !! key) ->
             snd result !! key
             = Some (get0 (initial_stats adjustments) key + count key)).
  { intros key Hkey.
    pose proof (Hgen adjustments key) as Hg.
    destruct (adjust_agents_is_Some (adjustment_map adjustments) all_findings
                (initial_stats adjustments) key Hkey) as [v Hv].
    change (snd result !! key = Some v) in Hv.
    change (get0 (snd result) key
            = get0 (initial_stats adjustments) key + count key) in Hg.
    rewrite Hv. unfold get0 at 1 in Hg. rewrite Hv in Hg.
    change (v = get0 (initial_stats adjustments) key + count key) in Hg.
    subst v. reflexivity. }
  pose proof (parsed_decisions raw) as Hthree. fold adjustments in Hthree.
  split; [|split; [|split; [|split; [|split]]]].
  - rewrite Hsome by (unfold initial_stats; simplify_map_eq; eauto).
    unfold count. rewrite decided_none.
    + unfold initial_stats, get0. simplify_map_eq. f_equal. lia.
    + intros adj Hin Hd. rewrite Forall_forall in Hthree.
      specialize (Hthree adj Hin). rewrite Hd in Hthree.
      repeat (apply elem_of_cons in Hthree as [Hthree|Hthree];
              [discriminate|]).
      inversion Hthree.
  - rewrite Hsome by (unfold initial_stats; simplify_map_eq; eauto).
    unfold initial_stats, get0. simplify_map_eq. reflexivity.
  - rewrite Hsome by (unfold initial_stats; simplify_map_eq; eauto).
    unfold initial_stats, get0. simplify_map_eq. reflexivity.
  - rewrite Hsome by (unfold initial_stats; simplify_map_eq; eauto).
    unfold initial_stats, get0. simplify_map_eq. reflexivity.
  - unfold count, result. rewrite apply_adjustments_fst, all_of_adjust_all.
    rewrite omap_adjust_length, decided_rejected. lia.
  - apply decided_three. exact Hthree.
Qed.

End StatsCountProofs.

Section FrameProofs.
Import Validator Spec Decisions Frame.

Lemma adjust_one_text_fields (adjustments : list Adjustment) (f f' : Finding) :
  adjust_one adjustments f = Some f' -> text_fields f' = text_fields f.
Proof.
  unfold adjust_one. intros H.
  destruct (matching adjustments (fid f)) as [adj|].
  - repeat case_bool_decide; try discriminate;
      inversion H; subst f'; reflexivity.
  - inversion H; subst f'; reflexivity.
Qed.

Lemma omap_adjust_text_fields (adjustments : list Adjustment)
    (fs : list Finding) :
  map text_fields (omap (adjust_one adjustments) fs)
  = map text_fields (filter (fun f => ~ rejected_by adjustments f) fs).
Proof.
  induction fs as [|f fs IH]; [reflexivity|].
  cbn [omap list_omap]. rewrite filter_cons.
  destruct (adjust_one adjustments f) as [f'|] eqn:E.
  - destruct (decide (~ rejected_by adjustments f)) as [Hk|Hr].
    + cbn [map]. f_equal; [|exact IH].
      eapply adjust_one_text_fields; exact E.
    + exfalso. apply Hr. intros Hrej.
      apply adjust_one_rejected in Hrej. congruence.
  - destruct (decide (~ rejected_by adjustments f)) as [Hk|Hr].
    + exfalso. apply Hk. apply adjust_one_rejected. exact E.
    + exact IH.
Qed.

Lemma omap_adjust_unmatched (adjustments : list Adjustment)
    (fs : list Finding) (f : Finding) :
  f ∈ fs -> matching adjustments (fid f) = None ->
  f ∈ omap (adjust_one adjustments) fs.
Proof.
  intros Hin Hnone. apply list_elem_of_omap. exists f. split; [exact Hin|].
  unfold adjust_one. rewrite Hnone. reflexivity.
Qed.

(** X2.  The validator edits no text.  Agent by agent and in the same
    order of agents, [status] and [rawMarkdown] are kept, and the
    remaining findings are the findings that were not rejected, in their
    old order, each with its id, title, file, line, effort, issue,
    evidence and recommendation unchanged; a finding that no adjustment
    names is kept exactly as it was. *)
Theorem validator_keeps_text_fields (all_findings : AllFindings)
    (adjustments : list Adjustment) :
  Forall2
    (fun before after =>
       fst after = fst before
       /\ status (snd after) = status (snd before)
       /\ rawMarkdown (snd after) = rawMarkdown (snd before)
       /\ map text_fields (get_findings (snd after))
          = map text_fields
              (filter (fun f => ~ rejected_by adjustments f)
                 (get_findings (snd before)))
       /\ (forall f, f ∈ get_findings (snd before) ->
             matching adjustments (fid f) = None ->
             f ∈ get_findings (snd after)))
    all_findings (fst (_apply_adjustments all_findings adjustments)).
Proof.
  rewrite apply_adjustments_fst. apply Forall2_adjust_all.
  intros [k d]. cbn [fst snd].
  unfold adjust_agent. cbn [status rawMarkdown].
  unfold get_findings at 1 3. cbn [findings default]. unfold id.
  repeat split.
  - apply omap_adjust_text_fields.
  - intros f Hf Hnone. apply omap_adjust_unmatched; assumption.
Qed.

End FrameProofs.

Section WorklistProofs.
Import Validator Spec Decisions Frame Synthesis.

Lemma collect_agent_spec (agent_key : string) (fs : list Finding) :
  map (fun w => (w_agent w, w_finding_id w, w_title w, w_severity w))
    (collect_agent agent_key fs)
  = map (fun f => (agent_key, fid f, title f, Py.upper (severity f)))
      (filter (fun f => reads_high f = true) fs).
Proof.
  induction fs as [|f fs IH]; [reflexivity|].
  cbn [collect_agent]. rewrite filter_cons. fold (reads_high f).
  destruct (reads_high f) eqn:E.
  - destruct (decide (true = true)); [|contradiction].
    cbn [map]. rewrite IH. reflexivity.
  - destruct (decide (false = true)); [discriminate|]. exact IH.
Qed.

Lemma collect_spec (all_findings : AllFindings) :
  map (fun w => (w_agent w, w_finding_id w, w_title w, w_severity w))
    (_collect_high_severity_findings all_findings)
  = flat_map
      (fun kd =>
         map (fun f => (fst kd, fid f, title f, Py.upper (severity f)))
           (filter (fun f => reads_high f = true) (get_findings (snd kd))))
      all_findings.
Proof.
  induction all_findings as [|[k d] rest IH]; [reflexivity|].
  cbn [_collect_high_severity_findings flat_map fst snd].
  rewrite map_app, collect_agent_spec, IH. reflexivity.
Qed.

Lemma collect_severity (all_findings : AllFindings) :
  Forall (fun w => w_severity w = "BLOCKER" \/ w_severity w = "HIGH")
    (_collect_high_severity_findings all_findings).
Proof.
  induction all_findings as [|[k d] rest IH]; [constructor|].
  cbn [_collect_high_severity_findings]. apply Forall_app. split; [|exact IH].
  generalize (get_findings d). intros fs.
  induction fs as [|f fs IHf]; [constructor|].
  cbn [collect_agent].
  destruct (bool_decide (Py.upper (severity f) = "BLOCKER")) eqn:E1;
    [|destruct (bool_decide (Py.upper (severity f) = "HIGH")) eqn:E2];
    cbn [orb]; [constructor; [|exact IHf]..|exact IHf]; cbn [w_severity].
  - left. apply bool_decide_eq_true in E1. exact E1.
  - right. apply bool_decide_eq_true in E2. exact E2.
Qed.

Lemma length_collect (all_findings : AllFindings) :
  length (_collect_high_severity_findings all_findings)
  = length (filter (fun f => reads_high f = true) (all_of all_findings)).
Proof.
  rewrite <- (length_map (fun w => (w_agent w, w_finding_id w, w_title w, w_severity w))).
  rewrite collect_spec. unfold all_of.
  induction all_findings as [|[k d] rest IH]; [reflexivity|].
  cbn [flat_map fst snd]. rewrite filter_app, !length_app, length_map, IH.
  reflexivity.
Qed.

End WorklistProofs.

Section AppliedProofs.
Import Validator Spec Decisions Frame Applied.

Lemma adjust_one_applied (adjustments : list Adjustment) (f f' : Finding) :
  adjust_one adjustments f = Some f' -> applied adjustments f f'.
Proof.
  intros H. split; [eapply adjust_one_text_fields; exact H|].
  unfold adjust_one in H.
  destruct (matching adjustments (fid f)) as [adj|];
    [|inversion H; reflexivity].
  case_bool_decide as Hr; [discriminate|].
  case_bool_decide as Hd; inversion H; subst f'.
  - rewrite decide_True by exact Hd. repeat split.
  - rewrite decide_False by exact Hd. repeat split.
Qed.

Lemma omap_adjust_applied (adjustments : list Adjustment)
    (fs : list Finding) :
  Forall2 (applied adjustments)
    (filter (fun f => ~ rejected_by adjustments f) fs)
    (omap (adjust_one adjustments) fs).
Proof.
  induction fs as [|f fs IH]; [constructor|].
  cbn [omap list_omap]. rewrite filter_cons.
  destruct (adjust_one adjustments f) as [f'|] eqn:E.
  - destruct (decide (~ rejected_by adjustments f)) as [Hk|Hr].
    + constructor; [apply adjust_one_applied; exact E|exact IH].
    + exfalso. apply Hr. intros Hrej.
      apply adjust_one_rejected in Hrej. congruence.
  - destruct (decide (~ rejected_by adjustments f)) as [Hk|Hr].
    + exfalso. apply Hk. apply adjust_one_rejected. exact E.
    + exact IH.
Qed.

(** C10.  An adjustment is matched to a finding by the finding's id
    alone.  For every agent-results map and every adjustment list,
    agent by agent and in the order of each findings list, the findings
    that remain are those of the findings whose matching adjustment
    (the last one of the list that names their id) is not a rejection,
    each one rewritten as that adjustment says: under a downgrade its
    severity is the adjusted severity, its [original_severity] the
    severity it had, [validated] is [downgraded] and
    [validation_reason] the adjustment's reason; under a confirmation
    only [validated] changes.  Neither the agent's key nor the
    finding's own severity is consulted, so one adjustment reaches the
    findings of every agent that bear its id, those of MEDIUM and LOW
    severity included. *)
Theorem adjustment_matched_by_id_alone (all_findings : AllFindings)
    (adjustments : list Adjustment) :
  Forall2
    (fun before after =>
       fst after = fst before
       /\ Forall2 (applied adjustments)
            (filter (fun f => ~ rejected_by adjustments f)
               (get_findings (snd before)))
            (get_findings (snd after)))
    all_findings (fst (_apply_adjustments all_findings adjustments)).
Proof.
  rewrite apply_adjustments_fst. apply Forall2_adjust_all.
  intros [k d]. cbn [fst snd]. split; [reflexivity|].
  unfold adjust_agent, get_findings at 2. cbn [findings default].
  apply omap_adjust_applied.
Qed.

(** On two agents that use the same id: the worklist holds the
    guardian's HIGH finding only, the one adjustment names the id, and
    the sentinel's MEDIUM finding of that id is downgraded along with
    the guardian's; the sentinel's other finding is untouched. *)
Lemma adjustment_crosses_agents_and_severities :
  let after :=
    fst (_apply_adjustments Examples.two_agents [Examples.downgrade_sec]) in
  map w_agent (_collect_high_severity_findings Examples.two_agents)
  = ["guardian"]
  /\ map (fun kd =>
            (fst kd,
             map (fun f => (fid f, severity f, original_severity f,
                            validated f, validation_reason f))
               (get_findings (snd kd))))
       after
     = [("guardian",
         [("SEC-001", "LOW", Some "HIGH", Some "downgraded",
           Some "Admin only")]);
        ("sentinel",
         [("SEC-001", "LOW", Some "MEDIUM", Some "downgraded",
           Some "Admin only");
          ("SENTINEL-002", "LOW", None, None, None)])]
  /\ Forall2
       (fun before after =>
          fst after = fst before
          /\ Forall2 (applied [Examples.downgrade_sec])
               (filter (fun f => ~ rejected_by [Examples.downgrade_sec] f)
                  (get_findings (snd before)))
               (get_findings (snd after)))
       Examples.two_agents after.
Proof.
  cbv zeta. split; [vm_compute; reflexivity|].
  split; [vm_compute; reflexivity|].
  apply (adjustment_matched_by_id_alone Examples.two_agents
           [Examples.downgrade_sec]).
Defined.

End AppliedProofs.

Section CharProofs.
Import Chars.

Lemma for_all_spec (p : ascii -> bool) :
  for_all p = true -> forall a, p a = true.
Proof.
  unfold for_all. rewrite forallb_forall. intros H a. apply H.
  unfold all_ascii. rewrite <- (ascii_nat_embedding a).
  apply in_map, in_seq. pose proof (nat_ascii_bounded a). lia.
Qed.

Lemma for_all2_spec (p : ascii -> ascii -> bool) :
  for_all2 p = true -> forall a b, p a b = true.
Proof.
  unfold for_all2. intros H a b.
  apply (for_all_spec (p a)). apply (for_all_spec _ H).
Qed.

Lemma is_ci_upper (a b : ascii) :
  Re.is_ci a b = true -> Py.upper_char b = Py.upper_char a.
Proof.
  intros H.
  assert (Hall : for_all2 (fun a b =>
            implb (Re.is_ci a b)
                  (Ascii.eqb (Py.upper_char b) (Py.upper_char a))) = true)
    by (vm_compute; reflexivity).
  pose proof (for_all2_spec _ Hall a b) as Hab. cbv beta in Hab.
  rewrite H in Hab. cbn [implb] in Hab. apply Ascii.eqb_eq in Hab. exact Hab.
Qed.

Lemma lower_char_not_upper (a : ascii) :
  Py.is_upper (Py.lower_char a) = false.
Proof.
  assert (Hall : for_all (fun a => negb (Py.is_upper (Py.lower_char a))) = true)
    by (vm_compute; reflexivity).
  pose proof (for_all_spec _ Hall a) as Ha. cbv beta in Ha.
  apply negb_true_iff in Ha. exact Ha.
Qed.

Lemma lower_char_idem (a : ascii) :
  Py.lower_char (Py.lower_char a) = Py.lower_char a.
Proof.
  unfold Py.lower_char at 1. rewrite lower_char_not_upper. reflexivity.
Qed.

Lemma lower_idem (s : string) : Py.lower (Py.lower s) = Py.lower s.
Proof.
  unfold Py.lower. induction s as [|a s IH]; [reflexivity|].
  cbn [Py.map_string]. rewrite lower_char_idem, IH. reflexivity.
Qed.

End CharProofs.

Section CharClassProofs.
Import Re Spec Chars.

Variable text : list ascii.

(** A match runs forward and stays inside the text. *)
Lemma matches_bounds (r : regex) (i j : nat) (c c' : captures) :
  matches text r i c j c' ->
  (i <= j)%nat /\ ((i <= length text)%nat -> (j <= length text)%nat).
Proof.
  intros Hm. induction Hm;
    repeat match goal with H : _ /\ _ |- _ => destruct H end;
    try match goal with H : text !! _ = Some _ |- _ =>
          apply lookup_lt_Some in H end;
    (split; [lia|intros; try lia; auto]).
Qed.

Lemma matches_Chr (p : ascii -> bool) (i j : nat) (c c' : captures) :
  matches text (Chr p) i c j c' ->
  c' = c /\ j = S i /\ stretch text p i j.
Proof.
  intros Hm. inversion Hm; subst. split; [reflexivity|]. split; [reflexivity|].
  intros k Hk. assert (k = i) as -> by lia. eauto.
Qed.

Lemma matches_Star_Chr (p : ascii -> bool) (i j : nat) (c c' : captures) :
  matches text (Star (Chr p)) i c j c' ->
  c' = c /\ (i <= j)%nat /\ stretch text p i j.
Proof.
  intros Hm. remember (Star (Chr p)) as r eqn:Hr.
  induction Hm; try discriminate.
  - split; [reflexivity|]. split; [lia|]. intros k Hk. lia.
  - inversion Hr; subst r. clear IHHm1.
    apply matches_Chr in Hm1 as (-> & -> & H1).
    destruct (IHHm2 eq_refl) as (-> & Hle & H2).
    split; [reflexivity|]. split; [lia|].
    intros m Hm. destruct (decide (m = i)) as [->|Hne].
    + apply H1. lia.
    + apply H2. lia.
Qed.


Lemma matches_Plus_Chr (p : ascii -> bool) (i j : nat) (c c' : captures) :
  matches text (Plus (Chr p)) i c j c' ->
  c' = c /\ (i < j)%nat /\ stretch text p i j.
Proof.
  unfold Plus. intros Hm.
  apply matches_Seq_inv in Hm as (m & c1 & H1 & H2).
  apply matches_Chr in H1 as (-> & -> & H1).
  apply matches_Star_Chr in H2 as (-> & Hle & H2).
  split; [reflexivity|]. split; [lia|].
  intros k Hk. destruct (decide (k = i)) as [->|Hne].
  - apply H1. lia.
  - apply H2. lia.
Qed.


(** A literal under IGNORECASE matches its characters up to case. *)
Lemma matches_LitCi (s : string) (i j : nat) (c c' : captures) :
  matches text (LitCi s) i c j c' ->
  c' = c /\ j = (i + String.length s)%nat
  /\ forall k a, String.get k s = Some a ->
       exists b, text !! (i + k)%nat = Some b /\ is_ci a b = true.
Proof.
  revert i c. induction s as [|a s IH]; intros i c Hm.
  - cbn [LitCi] in Hm. inversion Hm; subst.
    split; [reflexivity|]. split; [cbn; lia|]. intros k b Hk. discriminate.
  - assert (Hstep : forall i1 c1,
               matches text (Chr (is_ci a)) i c i1 c1 ->
               c1 = c /\ i1 = S i
               /\ exists b, text !! i = Some b /\ is_ci a b = true).
    { intros i1 c1 H1. inversion H1; subst. eauto. }
    destruct s as [|b s].
    + cbn [LitCi] in Hm. apply Hstep in Hm as (-> & -> & Ha).
      split; [reflexivity|]. split; [cbn; lia|].
      intros [|k] x Hk; cbn in Hk; [|discriminate].
      inversion Hk; subst x. rewrite Nat.add_0_r. exact Ha.
    + change (LitCi (String a (String b s)))
        with (Seq (Chr (is_ci a)) (LitCi (String b s))) in Hm.
      apply matches_Seq_inv in Hm as (i1 & c1 & H1 & H2).
      apply Hstep in H1 as (-> & -> & Ha).
      apply IH in H2 as (-> & -> & Hrest).
      split; [reflexivity|]. split; [cbn [String.length]; lia|].
      intros [|k] x Hk.
      * cbn in Hk. inversion Hk; subst x. rewrite Nat.add_0_r. exact Ha.
      * replace (i + S k)%nat with (S i + k)%nat by lia.
        apply Hrest. exact Hk.
Qed.

End CharClassProofs.

Section StringProofs.
Import Chars Strings.

Lemma get_lookup (s : string) (k : nat) :
  String.get k s = list_ascii_of_string s !! k.
Proof.
  revert k. induction s as [|a s IH]; intros [|k]; cbn; auto.
Qed.

Lemma length_chars (s : string) :
  length (list_ascii_of_string s) = String.length s.
Proof. induction s as [|a s IH]; cbn; [reflexivity|]. rewrite IH. reflexivity. Qed.

Lemma substring_full (s : string) :
  String.substring 0 (String.length s) s = s.
Proof. induction s as [|a s IH]; cbn; [reflexivity|]. rewrite IH. reflexivity. Qed.

Lemma slice_from_0 (s : string) : Py.slice_from s 0 = s.
Proof. unfold Py.slice_from. rewrite Nat.sub_0_r. apply substring_full. Qed.

Lemma chars_substring (s : string) (n m : nat) :
  list_ascii_of_string (String.substring n m s)
  = take m (drop n (list_ascii_of_string s)).
Proof.
  revert n m. induction s as [|a s IH]; intros n m.
  - destruct n, m; reflexivity.
  - destruct n as [|n].
    + destruct m as [|m]; [reflexivity|].
      cbn [String.substring list_ascii_of_string drop take]. f_equal.
      rewrite IH. reflexivity.
    + cbn [String.substring list_ascii_of_string drop]. apply IH.
Qed.

Lemma chars_slice (s : string) (i j : nat) :
  list_ascii_of_string (Py.slice s i j)
  = take (j - i) (drop i (list_ascii_of_string s)).
Proof. apply chars_substring. Qed.


Lemma chars_inj (s t : string) :
  list_ascii_of_string s = list_ascii_of_string t -> s = t.
Proof.
  intros H. rewrite <- (string_of_list_ascii_of_string s),
    <- (string_of_list_ascii_of_string t), H. reflexivity.
Qed.

Lemma chars_map_string (f : ascii -> ascii) (s : string) :
  list_ascii_of_string (Py.map_string f s) = map f (list_ascii_of_string s).
Proof.
  induction s as [|a s IH]; [reflexivity|].
  cbn [Py.map_string list_ascii_of_string map]. f_equal. exact IH.
Qed.


(** The characters of a stretch of a class make a slice of that class. *)
Lemma all_chars_slice (p : ascii -> bool) (s : string) (i j : nat) :
  stretch (list_ascii_of_string s) p i j ->
  all_chars p (Py.slice s i j) = true.
Proof.
  intros Hst. unfold all_chars. rewrite chars_slice.
  apply forallb_forall. intros a Ha.
  apply list_elem_of_In, list_elem_of_lookup in Ha as [k Hk].
  apply lookup_take_Some in Hk as [Hk Hlt].
  rewrite lookup_drop in Hk.
  destruct (Hst (i + k)%nat) as (b & Hb & Hp); [lia|].
  rewrite Hk in Hb. inversion Hb; subst b. exact Hp.
Qed.

Lemma length_slice (s : string) (i j : nat) :
  (i <= j <= String.length s)%nat ->
  String.length (Py.slice s i j) = (j - i)%nat.
Proof.
  intros Hij. rewrite <- length_chars, chars_slice, length_take, length_drop,
    length_chars. lia.
Qed.

(** A stretch that spells [s] up to case is a slice that reads [s] once
    in upper case. *)
Lemma slice_chars_ci (content s : string) (a b : nat) :
  b = (a + String.length s)%nat ->
  (forall k x, String.get k s = Some x ->
     exists y, list_ascii_of_string content !! (a + k)%nat = Some y
               /\ Re.is_ci x y = true) ->
  Py.upper (Py.slice content a b) = Py.upper s.
Proof.
  intros -> Hchars. apply chars_inj. unfold Py.upper.
  rewrite !chars_map_string, chars_slice.
  replace (a + String.length s - a)%nat with (String.length s) by lia.
  apply list_eq. intros k. rewrite !list_lookup_fmap.
  destruct (decide (k < String.length s)%nat) as [Hlt|Hge].
  - rewrite lookup_take_lt by exact Hlt. rewrite lookup_drop.
    destruct (list_ascii_of_string s !! k) as [x|] eqn:Hx.
    + rewrite <- get_lookup in Hx.
      destruct (Hchars k x Hx) as (y & Hy & Hci). rewrite Hy. cbn.
      f_equal. apply is_ci_upper. exact Hci.
    + apply lookup_ge_None in Hx. rewrite length_chars in Hx. lia.
  - rewrite lookup_take_ge by lia.
    rewrite (proj2 (lookup_ge_None _ _)); [reflexivity|].
    rewrite length_chars. lia.
Qed.

Lemma prefix_occurs_at (sub s : string) :
  String.prefix sub s = true <-> occurs_at sub s 0.
Proof.
  unfold occurs_at. revert s. induction sub as [|a sub IH]; intros s.
  - split; [intros _ k x Hk; discriminate|intros _; destruct s; reflexivity].
  - destruct s as [|b s].
    + cbn. split; [discriminate|]. intros H.
      specialize (H 0%nat a eq_refl). discriminate.
    + cbn [String.prefix]. destruct (ascii_dec a b) as [->|Hne].
      * rewrite IH. split.
        -- intros H [|k] x Hk; cbn in Hk |- *; [exact Hk|]. exact (H k x Hk).
        -- intros H k x Hk. exact (H (S k) x Hk).
      * split; [discriminate|]. intros H.
        specialize (H 0%nat a eq_refl). cbn in H. congruence.
Qed.

Lemma occurs_at_tail (sub : string) (a : ascii) (s : string) (n : nat) :
  occurs_at sub (String a s) (S n) <-> occurs_at sub s n.
Proof. unfold occurs_at. cbn. tauto. Qed.

Lemma find_fuel_complete (sub : string) (fuel : nat) (s : string) (i n : nat) :
  (n < fuel)%nat -> occurs_at sub s n ->
  is_Some (Py.find_fuel fuel sub s i).
Proof.
  revert s i n. induction fuel as [|fuel IH]; intros s i n Hn Hocc; [lia|].
  cbn [Py.find_fuel].
  destruct (String.prefix sub s) eqn:Hp; [eauto|].
  destruct n as [|n].
  - apply prefix_occurs_at in Hocc. congruence.
  - destruct s as [|a s].
    + destruct sub as [|x sub]; [discriminate|].
      specialize (Hocc 0%nat x eq_refl). discriminate.
    + apply (IH s (S i) n); [lia|]. apply occurs_at_tail in Hocc. exact Hocc.
Qed.

Lemma find_fuel_sound (sub : string) (fuel : nat) (s : string) (i r : nat) :
  Py.find_fuel fuel sub s i = Some r ->
  exists n, r = (i + n)%nat /\ occurs_at sub s n.
Proof.
  revert s i. induction fuel as [|fuel IH]; intros s i Hf; [discriminate|].
  cbn [Py.find_fuel] in Hf.
  destruct (String.prefix sub s) eqn:Hp.
  - inversion Hf; subst r. exists 0%nat. split; [lia|].
    apply prefix_occurs_at. exact Hp.
  - destruct s as [|a s]; [discriminate|].
    apply IH in Hf as (n & -> & Hocc).
    exists (S n). split; [lia|]. apply occurs_at_tail. exact Hocc.
Qed.

(** [sub in s] says that [sub] occurs somewhere in [s]. *)
Lemma contains_spec (sub s : string) :
  Py.contains sub s = true <-> exists n, occurs_at sub s n.
Proof.
  unfold Py.contains, Py.find. rewrite slice_from_0. split.
  - destruct (Py.find_fuel _ sub s 0) as [r|] eqn:E; [|discriminate].
    intros _. apply find_fuel_sound in E as (n & _ & Hocc). eauto.
  - intros [n Hocc]. destruct sub as [|x sub].
    + destruct s; reflexivity.
    + assert (Hn : (n < S (String.length s))%nat).
      { pose proof (Hocc 0%nat x eq_refl) as H0.
        apply lookup_lt_Some in H0. rewrite length_chars in H0. lia. }
      destruct (find_fuel_complete (String x sub) _ s 0 n Hn Hocc) as [r Hr].
      rewrite Hr. reflexivity.
Qed.

Lemma contains_occurs_at (sub s : string) (n : nat) :
  occurs_at sub s n -> Py.contains sub s = true.
Proof. intros H. apply contains_spec. eauto. Qed.

End StringProofs.

Section MarkerProofs.
Import Provider Spec Markers.

Lemma any_in_mentions (markers : list string) (message : string) :
  any_in markers message = true
  <-> exists marker, marker ∈ markers /\ mentions marker message.
Proof.
  unfold any_in, mentions. rewrite existsb_exists. split.
  - intros (m & Hin & Hc). exists m. split; [apply list_elem_of_In; exact Hin|].
    apply contains_spec. exact Hc.
  - intros (m & Hin & Hm). exists m. split; [apply list_elem_of_In; exact Hin|].
    apply contains_spec. exact Hm.
Qed.

Lemma bears_carries (markers : list string) (result : CompletionResult) :
  bears markers result <-> carries markers result.
Proof. unfold bears, carries. symmetry. apply any_in_mentions. Qed.

End MarkerProofs.

Section PolicyProofs.
Import Provider Spec Markers.

Variable max_attempts : Z.
Variable retry_delay : Z.
Variable env : Environ.
Variable complete : Z -> CompletionResult.

Lemma step_unmarked (attempt : Z) (result : CompletionResult) :
  success result = false ->
  ~ carries rate_limit_markers result ->
  ~ carries server_error_markers result ->
  attempt_step max_attempts retry_delay env attempt result
    = Return (sanitized env result).
Proof.
  unfold carries, rate_limit_markers, server_error_markers.
  intros Hfail H429 H5. rewrite any_in_one in H429.
  apply not_true_is_false in H429. apply not_true_is_false in H5.
  rewrite (step_failure _ _ _ _ _ Hfail). cbv zeta.
  unfold is_retryable, is_rate_limit. rewrite H429, H5. reflexivity.
Qed.

(** C9, amended.  In [complete_with_retry], for a failed response:
    one whose message mentions 400, 401, 403 or 404 is returned at
    once, sanitized, whatever else it mentions; one that mentions 429
    (and none of those) is followed by a sleep of 30 times
    min(attempt, 3) seconds and another attempt while the attempt
    number is below max(configured attempts, 5), and returned
    sanitized from then on, whether or not it mentions a server error
    as well; one that mentions 500, 502, 503, 504 or a timeout, and
    neither 429 nor a client error, is followed by a sleep of the
    configured delay times min(attempt, 3) and another attempt while
    the attempt number is below the configured count, and returned
    sanitized from then on; one that mentions none of the retryable
    markers is returned at once.  A run returns at an attempt no later
    than max(configured attempts, 5), having slept, after every earlier
    attempt, the wait that attempt's step asked for; when what it
    returns is a failure, that is the last response with its error
    message passed through the sanitizer. *)
Theorem retry_policy_by_error_class :
  (forall attempt result,
     success result = false ->
     bears client_error_markers result ->
     attempt_step max_attempts retry_delay env attempt result
       = Return (sanitized env result))
  /\ (forall attempt result,
        success result = false ->
        ~ bears client_error_markers result ->
        bears rate_limit_markers result ->
        (attempt < Z.max max_attempts 5 ->
         attempt_step max_attempts retry_delay env attempt result
           = Sleep (30 * Z.min attempt 3))
        /\ (Z.max max_attempts 5 <= attempt ->
            attempt_step max_attempts retry_delay env attempt result
              = Return (sanitized env result)))
  /\ (forall attempt result,
        success result = false ->
        ~ bears client_error_markers result ->
        ~ bears rate_limit_markers result ->
        bears server_error_markers result ->
        (attempt < max_attempts ->
         attempt_step max_attempts retry_delay env attempt result
           = Sleep (retry_delay * Z.min attempt 3))
        /\ (max_attempts <= attempt ->
            attempt_step max_attempts retry_delay env attempt result
              = Return (sanitized env result)))
  /\ (forall attempt result,
        success result = false ->
        ~ bears rate_limit_markers result ->
        ~ bears server_error_markers result ->
        attempt_step max_attempts retry_delay env attempt result
          = Return (sanitized env result))
  /\ (let run := complete_with_retry max_attempts retry_delay env complete in
      1 <= calls run <= Z.max max_attempts 5
      /\ attempt_step max_attempts retry_delay env (calls run)
           (complete (calls run)) = Return (returned run)
      /\ Z.of_nat (length (sleeps run)) = calls run - 1
      /\ (forall i, 1 <= i < calls run ->
            exists wait_time,
              sleeps run !! Z.to_nat (i - 1) = Some wait_time
              /\ attempt_step max_attempts retry_delay env i (complete i)
                 = Sleep wait_time)
      /\ (success (returned run) = false ->
          returned run = sanitized env (complete (calls run)))).
Proof.
  split.
  { intros attempt result Hfail H4. apply step_client_error; [exact Hfail|].
    apply bears_carries. exact H4. }
  split.
  { intros attempt result Hfail H4 H429. apply step_rate_limit;
      [exact Hfail|rewrite <- bears_carries; exact H4|].
    apply bears_carries. exact H429. }
  split.
  { intros attempt result Hfail H4 H429 H5. apply step_server_error;
      [exact Hfail|rewrite <- bears_carries; exact H4
      |rewrite <- bears_carries; exact H429|].
    apply bears_carries. exact H5. }
  split.
  { intros attempt result Hfail H429 H5. apply step_unmarked;
      [exact Hfail|rewrite <- bears_carries; exact H429|].
    rewrite <- bears_carries. exact H5. }
  cbv zeta. unfold complete_with_retry, rate_limit_max.
  destruct (retry_loop_trace max_attempts retry_delay env complete
              (Z.to_nat (Z.max max_attempts 5)) 1 None [])
    as (Hcalls & Hret & waits & Hsl & Hlen & Hwaits); [lia|lia|].
  cbn [app] in Hsl.
  split; [exact Hcalls|]. split; [exact Hret|].
  split; [rewrite Hsl; exact Hlen|].
  split.
  - intros i Hi. rewrite Hsl. apply Hwaits. exact Hi.
  - intros Hfail.
    exact (proj2 (step_returns_failure _ _ _ _ _ _ Hret Hfail)).
Qed.

End PolicyProofs.

Section PolicySamples.
Import Provider Spec Markers.

Lemma bears_computed (markers : list string) (message : string) :
  any_in markers message = true ->
  bears markers (Examples.failure message).
Proof.
  intros H. apply bears_carries. unfold carries. cbn [error Examples.failure].
  unfold str_or. destruct (Py.truthy message) eqn:E; [exact H|].
  destruct message; [exact H|discriminate E].
Qed.

Lemma not_bears_computed (markers : list string) (message : string) :
  any_in markers message = false ->
  ~ bears markers (Examples.failure message).
Proof.
  intros H Hb. apply bears_carries in Hb. unfold carries in Hb.
  cbn [error Examples.failure] in Hb. unfold str_or in Hb.
  destruct (Py.truthy message) eqn:E; [congruence|].
  destruct message; [congruence|discriminate E].
Qed.

(** Counterexample to C9 as stated: a response that mentions 503 also
    mentions 429 (in a request number).  With 3 configured attempts and
    a delay of 5 seconds the claim has it followed by a sleep of 5
    seconds after the first attempt and returned at the third; the code
    sleeps 30 seconds after the first attempt, 90 after the third, and
    makes 5 calls. *)
Lemma server_error_with_rate_limit_marker :
  let result := Examples.failure "503 Service Unavailable (request 84290)" in
  let run := complete_with_retry 3 5 Examples.ann (fun _ => result) in
  success result = false
  /\ bears server_error_markers result
  /\ ~ bears client_error_markers result
  /\ attempt_step 3 5 Examples.ann 3 result = Sleep 90
  /\ calls run = 5
  /\ sleeps run = [30; 60; 90; 90]
  /\ attempt_step 3 5 Examples.ann 1 result <> Sleep (5 * Z.min 1 3).
Proof.
  cbv zeta. split; [reflexivity|].
  split; [apply bears_computed; vm_compute; reflexivity|].
  split; [apply not_bears_computed; vm_compute; reflexivity|].
  split; [vm_compute; reflexivity|].
  split; [vm_compute; reflexivity|].
  split; [vm_compute; reflexivity|].
  vm_compute. discriminate.
Qed.

(** The policy on sample messages, with 3 configured attempts and a
    delay of 5 seconds: a refusal that also mentions 429 is returned at
    once; a rate limit is retried after 30 and, at the fourth attempt,
    90 seconds, and returned at the fifth; a bad gateway is retried
    after 5 seconds and returned at the third attempt; a message without
    a marker is returned at once. *)
Lemma retry_policy_on_sample_errors :
  let step := attempt_step 3 5 Examples.ann in
  let refused := Examples.failure "401 Unauthorized (retry after 429)" in
  let limited := Examples.failure "429 Too Many Requests" in
  let gateway := Examples.failure "502 Bad Gateway" in
  let reset := Examples.failure "connection reset by peer" in
  step 1 refused = Return (sanitized Examples.ann refused)
  /\ step 1 limited = Sleep 30
  /\ step 4 limited = Sleep 90
  /\ step 5 limited = Return (sanitized Examples.ann limited)
  /\ step 1 gateway = Sleep 5
  /\ step 3 gateway = Return (sanitized Examples.ann gateway)
  /\ step 1 reset = Return (sanitized Examples.ann reset).
Proof.
  cbv zeta.
  destruct (retry_policy_by_error_class 3 5 Examples.ann
              Examples.limited_complete)
    as (Hclient & Hrate & Hserver & Hnone & _).
  split.
  { apply Hclient; [reflexivity|]. apply bears_computed.
    vm_compute. reflexivity. }
  assert (Hlim : forall attempt,
            (attempt < 5 ->
             attempt_step 3 5 Examples.ann attempt
               (Examples.failure "429 Too Many Requests")
             = Sleep (30 * Z.min attempt 3))
            /\ (5 <= attempt ->
                attempt_step 3 5 Examples.ann attempt
                  (Examples.failure "429 Too Many Requests")
                = Return (sanitized Examples.ann
                            (Examples.failure "429 Too Many Requests")))).
  { intros attempt. apply (Hrate attempt); [reflexivity| |].
    - apply not_bears_computed. vm_compute. reflexivity.
    - apply bears_computed. vm_compute. reflexivity. }
  split; [apply (proj1 (Hlim 1)); lia|].
  split; [apply (proj1 (Hlim 4)); lia|].
  split; [apply (proj2 (Hlim 5)); lia|].
  assert (Hgw : forall attempt,
            (attempt < 3 ->
             attempt_step 3 5 Examples.ann attempt
               (Examples.failure "502 Bad Gateway")
             = Sleep (5 * Z.min attempt 3))
            /\ (3 <= attempt ->
                attempt_step 3 5 Examples.ann attempt
                  (Examples.failure "502 Bad Gateway")
                = Return (sanitized Examples.ann
                            (Examples.failure "502 Bad Gateway")))).
  { intros attempt. apply (Hserver attempt); [reflexivity| | |].
    - apply not_bears_computed. vm_compute. reflexivity.
    - apply not_bears_computed. vm_compute. reflexivity.
    - apply bears_computed. vm_compute. reflexivity. }
  split; [apply (proj1 (Hgw 1)); lia|].
  split; [apply (proj2 (Hgw 3)); lia|].
  apply Hnone; [reflexivity| |];
    apply not_bears_computed; vm_compute; reflexivity.
Defined.

End PolicySamples.

Section ParseValidationProofs.
Import Re Validator Spec Decisions Chars Strings.

Lemma slice_nonempty (p : ascii -> bool) (s : string) (i j : nat) :
  stretch (list_ascii_of_string s) p i j -> (i < j)%nat ->
  Py.slice s i j <> "".
Proof.
  intros Hst Hij Hempty.
  assert (H : list_ascii_of_string (Py.slice s i j) !! 0%nat = None)
    by (rewrite Hempty; reflexivity).
  rewrite chars_slice in H. rewrite lookup_take_lt in H by lia.
  rewrite lookup_drop, Nat.add_0_r in H.
  destruct (Hst i) as (a & Ha & _); [lia|]. congruence.
Qed.

(** What a match of the block header captured. *)
Lemma validate_match_groups (content : string) (m : rmatch) :
  m ∈ finditer validate_re content ->
  exists id original adjusted,
    group content m 1 = Some id
    /\ group content m 2 = Some original
    /\ group content m 3 = Some adjusted
    /\ id <> "" /\ all_chars nonspace id = true
    /\ Py.upper original ∈ primary_severities
    /\ Py.upper adjusted ∈ "REJECTED" :: primary_severities.
Proof.
  unfold finditer. intros Hm.
  apply scan_sound, match_at_sound in Hm.
  unfold validate_re in Hm. cbn [Seqs] in Hm.
  set (text := list_ascii_of_string content) in *.
  apply matches_Seq_inv in Hm as (i1 & c1 & H1 & Hm).
  apply matches_plain in H1; [|reflexivity]. subst c1.
  apply matches_Seq_inv in Hm as (i2 & c2 & H2 & Hm).
  apply matches_plain in H2; [|reflexivity]. subst c2.
  apply matches_Seq_inv in Hm as (i3 & c3 & H3 & Hm).
  apply matches_plain in H3; [|reflexivity]. subst c3.
  apply matches_Seq_inv in Hm as (i4 & c4 & H4 & Hm).
  apply matches_plain in H4; [|reflexivity]. subst c4.
  apply matches_Seq_inv in Hm as (i5 & c5 & H5 & Hm).
  apply matches_Group_inv in H5 as (c5' & Hid & ->).
  apply matches_Plus_Chr in Hid as (-> & Hlt & Hid).
  apply matches_Seq_inv in Hm as (i6 & c6 & H6 & Hm).
  apply matches_plain in H6; [|reflexivity]. subst c6.
  apply matches_Seq_inv in Hm as (i7 & c7 & H7 & Hm).
  apply matches_plain in H7; [|reflexivity]. subst c7.
  apply matches_Seq_inv in Hm as (i8 & c8 & H8 & Hm).
  apply matches_plain in H8; [|reflexivity]. subst c8.
  apply matches_Seq_inv in Hm as (i9 & c9 & H9 & Hm).
  apply matches_Group_inv in H9 as (c9' & Horig & ->).
  assert (c9' = [(1%nat, (i4, i5))]) as ->
    by (eapply matches_plain; [|exact Horig]; reflexivity).
  apply matches_Seq_inv in Hm as (i10 & c10 & H10 & Hm).
  apply matches_plain in H10; [|reflexivity]. subst c10.
  apply matches_Seq_inv in Hm as (i11 & c11 & H11 & Hm).
  apply matches_plain in H11; [|reflexivity]. subst c11.
  apply matches_Seq_inv in Hm as (i12 & c12 & H12 & Hm).
  apply matches_plain in H12; [|reflexivity]. subst c12.
  apply matches_Group_inv in Hm as (c13 & Hadj & Hc).
  assert (c13 = [(2%nat, (i8, i9)); (1%nat, (i4, i5))]) as ->
    by (eapply matches_plain; [|exact Hadj]; reflexivity).
  unfold group. rewrite Hc. cbn [capture Nat.eqb].
  eexists _, _, _. split; [reflexivity|]. split; [reflexivity|].
  split; [reflexivity|].
  split; [eapply slice_nonempty; eassumption|].
  split; [apply all_chars_slice; exact Hid|].
  assert (Hci : forall name a b c c',
             matches text (LitCi name) a c b c' ->
             Py.upper (Py.slice content a b) = Py.upper name).
  { intros name a b c c' Hname.
    apply matches_LitCi in Hname as (_ & Hb & Hchars).
    apply slice_chars_ci; assumption. }
  split.
  - cbn [Alts] in Horig. unfold primary_severities.
    apply matches_Alt_inv in Horig as [H|Horig];
      [|apply matches_Alt_inv in Horig as [H|Horig];
        [|apply matches_Alt_inv in Horig as [H|H]]];
      apply Hci in H; rewrite H; vm_compute; set_solver.
  - cbn [Alts] in Hadj. unfold primary_severities.
    apply matches_Alt_inv in Hadj as [H|Hadj];
      [|apply matches_Alt_inv in Hadj as [H|Hadj];
        [|apply matches_Alt_inv in Hadj as [H|Hadj];
          [|apply matches_Alt_inv in Hadj as [H|H]]]];
      apply Hci in H; rewrite H; vm_compute; set_solver.
Qed.

End ParseValidationProofs.

Section ShapeProofs.
Import Re Validator Spec Decisions Shape Chars Strings.

Lemma adjustment_of_match_shape (content : string) (m : rmatch) :
  m ∈ finditer validate_re content ->
  let a := adjustment_of_match content m in
  a_original_severity a ∈ primary_severities
  /\ adjusted_severity a ∈ "REJECTED" :: primary_severities
  /\ finding_id a <> ""
  /\ all_chars nonspace (finding_id a) = true.
Proof.
  intros Hm a.
  destruct (validate_match_groups content m Hm)
    as (name & original & adjusted & H1 & H2 & H3 & Hne & Hns & Ho & Ha).
  subst a. unfold adjustment_of_match.
  cbn [a_original_severity adjusted_severity finding_id].
  rewrite H1, H2, H3. cbn [default]. unfold id. auto.
Qed.




Lemma parsed_downgrade_primary (raw : string) (adj : Adjustment) :
  ascii_only raw ->
  adj ∈ _parse_validation_results raw ->
  decision adj <> "rejected" ->
  adjusted_severity adj ∈ primary_severities.
Proof.
  unfold _parse_validation_results. intros _ Ha Hd.
  apply list_elem_of_In, in_map_iff in Ha as (m & <- & Hm).
  apply list_elem_of_In in Hm.
  destruct (adjustment_of_match_shape raw m Hm) as (_ & Hadj & _).
  apply elem_of_cons in Hadj as [Hrej|Hadj]; [|exact Hadj].
  exfalso. apply Hd. revert Hrej. unfold adjustment_of_match.
  cbn [adjusted_severity decision]. intros Hrej.
  rewrite bool_decide_eq_true_2 by exact Hrej. reflexivity.
Qed.

Lemma adjust_one_primary (raw : string) (f f' : Finding) :
  ascii_only raw ->
  severity f ∈ primary_severities ->
  adjust_one (_parse_validation_results raw) f = Some f' ->
  severity f' ∈ primary_severities.
Proof.
  unfold adjust_one. intros Hascii Hf H.
  destruct (matching (_parse_validation_results raw) (fid f)) as [adj|] eqn:Hm.
  - apply matching_elem_of in Hm as [Hin _].
    case_bool_decide as Hrej; [discriminate|].
    case_bool_decide as Hdown; inversion H; subst f'; cbn [severity].
    + apply (parsed_downgrade_primary raw); assumption.
    + exact Hf.
  - inversion H; subst f'. exact Hf.
Qed.

Lemma parse_all_well_formed (outputs : list (string * string)) :
  well_formed (parse_all outputs).
Proof.
  unfold well_formed, parse_all. apply Forall_forall. intros kd Hkd.
  apply list_elem_of_In, in_map_iff in Hkd as ([k content_] & <- & _).
  cbn [snd fst]. split.
  - unfold agent_consistent. eexists _, _.
    split; [reflexivity|]. split; [reflexivity|].
    apply build_summary_consistent.
  - apply parsed_severities_primary.
Qed.

Lemma apply_parsed_well_formed (all_findings : AllFindings) (raw : string) :
  ascii_only raw ->
  well_formed all_findings ->
  well_formed (fst (_apply_adjustments all_findings
                      (_parse_validation_results raw))).
Proof.
  unfold well_formed. intros Hascii Hwf.
  rewrite apply_adjustments_fst.
  apply (Forall_adjust_all
           (fun d => agent_consistent d
                     /\ Forall (fun f => severity f ∈ primary_severities)
                          (get_findings d))).
  intros kd Hkd. rewrite Forall_forall in Hwf.
  destruct (Hwf kd Hkd) as [_ Hprim].
  assert (Hprim' : Forall (fun f => severity f ∈ primary_severities)
                     (omap (adjust_one (_parse_validation_results raw))
                        (get_findings (snd kd)))).
  { apply Forall_forall. intros f' Hf'.
    apply list_elem_of_omap in Hf' as (f & Hf & Hadj).
    rewrite Forall_forall in Hprim.
    eapply adjust_one_primary; [exact Hascii| |exact Hadj].
    apply Hprim. exact Hf. }
  split.
  - unfold agent_consistent, adjust_agent. eexists _, _.
    split; [reflexivity|]. split; [reflexivity|].
    apply recount_consistent.
    eapply Forall_impl; [exact Hprim'|].
    intros f Hf. apply primary_canonical. exact Hf.
  - unfold adjust_agent, get_findings at 1. cbn [findings default].
    unfold id. exact Hprim'.
Qed.

Lemma validated_well_formed (outputs : list (string * string)) (raw : string) :
  ascii_only raw ->
  well_formed (validated outputs raw).
Proof.
  intros Hascii. apply apply_parsed_well_formed; [exact Hascii|].
  apply parse_all_well_formed.
Qed.

(** Whatever the validator's answer, the summaries of a validated run
    agree with its findings lists. *)
Lemma validated_consistent (outputs : list (string * string)) (raw : string) :
  Forall (fun kd => agent_consistent (snd kd)) (validated outputs raw).
Proof.
  unfold validated. rewrite apply_adjustments_fst.
  apply (Forall_adjust_all agent_consistent). intros kd Hkd.
  unfold agent_consistent. eexists _, _.
  split; [reflexivity|]. split; [reflexivity|].
  apply recount_consistent. apply omap_adjust_canonical.
  - apply parsed_adjustments_canonical.
  - pose proof (parse_all_canonical outputs) as Hall.
    rewrite Forall_forall in Hall. exact (Hall kd Hkd).
Qed.

End ShapeProofs.

Section TotalsProofs.
Import Synthesis Spec Decisions Shape.

Lemma summed_skip (key : string) (d : AgentData) :
  negb (agent_truthy d) || negb (summary_truthy (summary d)) = true ->
  get0 (default ∅ (summary d)) key = 0.
Proof.
  intros H. apply orb_true_iff in H as [H|H]; apply negb_true_iff in H.
  - rewrite (agent_falsy_no_summary d H). reflexivity.
  - apply get0_falsy_summary. exact H.
Qed.

Lemma report_aggregate_summed (all_findings : AllFindings)
    (totals : Report.Totals) :
  Report.aggregate all_findings totals
  = {| Report.t_blockers :=
         Report.t_blockers totals + summed "blockers" all_findings;
       Report.t_high := Report.t_high totals + summed "high" all_findings;
       Report.t_medium :=
         Report.t_medium totals + summed "medium" all_findings;
       Report.t_low := Report.t_low totals + summed "low" all_findings;
       Report.t_total := Report.t_total totals + summed "total" all_findings |}.
Proof.
  revert totals. induction all_findings as [|[k d] rest IH]; intros totals.
  - cbn [Report.aggregate summed foldr]. destruct totals. cbn.
    f_equal; lia.
  - cbn [Report.aggregate]. unfold summed in *. cbn [foldr snd].
    destruct (negb (agent_truthy d) || negb (summary_truthy (summary d)))
      eqn:E.
    + rewrite IH, !(summed_skip _ d E). f_equal; lia.
    + rewrite IH. cbn [Report.t_blockers Report.t_high Report.t_medium
                       Report.t_low Report.t_total].
      f_equal; lia.
Qed.

Lemma archive_aggregate_summed (all_findings : AllFindings) (b h m l : Z) :
  Archive.aggregate all_findings b h m l
  = (b + summed "blockers" all_findings, h + summed "high" all_findings,
     m + summed "medium" all_findings, l + summed "low" all_findings).
Proof.
  revert b h m l. induction all_findings as [|[k d] rest IH]; intros b h m l.
  - cbn [Archive.aggregate summed foldr]. rewrite !Z.add_0_r. reflexivity.
  - cbn [Archive.aggregate]. unfold summed in *. cbn [foldr snd].
    destruct (agent_truthy d && summary_truthy (summary d)) eqn:E.
    + rewrite IH, !Z.add_assoc. reflexivity.
    + assert (E' : negb (agent_truthy d)
                   || negb (summary_truthy (summary d)) = true).
      { destruct (agent_truthy d), (summary_truthy (summary d));
          cbn in *; congruence. }
      rewrite IH, !(summed_skip _ d E'), !Z.add_0_l. reflexivity.
Qed.

Lemma occurrences_app (sev : string) (l k : list string) :
  occurrences sev (l ++ k) = occurrences sev l + occurrences sev k.
Proof.
  induction l as [|x l IH]; [reflexivity|].
  cbn [app occurrences]. rewrite IH. lia.
Qed.

Lemma consistent_counter (d : AgentData) (key sev : string) :
  agent_consistent d -> counter_of key sev ->
  get0 (default ∅ (summary d)) key
  = occurrences sev (map severity (get_findings d)).
Proof.
  intros (fs & s & Hfs & Hs & Htot & Hb & Hh & Hm & Hl) Hkey.
  unfold get_findings. rewrite Hfs, Hs. cbn [default]. unfold id, get0.
  unfold counter_of in Hkey.
  repeat (apply elem_of_cons in Hkey as [Hkey|Hkey];
          [inversion Hkey; subst key sev|]).
  - rewrite Hb. reflexivity.
  - rewrite Hh. reflexivity.
  - rewrite Hm. reflexivity.
  - rewrite Hl. reflexivity.
  - inversion Hkey.
Qed.

Lemma consistent_total (d : AgentData) :
  agent_consistent d ->
  get0 (default ∅ (summary d)) "total"
  = Z.of_nat (length (get_findings d)).
Proof.
  intros (fs & s & Hfs & Hs & Htot & _).
  unfold get_findings. rewrite Hfs, Hs. cbn [default]. unfold id, get0.
  rewrite Htot, length_map. reflexivity.
Qed.

Lemma summed_findings_of (all_findings : AllFindings) (key sev : string) :
  Forall (fun kd => agent_consistent (snd kd)) all_findings ->
  counter_of key sev ->
  summed key all_findings = findings_of sev all_findings.
Proof.
  intros Hall Hkey. unfold summed, findings_of, all_of.
  induction Hall as [|[k d] rest Hd Hrest IH]; [reflexivity|].
  cbn [foldr flat_map snd]. rewrite map_app, occurrences_app, <- IH.
  rewrite (consistent_counter d key sev Hd Hkey). reflexivity.
Qed.

Lemma summed_total (all_findings : AllFindings) :
  Forall (fun kd => agent_consistent (snd kd)) all_findings ->
  summed "total" all_findings = Z.of_nat (length (all_of all_findings)).
Proof.
  intros Hall. unfold summed, all_of.
  induction Hall as [|[k d] rest Hd Hrest IH]; [reflexivity|].
  cbn [foldr flat_map snd]. rewrite length_app, IH.
  rewrite (consistent_total d Hd). lia.
Qed.

Lemma well_formed_consistent (all_findings : AllFindings) :
  well_formed all_findings ->
  Forall (fun kd => agent_consistent (snd kd)) all_findings.
Proof.
  unfold well_formed. intros H. eapply Forall_impl; [exact H|].
  intros kd [Hc _]. exact Hc.
Qed.

Lemma verdict_summed (all_findings : AllFindings) :
  calculate_verdict all_findings
  = (if 0 <? summed "blockers" all_findings then HOLD
     else if 3 <? summed "high" all_findings then CONDITIONAL
     else SHIP).
Proof.
  unfold calculate_verdict. rewrite count_totals_summed.
  rewrite !Z.add_0_l. reflexivity.
Qed.

End TotalsProofs.

Section OutputProofs.
Import Synthesis Spec Decisions Shape.

Lemma consistent_truthy (d : AgentData) :
  agent_consistent d -> agent_truthy d = true.
Proof.
  intros (fs & s & Hfs & Hs & _). unfold agent_truthy. rewrite Hfs, Hs.
  cbn. rewrite !orb_true_r. reflexivity.
Qed.

Lemma gather_consistent (all_findings : AllFindings) :
  Forall (fun kd => agent_consistent (snd kd)) all_findings ->
  map fst (Report.gather all_findings) = all_of all_findings.
Proof.
  intros Hall. unfold all_of.
  induction Hall as [|[k d] rest Hd Hrest IH]; [reflexivity|].
  cbn [Report.gather flat_map snd]. cbn [snd] in Hd.
  rewrite (consistent_truthy d Hd). cbn [negb].
  rewrite map_app, IH, map_map. cbn [fst]. rewrite map_id. reflexivity.
Qed.

Lemma occurrences_primary (sevs : list string) :
  Forall (fun s => s ∈ primary_severities) sevs ->
  occurrences "BLOCKER" sevs + occurrences "HIGH" sevs
    + occurrences "MEDIUM" sevs + occurrences "LOW" sevs
  = Z.of_nat (length sevs).
Proof.
  intros Hall. induction Hall as [|s sevs Hs Hrest IH]; [reflexivity|].
  cbn [occurrences length]. rewrite Nat2Z.inj_succ.
  unfold primary_severities in Hs.
  repeat (apply elem_of_cons in Hs as [->|Hs]);
    [| | | |inversion Hs];
    repeat case_bool_decide; try congruence; lia.
Qed.

Lemma well_formed_primary (all_findings : AllFindings) :
  well_formed all_findings ->
  Forall (fun s => s ∈ primary_severities)
    (map severity (all_of all_findings)).
Proof.
  unfold well_formed, all_of. intros Hwf.
  induction Hwf as [|[k d] rest [_ Hd] Hrest IH]; [constructor|].
  cbn [flat_map snd]. rewrite map_app. apply Forall_app. split; [|exact IH].
  apply Forall_fmap. exact Hd.
Qed.

(** X4.  After the parser, and after the validator has applied the
    adjustments of any answer, the verdict is a function of the findings
    that are listed: HOLD exactly when some finding is a BLOCKER,
    otherwise CONDITIONAL exactly when more than three findings are HIGH,
    otherwise SHIP.  The same holds of any agent-results map whose
    summaries agree with its findings lists. *)
Theorem verdict_reflects_findings :
  let by_findings := fun all_findings =>
    if 0 <? findings_of "BLOCKER" all_findings then HOLD
    else if 3 <? findings_of "HIGH" all_findings then CONDITIONAL
    else SHIP in
  (forall outputs : list (string * string),
     calculate_verdict (parse_all outputs) = by_findings (parse_all outputs))
  /\ (forall (outputs : list (string * string)) (raw : string),
        calculate_verdict (validated outputs raw)
        = by_findings (validated outputs raw))
  /\ (forall all_findings : AllFindings,
        Forall (fun kd => agent_consistent (snd kd)) all_findings ->
        calculate_verdict all_findings = by_findings all_findings).
Proof.
  intros by_findings.
  assert (Hgen : forall all_findings : AllFindings,
             Forall (fun kd => agent_consistent (snd kd)) all_findings ->
             calculate_verdict all_findings = by_findings all_findings).
  { intros all_findings Hall. rewrite verdict_summed. unfold by_findings.
    rewrite (summed_findings_of all_findings "blockers" "BLOCKER" Hall),
      (summed_findings_of all_findings "high" "HIGH" Hall);
      [reflexivity|unfold counter_of; repeat constructor..]. }
  split; [|split; [|exact Hgen]].
  - intros outputs. apply Hgen, well_formed_consistent, parse_all_well_formed.
  - intros outputs raw.
    apply Hgen, validated_consistent.
Qed.

(** X5.  The summary table of the report and the summary of the run
    archive are computed by two loops; they agree on the four severity
    counters for every input, and the verdict is the one the report's
    own BLOCKER and HIGH rows call for.  The archive's total is the sum
    of its four counters, the report's total the sum of the agents'
    totals.  On an agent-results map in which every finding carries one
    of the four severities and every summary agrees with its findings
    list, both totals are the number of findings listed and each
    counter is the number of findings of its severity; the results of
    the parser are such a map, and so are they after the validator has
    applied the adjustments of an answer written in ASCII.  (Outside
    ASCII a validator answer can give a finding a severity that is none
    of the four; the archive's total then falls short of the number of
    findings.) *)
Theorem report_and_archive_agree :
  (forall all_findings : AllFindings,
     let totals := Report.report_totals all_findings in
     let archive := Archive.archive_summary all_findings in
     (archive !! "blockers" = Some (Report.t_blockers totals)
      /\ archive !! "high" = Some (Report.t_high totals)
      /\ archive !! "medium" = Some (Report.t_medium totals)
      /\ archive !! "low" = Some (Report.t_low totals)
      /\ archive !! "total"
         = Some (Report.t_blockers totals + Report.t_high totals
                 + Report.t_medium totals + Report.t_low totals))
     /\ calculate_verdict all_findings
        = (if 0 <? Report.t_blockers totals then HOLD
           else if 3 <? Report.t_high totals then CONDITIONAL
           else SHIP)
     /\ (well_formed all_findings ->
         Report.t_blockers totals = findings_of "BLOCKER" all_findings
         /\ Report.t_high totals = findings_of "HIGH" all_findings
         /\ Report.t_medium totals = findings_of "MEDIUM" all_findings
         /\ Report.t_low totals = findings_of "LOW" all_findings
         /\ Report.t_total totals = Z.of_nat (length (all_of all_findings))
         /\ archive !! "total" = Some (Report.t_total totals)))
  /\ (forall outputs : list (string * string),
        well_formed (parse_all outputs))
  /\ (forall (outputs : list (string * string)) (raw : string),
        Chars.ascii_only raw -> well_formed (validated outputs raw)).
Proof.
  split; [|split; [exact parse_all_well_formed|exact validated_well_formed]].
  intros all_findings totals archive.
  assert (Ht : totals
               = {| Report.t_blockers := summed "blockers" all_findings;
                    Report.t_high := summed "high" all_findings;
                    Report.t_medium := summed "medium" all_findings;
                    Report.t_low := summed "low" all_findings;
                    Report.t_total := summed "total" all_findings |}).
  { unfold totals, Report.report_totals. rewrite report_aggregate_summed.
    cbn [Report.t_blockers Report.t_high Report.t_medium Report.t_low
         Report.t_total]. rewrite !Z.add_0_l. reflexivity. }
  assert (Ha : archive
               = {[ "blockers" := summed "blockers" all_findings;
                    "high" := summed "high" all_findings;
                    "medium" := summed "medium" all_findings;
                    "low" := summed "low" all_findings;
                    "total" := summed "blockers" all_findings
                               + summed "high" all_findings
                               + summed "medium" all_findings
                               + summed "low" all_findings ]}).
  { unfold archive, Archive.archive_summary.
    rewrite archive_aggregate_summed, !Z.add_0_l. reflexivity. }
  assert (Htotal : archive !! "total"
      = Some (Report.t_blockers totals + Report.t_high totals
              + Report.t_medium totals + Report.t_low totals)).
  { rewrite Ha, Ht. cbn [Report.t_blockers Report.t_high Report.t_medium
                          Report.t_low]. simplify_map_eq. reflexivity. }
  split; [|split].
  - rewrite Ha, Ht. cbn [Report.t_blockers Report.t_high Report.t_medium
                          Report.t_low Report.t_total].
    repeat split; simplify_map_eq; reflexivity.
  - rewrite verdict_summed, Ht. reflexivity.
  - intros Hwf. pose proof (well_formed_consistent _ Hwf) as Hall.
    assert (Hb := summed_findings_of all_findings "blockers" "BLOCKER" Hall).
    assert (Hh := summed_findings_of all_findings "high" "HIGH" Hall).
    assert (Hm := summed_findings_of all_findings "medium" "MEDIUM" Hall).
    assert (Hl := summed_findings_of all_findings "low" "LOW" Hall).
    unfold counter_of in Hb, Hh, Hm, Hl.
    specialize (Hb ltac:(set_solver)). specialize (Hh ltac:(set_solver)).
    specialize (Hm ltac:(set_solver)). specialize (Hl ltac:(set_solver)).
    pose proof (summed_total all_findings Hall) as Htot.
    rewrite Htotal. rewrite Ht.
    cbn [Report.t_blockers Report.t_high Report.t_medium Report.t_low
         Report.t_total].
    split; [exact Hb|]. split; [exact Hh|]. split; [exact Hm|].
    split; [exact Hl|]. split; [exact Htot|].
    f_equal. rewrite Htot, Hb, Hh, Hm, Hl. unfold findings_of.
    rewrite <- (length_map severity).
    apply occurrences_primary, well_formed_primary. exact Hwf.
Qed.

End OutputProofs.

Section JunitProofs.
Import Synthesis Spec Decisions Shape Failing Junit.

Lemma failing_cons (fail_on : list string) (f : JFinding)
    (fs : list JFinding) :
  failing fail_on (f :: fs)
  = (if bool_decide (j_severity f ∈ fail_on) then 1 else 0)
    + failing fail_on fs.
Proof.
  unfold failing. rewrite filter_cons.
  case_bool_decide as Hd; destruct (decide (j_severity f ∈ fail_on));
    try contradiction; cbn [length]; lia.
Qed.

Lemma failing_app (fail_on : list string) (fs gs : list JFinding) :
  failing fail_on (fs ++ gs) = failing fail_on fs + failing fail_on gs.
Proof. unfold failing. rewrite filter_app, length_app. lia. Qed.

Lemma failing_bounds (fail_on : list string) (fs : list JFinding) :
  0 <= failing fail_on fs <= Z.of_nat (length fs).
Proof.
  unfold failing. pose proof (length_filter (fun f => j_severity f ∈ fail_on) fs).
  lia.
Qed.

Lemma count_suite_spec (fail_on : list string) (fs : list JFinding)
    (t f : Z) :
  count_suite (list_to_set fail_on) fs t f
  = (t + Z.of_nat (length fs), f + failing fail_on fs).
Proof.
  revert t f. induction fs as [|x fs IH]; intros t f.
  - cbn [count_suite length]. unfold failing. cbn.
    rewrite !Z.add_0_r. reflexivity.
  - cbn [count_suite]. rewrite failing_cons. cbn [length].
    rewrite Nat2Z.inj_succ.
    case_bool_decide as Hin; rewrite elem_of_list_to_set in Hin;
      case_bool_decide; try contradiction; rewrite IH; f_equal; lia.
Qed.

Lemma count_suites_spec (fail_on : list string)
    (all_findings : list (string * list JFinding)) (t f : Z) :
  count_suites (list_to_set fail_on) all_findings t f
  = (t + Z.of_nat (length (concat (map snd all_findings))),
     f + failing fail_on (concat (map snd all_findings))).
Proof.
  revert t f. induction all_findings as [|[k fs] rest IH]; intros t f.
  - cbn. unfold failing. cbn. rewrite !Z.add_0_r. reflexivity.
  - cbn [count_suites map snd concat].
    destruct fs as [|x fs].
    + rewrite IH. reflexivity.
    + rewrite count_suite_spec, IH, length_app, failing_app.
      f_equal; lia.
Qed.

Lemma convert_consistent (all_findings : AllFindings) :
  Forall (fun kd => agent_consistent (snd kd)) all_findings ->
  concat (map snd (convert_parsed_findings_to_junit all_findings))
  = map convert_finding (all_of all_findings).
Proof.
  intros Hall. unfold all_of, convert_parsed_findings_to_junit.
  induction Hall as [|[k d] rest Hd Hrest IH]; [reflexivity|].
  cbn [map snd fst concat flat_map]. cbn [snd] in Hd.
  rewrite (consistent_truthy d Hd), IH, map_app. reflexivity.
Qed.

Lemma failing_default (fs : list Finding) :
  failing ["BLOCKER"; "HIGH"] (map convert_finding fs)
  = occurrences "BLOCKER" (map severity fs)
    + occurrences "HIGH" (map severity fs).
Proof.
  induction fs as [|f fs IH]; [reflexivity|].
  cbn [map]. rewrite failing_cons, IH. cbn [occurrences convert_finding j_severity].
  case_bool_decide as Hin.
  - apply elem_of_cons in Hin as [Hin|Hin].
    + rewrite Hin. repeat case_bool_decide; try congruence; lia.
    + apply elem_of_cons in Hin as [Hin|Hin]; [|inversion Hin].
      rewrite Hin. repeat case_bool_decide; try congruence; lia.
  - repeat case_bool_decide; try lia; exfalso; apply Hin; set_solver.
Qed.

(** X6.  The JUnit counters count findings.  For any input,
    [total_tests] is the number of findings handed over, [failures] the
    number of them whose severity is one of [fail_on] (BLOCKER and HIGH
    when none is given), and [passed] the difference, never negative.
    On the findings of a run, converted by
    [convert_parsed_findings_to_junit], [total_tests] is the number of
    findings listed and [failures] the number of BLOCKER and HIGH ones:
    a HOLD verdict always comes with a failure, and no failure means
    SHIP (one to three HIGH findings ship and fail). *)
Theorem junit_counts_findings :
  (forall (all_findings : list (string * list JFinding))
          (fail_on : option (list string)),
     let result := export_junit_results all_findings fail_on in
     let tests := concat (map snd all_findings) in
     total_tests result = Z.of_nat (length tests)
     /\ failures result = failing (default ["BLOCKER"; "HIGH"] fail_on) tests
     /\ passed result = total_tests result - failures result
     /\ 0 <= failures result <= total_tests result)
  /\ (forall all_findings : AllFindings,
        well_formed all_findings ->
        let result :=
          export_junit_results
            (convert_parsed_findings_to_junit all_findings) None in
        total_tests result = Z.of_nat (length (all_of all_findings))
        /\ failures result
           = findings_of "BLOCKER" all_findings
             + findings_of "HIGH" all_findings
        /\ (calculate_verdict all_findings = HOLD -> 0 < failures result)
        /\ (failures result = 0 -> calculate_verdict all_findings = SHIP)).
Proof.
  assert (Hgen : forall (all_findings : list (string * list JFinding))
          (fail_on : option (list string)),
     let result := export_junit_results all_findings fail_on in
     let tests := concat (map snd all_findings) in
     total_tests result = Z.of_nat (length tests)
     /\ failures result = failing (default ["BLOCKER"; "HIGH"] fail_on) tests
     /\ passed result = total_tests result - failures result
     /\ 0 <= failures result <= total_tests result).
  { intros all_findings fail_on result tests.
    subst result. unfold export_junit_results.
    rewrite count_suites_spec. cbn [total_tests failures passed].
    rewrite !Z.add_0_l. fold tests.
    pose proof (failing_bounds (default ["BLOCKER"; "HIGH"] fail_on) tests).
    repeat split; lia. }
  split; [exact Hgen|].
  intros all_findings Hwf result.
  pose proof (well_formed_consistent _ Hwf) as Hall.
  destruct (Hgen (convert_parsed_findings_to_junit all_findings) None)
    as (Ht & Hf & _ & _).
  fold result in Ht, Hf.
  rewrite (convert_consistent all_findings Hall) in Ht, Hf.
  rewrite length_map in Ht. cbn [default] in Hf. unfold id in Hf.
  rewrite failing_default in Hf. fold (findings_of "BLOCKER" all_findings) in Hf.
  fold (findings_of "HIGH" all_findings) in Hf.
  assert (Hv : calculate_verdict all_findings
               = (if 0 <? findings_of "BLOCKER" all_findings then HOLD
                  else if 3 <? findings_of "HIGH" all_findings then CONDITIONAL
                  else SHIP)).
  { rewrite verdict_summed.
    rewrite (summed_findings_of all_findings "blockers" "BLOCKER" Hall),
      (summed_findings_of all_findings "high" "HIGH" Hall);
      [reflexivity|unfold counter_of; repeat constructor..]. }
  assert (Hnn : 0 <= findings_of "BLOCKER" all_findings
                /\ 0 <= findings_of "HIGH" all_findings).
  { unfold findings_of. generalize (map severity (all_of all_findings)).
    intros l. split; induction l as [|x l IH]; cbn [occurrences];
      try lia; case_bool_decide; lia. }
  split; [exact Ht|]. split; [exact Hf|]. split.
  - rewrite Hv, Hf.
    destruct (0 <? findings_of "BLOCKER" all_findings) eqn:E.
    + intros _. apply Z.ltb_lt in E. lia.
    + destruct (3 <? findings_of "HIGH" all_findings); discriminate.
  - rewrite Hv, Hf. intros H0.
    destruct (0 <? findings_of "BLOCKER" all_findings) eqn:E;
      [apply Z.ltb_lt in E; lia|].
    destruct (3 <? findings_of "HIGH" all_findings) eqn:E2;
      [apply Z.ltb_lt in E2; lia|reflexivity].
Qed.

End JunitProofs.

Section StableProofs.
Import Scanner Ties.

Context {A : Type}.
Variable le : A -> A -> bool.
Hypothesis le_trans :
  forall x y z, le x y = true -> le y z = true -> le x z = true.

Lemma insert_by_stable (z x : A) (l : list A) :
  filter (fun y => tie le z y = true) (insert_by le x l)
  = filter (fun y => tie le z y = true) (x :: l).
Proof.
  induction l as [|y l IH]; cbn [insert_by]; [reflexivity|].
  destruct (le x y) eqn:E; [reflexivity|].
  rewrite filter_cons, IH, !filter_cons.
  destruct (decide (tie le z y = true)) as [Hy|Hy];
    destruct (decide (tie le z x = true)) as [Hx|Hx]; try reflexivity.
  exfalso. unfold tie in Hx, Hy.
  apply andb_true_iff in Hx as [_ Hxz]. apply andb_true_iff in Hy as [Hzy _].
  rewrite (le_trans x z y Hxz Hzy) in E. discriminate.
Qed.

(** The sort is stable: elements that tie keep their order. *)
Lemma sort_by_stable (z : A) (l : list A) :
  filter (fun y => tie le z y = true) (sort_by le l)
  = filter (fun y => tie le z y = true) l.
Proof.
  induction l as [|x l IH]; [reflexivity|].
  cbn [sort_by]. rewrite insert_by_stable, !filter_cons, IH. reflexivity.
Qed.

End StableProofs.

Section ReportOrderProofs.
Import Synthesis Spec Decisions Shape Ties Report.

Lemma by_severity_total (x y : Tagged) :
  by_severity x y = true \/ by_severity y x = true.
Proof. unfold by_severity. rewrite !Z.leb_le. lia. Qed.

Lemma by_severity_trans (x y z : Tagged) :
  by_severity x y = true -> by_severity y z = true -> by_severity x z = true.
Proof. unfold by_severity. rewrite !Z.leb_le. lia. Qed.

Lemma tie_by_severity (x y : Tagged) :
  tie by_severity x y = true <-> rank y = rank x.
Proof.
  unfold tie, by_severity. rewrite andb_true_iff, !Z.leb_le. lia.
Qed.

Lemma filter_ext_iff {B : Type} (P Q : B -> Prop)
    `{!forall x, Decision (P x)} `{!forall x, Decision (Q x)} (l : list B) :
  (forall x, P x <-> Q x) -> filter P l = filter Q l.
Proof.
  intros Hiff. induction l as [|x l IH]; [reflexivity|].
  rewrite !filter_cons, IH.
  destruct (decide (P x)) as [Hp|Hp], (decide (Q x)) as [Hq|Hq];
    try reflexivity; exfalso; specialize (Hiff x); tauto.
Qed.

(** X7.  The findings detail of the report lists every finding of every
    agent exactly once, in the order BLOCKER, HIGH, MEDIUM, LOW, then
    any other severity; findings of the same rank keep the order of the
    agents and, within an agent, of the findings list. *)
Theorem report_detail_order (all_findings : AllFindings) :
  let sorted := all_sorted all_findings in
  sorted ≡ₚ gather all_findings
  /\ StronglySorted (fun x y => rank x <= rank y) sorted
  /\ (forall r : Z,
        filter (fun x => rank x = r) sorted
        = filter (fun x => rank x = r) (gather all_findings))
  /\ (forall x, x ∈ sorted -> 0 <= rank x <= 4)
  /\ (findings_detail all_findings = [] <-> gather all_findings = []).
Proof.
  intros sorted. subst sorted. unfold all_sorted.
  split; [apply sort_by_Permutation|].
  split; [|split; [|split]].
  - pose proof (sort_by_sorted by_severity by_severity_total
                  by_severity_trans (gather all_findings)) as Hs.
    induction Hs as [|x l Hs IH Hx]; constructor; [exact IH|].
    eapply Forall_impl; [exact Hx|].
    intros y Hy. unfold by_severity in Hy. apply Z.leb_le in Hy. exact Hy.
  - intros r.
    destruct (decide (Exists (fun z => rank z = r) (gather all_findings)))
      as [Hex|Hno];
      [apply Exists_exists in Hex as (z & _ & Hz)
      |rewrite Exists_exists in Hno].
    + rewrite (filter_ext_iff (fun x => rank x = r)
                 (fun x => tie by_severity z x = true)
                 (Scanner.sort_by by_severity (gather all_findings))),
        (filter_ext_iff (fun x => rank x = r)
                 (fun x => tie by_severity z x = true)
                 (gather all_findings));
        try (intros x; rewrite tie_by_severity; split; congruence).
      apply sort_by_stable. exact by_severity_trans.
    + assert (Hnil : forall l : list Tagged,
                 (forall x, x ∈ l -> rank x <> r) ->
                 filter (fun x => rank x = r) l = []).
      { intros l Hl. induction l as [|x l IH]; [reflexivity|].
        rewrite filter_cons.
        destruct (decide (rank x = r)) as [Hx|Hx].
        - exfalso. apply (Hl x); [left|exact Hx].
        - apply IH. intros y Hy. apply Hl. right. exact Hy. }
      rewrite !Hnil; [reflexivity| |].
      * intros x Hx Hr. apply Hno. exists x. split; assumption.
      * intros x Hx Hr. apply Hno. exists x. split; [|exact Hr].
        rewrite (sort_by_Permutation by_severity) in Hx. exact Hx.
  - intros x _. unfold rank, severity_order.
    repeat case_bool_decide; lia.
  - unfold findings_detail, all_sorted.
    pose proof (sort_by_Permutation by_severity
                  (gather all_findings)) as Hp.
    destruct (Scanner.sort_by by_severity (gather all_findings))
      as [|x l] eqn:E.
    + apply Permutation_nil_l in Hp. rewrite Hp. tauto.
    + split; [discriminate|]. intros Hg. rewrite Hg in Hp.
      apply Permutation_nil_r in Hp. discriminate.
Qed.

End ReportOrderProofs.

Section ExhaustionProofs.
Import Provider Spec Failures.

Variable max_attempts : Z.
Variable retry_delay : Z.
Variable env : Environ.
Variable complete : Z -> CompletionResult.

(** A run in which every attempt below [limit] sleeps and every attempt
    from [limit] on returns. *)
Lemma retry_loop_exhausts (base limit : Z) (fuel : nat) (attempt : Z)
    (last_result : option CompletionResult) (slept : list Z) :
  (forall i, attempt <= i -> i < limit ->
     attempt_step max_attempts retry_delay env i (complete i)
     = Sleep (base * Z.min i 3)) ->
  (forall i, attempt <= i -> limit <= i ->
     attempt_step max_attempts retry_delay env i (complete i)
     = Return (sanitized env (complete i))) ->
  limit <= Z.max max_attempts 5 ->
  Z.of_nat fuel = Z.max max_attempts 5 - attempt + 1 ->
  (0 < fuel)%nat ->
  retry_loop max_attempts retry_delay env complete fuel attempt
    last_result slept
  = {| returned := sanitized env (complete (Z.max attempt limit));
       calls := Z.max attempt limit;
       sleeps :=
         slept ++ ((fun i => base * Z.min i 3)
                     <$> seqZ attempt (Z.max attempt limit - attempt)) |}.
Proof.
  intros Hsleep Hret Hlimit. revert attempt last_result slept Hsleep Hret.
  induction fuel as [|fuel IH];
    intros attempt last_result slept Hsleep Hret Hfuel Hpos; [lia|].
  cbn [retry_loop].
  destruct (decide (attempt < limit)) as [Hlt|Hge].
  - rewrite (Hsleep attempt) by lia. cbv zeta.
    destruct fuel as [|fuel']; [lia|].
    rewrite IH; [| | |lia|lia].
    + replace (Z.max (attempt + 1) limit) with (Z.max attempt limit) by lia.
      f_equal. rewrite <- app_assoc. f_equal.
      rewrite (seqZ_cons attempt) by lia. cbn [fmap list_fmap app].
      f_equal. f_equal. f_equal; lia.
    + intros i Hi1 Hi2. apply Hsleep; lia.
    + intros i Hi1 Hi2. apply Hret; lia.
  - rewrite (Hret attempt) by lia. cbv zeta.
    replace (Z.max attempt limit) with attempt by lia.
    rewrite Z.sub_diag. cbn. rewrite app_nil_r. reflexivity.
Qed.

End ExhaustionProofs.

Section FailureCostProofs.
Import Provider Spec Failures.

(** X8.  What a provider that keeps failing costs.  When every response
    is a server error or a timeout, [complete_with_retry] makes exactly
    as many calls as configured (one when fewer than one is configured),
    sleeps the configured delay times 1, 2, 3, 3, ... in between, and
    returns the last response, sanitized.  When every response is a rate
    limit, it makes max(configured, 5) calls and sleeps 30, 60, 90, 90,
    ... seconds in between. *)
Theorem persistent_failure_cost (max_attempts retry_delay : Z)
    (env : Environ) (complete : Z -> CompletionResult) :
  let run := complete_with_retry max_attempts retry_delay env complete in
  ((forall i, 1 <= i -> server_failure (complete i)) ->
   let n := Z.max 1 max_attempts in
   run = {| returned := sanitized env (complete n);
            calls := n;
            sleeps := backoff retry_delay n |})
  /\ ((forall i, 1 <= i -> rate_limited (complete i)) ->
      let n := Z.max max_attempts 5 in
      run = {| returned := sanitized env (complete n);
               calls := n;
               sleeps := backoff 30 n |}).
Proof.
  intros run. subst run. unfold complete_with_retry, rate_limit_max, backoff.
  split.
  - intros Hall. cbv zeta.
    rewrite (retry_loop_exhausts max_attempts retry_delay env complete
               retry_delay max_attempts); [reflexivity| | |lia|lia|lia].
    + intros i Hi Hlt. destruct (Hall i Hi) as (Hs & Hc & Hr & Hv).
      apply (step_server_error max_attempts retry_delay env i (complete i)
               Hs Hc Hr Hv). exact Hlt.
    + intros i Hi Hge. destruct (Hall i Hi) as (Hs & Hc & Hr & Hv).
      apply (step_server_error max_attempts retry_delay env i (complete i)
               Hs Hc Hr Hv). exact Hge.
  - intros Hall. cbv zeta.
    rewrite (retry_loop_exhausts max_attempts retry_delay env complete
               30 (Z.max max_attempts 5)); [|  | |lia|lia|lia].
    + replace (Z.max 1 (Z.max max_attempts 5)) with (Z.max max_attempts 5)
        by lia. reflexivity.
    + intros i Hi Hlt. destruct (Hall i Hi) as (Hs & Hc & Hr).
      apply (step_rate_limit max_attempts retry_delay env i (complete i)
               Hs Hc Hr). exact Hlt.
    + intros i Hi Hge. destruct (Hall i Hi) as (Hs & Hc & Hr).
      apply (step_rate_limit max_attempts retry_delay env i (complete i)
               Hs Hc Hr). exact Hge.
Qed.

(** With the default configuration (3 attempts, 5 seconds): a server
    that is down costs 3 calls and 15 seconds, a rate limit 5 calls and
    270 seconds. *)
Lemma default_failure_cost :
  (calls (complete_with_retry 3 5 Examples.ann Samples.down_complete) = 3
   /\ sleeps (complete_with_retry 3 5 Examples.ann Samples.down_complete)
      = [5; 10])
  /\ (calls (complete_with_retry 3 5 Examples.ann Examples.limited_complete)
      = 5
      /\ sleeps (complete_with_retry 3 5 Examples.ann
                   Examples.limited_complete)
         = [30; 60; 90; 90]).
Proof.
  destruct (persistent_failure_cost 3 5 Examples.ann Samples.down_complete)
    as [Hdown _].
  destruct (persistent_failure_cost 3 5 Examples.ann
              Examples.limited_complete) as [_ Hlimited].
  split.
  - rewrite Hdown; [split; reflexivity|].
    intros i _. unfold server_failure, carries.
    repeat split; try (intros H; vm_compute in H; discriminate);
      vm_compute; reflexivity.
  - rewrite Hlimited; [split; reflexivity|].
    intros i _. unfold rate_limited, carries.
    repeat split; try (intros H; vm_compute in H; discriminate);
      vm_compute; reflexivity.
Defined.

End FailureCostProofs.

Section SanitizeProofs.
Import Re Provider Spec Strings.

Lemma sub_no_match (r : regex) (repl s : string) :
  finditer r s = [] -> sub r repl s = s.
Proof.
  intros H. unfold sub. rewrite H. cbn [splice]. apply slice_from_0.
Qed.

(** A pattern that starts with a literal matches only where the literal
    occurs. *)
Lemma finditer_literal (lit : string) (rest : regex) (s : string)
    (m : rmatch) :
  m ∈ finditer (Seq (Lit lit) rest) s -> occurs_at lit s (m_start m).
Proof.
  unfold finditer. intros Hm.
  apply scan_sound, match_at_sound in Hm.
  apply matches_Seq_inv in Hm as (j & c & Hlit & _).
  apply matches_Lit in Hlit as (_ & _ & Hchars). exact Hchars.
Qed.

Lemma finditer_no_literal (lit : string) (rest : regex) (s : string) :
  Py.contains lit s = false -> finditer (Seq (Lit lit) rest) s = [].
Proof.
  intros Hno. destruct (finditer (Seq (Lit lit) rest) s) as [|m l] eqn:E;
    [reflexivity|].
  assert (Hm : m ∈ finditer (Seq (Lit lit) rest) s) by (rewrite E; left).
  apply finditer_literal, contains_occurs_at in Hm. congruence.
Qed.

Lemma occurs_at_shift (p q s : string) (d n : nat) :
  (forall k x, String.get k p = Some x -> String.get (d + k) q = Some x) ->
  occurs_at q s n -> occurs_at p s (n + d).
Proof.
  intros Hpq Hq k x Hk. rewrite <- Nat.add_assoc. apply Hq, Hpq, Hk.
Qed.

Lemma contains_part (p q s : string) (d : nat) :
  (forall k x, String.get k p = Some x -> String.get (d + k) q = Some x) ->
  Py.contains p s = false -> Py.contains q s = false.
Proof.
  intros Hpq Hp. destruct (Py.contains q s) eqn:E; [|reflexivity].
  apply contains_spec in E as [n Hn].
  apply (occurs_at_shift p q s d n Hpq), contains_occurs_at in Hn.
  congruence.
Qed.

Lemma replace_fuel_absent (fuel : nat) (old new s : string) :
  (forall n, ~ occurs_at old s n) ->
  Py.replace_fuel fuel old new s = s.
Proof.
  revert s. induction fuel as [|fuel IH]; intros s Hno; [reflexivity|].
  cbn [Py.replace_fuel].
  destruct (String.prefix old s) eqn:Hp.
  - exfalso. apply (Hno 0%nat). apply prefix_occurs_at. exact Hp.
  - destruct s as [|a s]; [reflexivity|]. f_equal. apply IH.
    intros n Hn. apply (Hno (S n)). apply occurs_at_tail. exact Hn.
Qed.

Lemma replace_absent (s old new : string) :
  Py.contains old s = false -> Py.replace s old new = s.
Proof.
  intros Hno. unfold Py.replace. apply replace_fuel_absent.
  intros n Hn. apply contains_occurs_at in Hn. congruence.
Qed.

(** X9.  The sanitizer leaves alone a message that carries no credential
    marker: when none of [sk-], [Bearer], [api-key:] and
    [Authorization:] occurs in it, and the home directory of the
    environment (if one is set) does not occur in it either,
    [sanitize_error] returns the message unchanged. *)
Theorem sanitize_keeps_plain_messages (env : Environ) (message : string) :
  Py.contains "sk-" message = false ->
  Py.contains "Bearer" message = false ->
  Py.contains "api-key:" message = false ->
  Py.contains "Authorization:" message = false ->
  (let home := str_or (USERPROFILE env) (str_or (HOME env) "") in
   Py.truthy home = true -> Py.contains home message = false) ->
  sanitize_error env message = message.
Proof.
  intros Hsk Hbearer Hapi Hauth Hhome. unfold sanitize_error.
  destruct (negb (Py.truthy message)); [reflexivity|]. cbv zeta.
  cbn [Seqs].
  assert (Hant : Py.contains "sk-ant-" message = false).
  { apply (contains_part "sk-" "sk-ant-" message 0); [|exact Hsk].
    intros [|[|[|k]]] x Hk; cbn in Hk |- *; congruence. }
  assert (Hx : Py.contains "x-api-key:" message = false).
  { apply (contains_part "api-key:" "x-api-key:" message 2); [|exact Hapi].
    intros k x Hk. exact Hk. }
  rewrite (sub_no_match _ _ message) by (apply finditer_no_literal, Hant).
  rewrite (sub_no_match _ _ message) by (apply finditer_no_literal, Hsk).
  rewrite (sub_no_match _ _ message) by (apply finditer_no_literal, Hbearer).
  rewrite (sub_no_match _ _ message) by (apply finditer_no_literal, Hapi).
  rewrite (sub_no_match _ _ message) by (apply finditer_no_literal, Hx).
  rewrite (sub_no_match _ _ message) by (apply finditer_no_literal, Hauth).
  cbv zeta in Hhome.
  destruct (Py.truthy _); [|reflexivity].
  apply replace_absent. apply Hhome. reflexivity.
Qed.

Lemma sanitize_keeps_server_error :
  sanitize_error Examples.ann "503 Service Unavailable"
  = "503 Service Unavailable".
Proof.
  apply sanitize_keeps_plain_messages; vm_compute; reflexivity.
Defined.

End SanitizeProofs.

Section ScanProofs.
Import Re Spec Strings Chars.

Variable text : list ascii.


(** The matches of a scan lie inside the text, from the offset where the
    scan started, and none starts before the one before it has ended. *)
Lemma scan_ordered (r : regex) (fuel i : nat) :
  Forall (fun m => (i <= m_start m <= m_end m)%nat
                   /\ (m_end m <= length text)%nat)
    (scan fuel r text i)
  /\ StronglySorted (fun m1 m2 => (m_end m1 <= m_start m2)%nat)
       (scan fuel r text i).
Proof.
  revert i. induction fuel as [|fuel IH]; intros i; cbn [scan].
  - split; constructor.
  - destruct (length text <? i)%nat eqn:Hlen; [split; constructor|].
    apply Nat.ltb_ge in Hlen.
    destruct (match_at text r i) as [[j c]|] eqn:E.
    + apply match_at_sound, matches_bounds in E as [Hij Hj].
      specialize (Hj Hlen).
      destruct (IH (if (i <? j)%nat then j else S i)) as [Hall Hsorted].
      assert (Hnext : (j <= (if (i <? j)%nat then j else S i))%nat).
      { destruct (i <? j)%nat eqn:Elt; [lia|].
        apply Nat.ltb_ge in Elt. lia. }
      assert (Hnext' : (i <= (if (i <? j)%nat then j else S i))%nat) by lia.
      split.
      * constructor; [cbn [m_start m_end]; lia|].
        eapply Forall_impl; [exact Hall|].
        intros m [Hm1 Hm2]. cbn beta. lia.
      * constructor; [exact Hsorted|].
        eapply Forall_impl; [exact Hall|].
        intros m [Hm1 Hm2]. cbn [m_end]. lia.
    + destruct (IH (S i)) as [Hall Hsorted].
      split; [|exact Hsorted].
      eapply Forall_impl; [exact Hall|].
      intros m [Hm1 Hm2]. cbn beta. lia.
Qed.

End ScanProofs.

Section SearchProofs.
Import Re Spec Strings Chars.


Lemma finditer_sound (r : regex) (s : string) (m : rmatch) :
  m ∈ finditer r s ->
  matches (list_ascii_of_string s) r (m_start m) [] (m_end m) (m_groups m).
Proof.
  unfold finditer. intros Hm.
  apply scan_sound, match_at_sound in Hm. exact Hm.
Qed.


End SearchProofs.

Section ParsedShapeProofs.
Import Re Findings Spec Strings Chars Ids.








End ParsedShapeProofs.

Section ParsedFindingProofs.
Import Re Findings Spec Strings Chars Ids.








End ParsedFindingProofs.

Section NoHeadingProofs.
Import Re Findings Validator Spec Strings Chars.

Lemma is_ci_hash (b : ascii) : is_ci "#" b = true -> b = "#"%char.
Proof.
  intros H.
  assert (Hall : for_all (fun b => implb (is_ci "#" b) (Ascii.eqb b "#"))
                 = true) by (vm_compute; reflexivity).
  pose proof (for_all_spec _ Hall b) as Hb. cbv beta in Hb.
  rewrite H in Hb. cbn [implb] in Hb. apply Ascii.eqb_eq in Hb. exact Hb.
Qed.

Lemma validate_match_hashes (content : string) (m : rmatch) :
  m ∈ finditer validate_re content -> occurs_at "###" content (m_start m).
Proof.
  intros Hm. apply finditer_sound in Hm.
  unfold validate_re in Hm. cbn [Seqs] in Hm.
  apply matches_Seq_inv in Hm as (j & c & Hlit & _).
  apply matches_LitCi in Hlit as (_ & _ & Hchars).
  intros k x Hk. destruct (Hchars k x Hk) as (y & Hy & Hci).
  assert (x = "#"%char) as ->.
  { destruct k as [|[|[|k]]]; cbn in Hk; congruence. }
  apply is_ci_hash in Hci. subst y. exact Hy.
Qed.

(** X11.  A text in which [###] does not occur yields nothing: the parser
    returns no finding and a summary of zeros (with status [complete]),
    and the parser of the validator's answer returns no adjustment. *)
Theorem no_heading_no_findings (content : string) :
  Py.contains "###" content = false ->
  parse_findings_markdown content
  = {| status := Some "complete";
       summary := Some zero_summary;
       findings := Some [];
       rawMarkdown := Some content |}
  /\ _parse_validation_results content = [].
Proof.
  intros Hno. split.
  - unfold parse_findings_markdown. cbv zeta.
    unfold heading_re. cbn [Seqs].
    rewrite (finditer_no_literal "###" _ content Hno).
    cbn [collect_findings]. reflexivity.
  - unfold _parse_validation_results.
    destruct (finditer validate_re content) as [|m l] eqn:E; [reflexivity|].
    assert (Hm : m ∈ finditer validate_re content) by (rewrite E; left).
    apply validate_match_hashes, contains_occurs_at in Hm. congruence.
Qed.

Lemma plain_answer_no_findings :
  get_findings
    (parse_findings_markdown "All findings look plausible to me.") = []
  /\ _parse_validation_results "All findings look plausible to me." = [].
Proof.
  destruct (no_heading_no_findings "All findings look plausible to me.")
    as [Hp Hv]; [vm_compute; reflexivity|].
  rewrite Hp. split; [reflexivity|exact Hv].
Defined.

End NoHeadingProofs.

Section CodeBlockProofs.
Import Re Findings Spec Strings Chars Fences.

Lemma code_block_match (content : string) (m : rmatch) :
  m ∈ finditer code_block_re content ->
  occurs_at "```" content (m_start m)
  /\ occurs_at "```" content (m_end m - 3)
  /\ (m_start m + 6 <= m_end m)%nat.
Proof.
  intros Hm. apply finditer_sound in Hm.
  unfold code_block_re in Hm. cbn [Seqs] in Hm.
  apply matches_Seq_inv in Hm as (i1 & c1 & H1 & Hm).
  apply matches_Lit in H1 as (_ & Hi1 & Hopen).
  apply matches_Seq_inv in Hm as (i2 & c2 & H2 & Hm).
  apply matches_bounds in H2 as [H2 _].
  apply matches_Lit in Hm as (_ & Hend & Hclose).
  cbn in Hi1, Hend.
  split; [exact Hopen|]. split; [|lia].
  replace (m_end m - 3)%nat with i2 by lia. exact Hclose.
Qed.

(** X12.  The code-block spans of a text are well formed: every span
    begins and ends with a fence of three backticks, the two fences do
    not overlap, the span lies inside the text, and the spans follow one
    another without overlapping. *)
Theorem code_block_ranges_well_formed (content : string) :
  Forall (fenced content) (_get_code_block_ranges content)
  /\ StronglySorted (fun r1 r2 => (snd r1 <= fst r2)%nat)
       (_get_code_block_ranges content).
Proof.
  unfold _get_code_block_ranges.
  destruct (scan_ordered (list_ascii_of_string content) code_block_re
              (S (length (list_ascii_of_string content))) 0)
    as [Hall Hsorted].
  fold (finditer code_block_re content) in Hall, Hsorted.
  split.
  - apply Forall_forall. intros r Hr.
    apply list_elem_of_In, in_map_iff in Hr as (m & <- & Hm).
    apply list_elem_of_In in Hm.
    rewrite Forall_forall in Hall. destruct (Hall m Hm) as [_ Hlen].
    rewrite length_chars in Hlen.
    destruct (code_block_match content m Hm) as (Hopen & Hclose & Hsix).
    unfold fenced. cbn [fst snd]. split; [lia|]. split.
    + apply slice_chars; [reflexivity|exact Hopen].
    + apply slice_chars; [cbn; lia|exact Hclose].
  - induction Hsorted as [|m l Hs IH Hm]; cbn [map]; constructor.
    + apply IH. apply Forall_inv_tail in Hall. exact Hall.
    + apply Forall_forall. intros r Hr.
      apply list_elem_of_In, in_map_iff in Hr as (m' & <- & Hm').
      rewrite Forall_forall in Hm. cbn [fst snd].
      apply Hm. apply list_elem_of_In. exact Hm'.
Qed.

End CodeBlockProofs.

Section CompletenessProofs.
Import Re Spec Chars Simple.

Variable text : list ascii.









End CompletenessProofs.

Section IntroProofs.
Import Re Spec Chars Strings Simple.

Variable text : list ascii.







End IntroProofs.

Section FenceProofs.
Import Re Findings Spec Chars Strings Simple Headings.

Variable content : string.

Let text := list_ascii_of_string content.













End FenceProofs.

Section LayoutProofs.
Import Re Findings Spec Chars Strings Simple Headings Layout.

Variable content : string.

Let text := list_ascii_of_string content.












End LayoutProofs.

Section OccurrenceProofs.
Import Re Findings Spec Chars Strings Simple Headings Layout.

Variable content : string.

Let text := list_ascii_of_string content.




End OccurrenceProofs.

Section SkippedProofs.
Import Re Findings Spec Chars Strings Headings Layout.




End SkippedProofs.

Section SkippedSamples.
Import Re Findings Spec Chars Strings Headings Layout.



End SkippedSamples.

Section SkipProofs.
Import Validator Spec Decisions Frame Shape Synthesis Provider.

Lemma reads_high_primary (f : Finding) :
  severity f ∈ primary_severities ->
  reads_high f = true <-> severity f = "BLOCKER" \/ severity f = "HIGH".
Proof.
  unfold primary_severities, reads_high. intros Hs.
  repeat (apply elem_of_cons in Hs as [->|Hs]);
    [| | | |inversion Hs]; vm_compute; intuition congruence.
Qed.

Lemma length_filter_high (fs : list Finding) :
  Forall (fun f => severity f ∈ primary_severities) fs ->
  Z.of_nat (length (filter (fun f => reads_high f = true) fs))
  = occurrences "BLOCKER" (map severity fs)
    + occurrences "HIGH" (map severity fs).
Proof.
  intros Hall. induction Hall as [|f fs Hf Hrest IH]; [reflexivity|].
  rewrite filter_cons. cbn [map occurrences].
  pose proof (reads_high_primary f Hf) as Hiff.
  destruct (decide (reads_high f = true)) as [Hh|Hh].
  - cbn [length]. rewrite Nat2Z.inj_succ, IH.
    apply Hiff in Hh as [Hh|Hh]; rewrite Hh;
      repeat case_bool_decide; try congruence; lia.
  - rewrite IH.
    repeat case_bool_decide; try lia; exfalso; apply Hh, Hiff; auto.
Qed.

(** X13.  The validation worklist is the list of the findings that read
    as BLOCKER or HIGH whatever the case of their letters, agent by
    agent and in the order of each findings list, each with its agent's
    key and its severity in upper case.  On parsed findings it has as
    many items as the verdict counts blockers and highs. *)
Theorem worklist_lists_high_findings :
  (forall all_findings : AllFindings,
     map (fun w => (w_agent w, w_finding_id w, w_title w, w_severity w))
       (_collect_high_severity_findings all_findings)
     = flat_map
         (fun kd =>
            map (fun f => (fst kd, fid f, title f, Py.upper (severity f)))
              (filter (fun f => reads_high f = true)
                 (get_findings (snd kd))))
         all_findings
     /\ Forall (fun w => w_severity w = "BLOCKER" \/ w_severity w = "HIGH")
          (_collect_high_severity_findings all_findings))
  /\ (forall outputs : list (string * string),
        Z.of_nat (length (_collect_high_severity_findings (parse_all outputs)))
        = summed "blockers" (parse_all outputs)
          + summed "high" (parse_all outputs)).
Proof.
  split.
  - intros all_findings. split; [apply collect_spec|apply collect_severity].
  - intros outputs. rewrite length_collect.
    pose proof (parse_all_well_formed outputs) as Hwf.
    pose proof (well_formed_consistent _ Hwf) as Hall.
    rewrite (summed_findings_of _ "blockers" "BLOCKER" Hall),
      (summed_findings_of _ "high" "HIGH" Hall);
      [|unfold counter_of; repeat constructor..].
    unfold findings_of. apply length_filter_high.
    pose proof (well_formed_primary _ Hwf) as Hp.
    apply Forall_fmap in Hp. exact Hp.
Qed.

(** X14.  When no finding reads as BLOCKER or HIGH, and on a dry run, the
    validator does not depend on the provider, the calibration data or
    its instructions: it returns the agent-results map it was given,
    summaries included.  With nothing to validate every counter of the
    stats is 0; on a dry run the worklist counts as confirmed. *)
Theorem validator_skips_provider
    (build_calibration_context : string -> string)
    (validator_instructions : string)
    (provider : string -> string -> string -> CompletionResult)
    (all_findings : AllFindings) (shared_context : string) (dry_run : bool) :
  let run :=
    run_validator build_calibration_context validator_instructions provider
      all_findings shared_context dry_run in
  let worklist := _collect_high_severity_findings all_findings in
  ((forall f, f ∈ all_of all_findings -> reads_high f = false) ->
   worklist = [] /\ run = (all_findings, zero_stats))
  /\ (dry_run = true ->
      run = (all_findings, all_confirmed (Z.of_nat (length worklist)))).
Proof.
  intros run worklist. split.
  - intros Hnone.
    assert (Hw : worklist = []).
    { apply length_zero_iff_nil. unfold worklist. rewrite length_collect.
      apply length_zero_iff_nil.
      induction (all_of all_findings) as [|f fs IH]; [reflexivity|].
      rewrite filter_cons.
      destruct (decide (reads_high f = true)) as [Hh|Hh].
      - rewrite (Hnone f) in Hh by left. discriminate.
      - apply IH. intros g Hg. apply Hnone. right. exact Hg. }
    split; [exact Hw|].
    subst run. unfold run_validator. fold worklist. rewrite Hw. reflexivity.
  - intros ->. subst run. unfold run_validator. fold worklist.
    destruct worklist; reflexivity.
Qed.

End SkipProofs.

Section CalibrationPartsProofs.
Import Validator Contexts.

Variable build_calibration_context : string -> string.

Lemma first_seen_elem_of (l : list string) (a : string) :
  a ∈ first_seen l <-> a ∈ l.
Proof.
  induction l as [|b l IH]; [reflexivity|].
  cbn [first_seen]. rewrite !elem_of_cons, list_elem_of_filter, IH.
  destruct (decide (a = b)) as [->|Hne]; [tauto|]. tauto.
Qed.

Lemma first_seen_NoDup (l : list string) : NoDup (first_seen l).
Proof.
  induction l as [|b l IH]; [constructor|].
  cbn [first_seen]. constructor.
  - rewrite list_elem_of_filter. intros [Hne _]. apply Hne. reflexivity.
  - apply NoDup_filter. exact IH.
Qed.

Lemma first_seen_sublist (l : list string) : sublist (first_seen l) l.
Proof.
  induction l as [|b l IH]; [constructor|].
  cbn [first_seen]. apply sublist_skip.
  etransitivity; [apply sublist_filter|exact IH].
Qed.

Lemma calibration_parts_first_seen (seen : gset string)
    (items : list WorkItem) :
  calibration_parts build_calibration_context seen items
  = omap (context_of build_calibration_context)
      (filter (fun a => a ∉ seen) (first_seen (map w_agent items))).
Proof.
  revert seen. induction items as [|f items IH]; intros seen;
    [reflexivity|].
  cbn [calibration_parts map first_seen]. case_bool_decide as Hseen.
  - rewrite IH, filter_cons_False by (intros Hn; apply Hn; exact Hseen).
    rewrite list_filter_filter. f_equal. apply list_filter_iff.
    intros a. split; [|tauto]. intros Hn. split; [exact Hn|].
    intros ->. contradiction.
  - rewrite IH, filter_cons_True by exact Hseen.
    rewrite list_filter_filter. cbn [omap list_omap].
    unfold context_of at 2, Py.or_none.
    assert (filter (fun a => a ∉ ({[w_agent f]} ∪ seen))
              (first_seen (map w_agent items))
            = filter (fun a => (a ∉ seen) /\ a <> w_agent f)
                (first_seen (map w_agent items))) as ->.
    { apply list_filter_iff. intros a.
      rewrite not_elem_of_union, not_elem_of_singleton. tauto. }
    destruct (Py.truthy (build_calibration_context (w_agent f)));
      reflexivity.
Qed.

(** X15.  The calibration context is gathered once per agent.  Whatever the
    worklist, the parts that [run_validator] joins into the calibration
    context of the prompt are the non-empty contexts of the agents of the
    worklist, each agent asked once, in the order in which the agents
    first appear in the worklist: an agent with ten findings contributes
    its context one time, and an agent without calibration contributes
    nothing. *)
Theorem calibration_gathered_once_per_agent (items : list WorkItem) :
  let agents := first_seen (map w_agent items) in
  calibration_parts build_calibration_context ∅ items
  = omap (context_of build_calibration_context) agents
  /\ NoDup agents
  /\ (forall a, a ∈ agents <-> a ∈ map w_agent items)
  /\ sublist agents (map w_agent items).
Proof.
  cbv zeta. split; [|split; [|split]].
  - rewrite calibration_parts_first_seen. f_equal.
    induction (first_seen (map w_agent items)) as [|a l IH];
      [reflexivity|].
    rewrite filter_cons_True by apply not_elem_of_empty.
    f_equal. exact IH.
  - apply first_seen_NoDup.
  - intros a. apply first_seen_elem_of.
  - apply first_seen_sublist.
Qed.

End CalibrationPartsProofs.

Section SubsetProofs.
Import Scanner Spec Eligibility.

Variable max_files : Z.
Variable max_size_kb : Z.

Lemma filter_in_cons (t : Z) (tiers : list Z) (l : list Tiered) :
  t ∉ tiers ->
  filter (fun x => tier_of x ∈ t :: tiers) l
  ≡ₚ in_tier t l ++ filter (fun x => tier_of x ∈ tiers) l.
Proof.
  intros Ht. unfold in_tier. induction l as [|x l IH]; [reflexivity|].
  rewrite !filter_cons.
  destruct (decide (tier_of x = t)) as [Hx|Hx].
  - destruct (decide (tier_of x ∈ t :: tiers)) as [_|Hn];
      [|exfalso; apply Hn; rewrite Hx; left].
    destruct (decide (tier_of x ∈ tiers)) as [Hin|_];
      [exfalso; apply Ht; rewrite <- Hx; exact Hin|].
    cbn [app]. rewrite IH. reflexivity.
  - destruct (decide (tier_of x ∈ tiers)) as [Hin|Hn].
    + destruct (decide (tier_of x ∈ t :: tiers)) as [_|Hn'];
        [|exfalso; apply Hn'; right; exact Hin].
      rewrite IH. apply Permutation_middle.
    + destruct (decide (tier_of x ∈ t :: tiers)) as [Hin'|_]; [|exact IH].
      exfalso. apply elem_of_cons in Hin' as [Hin'|Hin']; contradiction.
Qed.

(** Pass 1 appends, for each tier it walks, a part of that tier's
    files. *)
Lemma pass1_tiers_added (tiers : list Z) (tiered sel : list Tiered) (tot : Z) :
  NoDup tiers ->
  exists added,
    fst (pass1_tiers max_files max_size_kb tiers tiered sel tot)
    = sel ++ added
    /\ added ⊆+ filter (fun x => tier_of x ∈ tiers) tiered.
Proof.
  revert sel tot. induction tiers as [|t tiers IH]; intros sel tot Hnd.
  - exists []. cbn [pass1_tiers fst]. rewrite app_nil_r. split; [reflexivity|].
    apply submseteq_nil_l.
  - cbn [pass1_tiers]. apply NoDup_cons in Hnd as [Ht Hnd].
    destruct (pass1_group_spec max_files max_size_kb (tier_group tiered t)
                (TIER_FILE_CAPS t) 0 0 sel tot)
      as (a1 & Heq & Hsub & _).
    rewrite Heq.
    destruct (IH (sel ++ a1) (tot + sum_sizes a1) Hnd) as (a2 & Heq2 & Hsub2).
    exists (a1 ++ a2). rewrite Heq2, app_assoc. split; [reflexivity|].
    rewrite (filter_in_cons t tiers tiered Ht).
    apply submseteq_app; [|exact Hsub2].
    rewrite <- tier_group_Permutation. apply sublist_submseteq. exact Hsub.
Qed.

Lemma pass1_submseteq (tiered : list Tiered) :
  fst (pass1 max_files max_size_kb tiered) ⊆+ tiered.
Proof.
  unfold pass1.
  destruct (pass1_tiers_added tier_range tiered [] 0) as (added & -> & Hsub).
  - apply (bool_decide_unpack _). vm_compute. exact I.
  - cbn [app]. etransitivity; [exact Hsub|].
    apply sublist_submseteq, sublist_filter.
Qed.

Lemma pass2_loop_sublist (remaining sel : list Tiered) (tot : Z) :
  exists added,
    pass2_loop max_files max_size_kb remaining sel tot
      = (sel ++ added, tot + sum_sizes added)
    /\ sublist added remaining.
Proof.
  revert sel tot.
  induction remaining as [|[f tier] remaining IH]; intros sel tot.
  - exists []. cbn [pass2_loop]. rewrite app_nil_r.
    change (sum_sizes []) with 0. rewrite Z.add_0_r. split; [reflexivity|].
    constructor.
  - cbn [pass2_loop].
    destruct (max_files <=? Z.of_nat (length sel)).
    { exists []. rewrite app_nil_r. change (sum_sizes []) with 0.
      rewrite Z.add_0_r. split; [reflexivity|]. apply sublist_nil_l. }
    destruct (max_bytes max_size_kb <? tot + st_size f).
    { destruct (IH sel tot) as (added & Heq & Hsub). exists added.
      split; [exact Heq|]. apply sublist_cons. exact Hsub. }
    destruct (IH (sel ++ [(f, tier)]) (tot + st_size f))
      as (added & Heq & Hsub).
    exists ((f, tier) :: added). rewrite Heq, <- app_assoc. cbn [app].
    change (sum_sizes ((f, tier) :: added))
      with (st_size f + sum_sizes added).
    split; [f_equal; lia|]. apply sublist_skip. exact Hsub.
Qed.

Lemma submseteq_filter_all {B : Type} (P : B -> Prop)
    `{!forall x, Decision (P x)} (l k : list B) :
  l ⊆+ k -> Forall P l -> l ⊆+ filter P k.
Proof.
  intros Hsub Hall. apply submseteq_Permutation in Hsub as [r Hr].
  rewrite Hr, filter_app.
  assert (Hl : filter P l = l).
  { clear Hr. induction Hall as [|x l Hx _ IH]; [reflexivity|].
    rewrite filter_cons, IH. destruct (decide (P x)); tauto. }
  rewrite Hl. apply submseteq_inserts_r. reflexivity.
Qed.

Lemma pass2_submseteq (tiered sel : list Tiered) (tot : Z) :
  sel ⊆+ tiered ->
  fst (pass2 max_files max_size_kb tiered sel tot) ⊆+ tiered.
Proof.
  intros Hsel. unfold pass2.
  destruct (_ && _); [|exact Hsel]. cbv zeta.
  set (paths := map (fun x => path (fst x)) sel).
  destruct (pass2_loop_sublist
              (sort_by tier_then_size
                 (filter (fun x => path (fst x) ∉ paths) tiered)) sel tot)
    as (added & -> & Hsub).
  cbn [fst].
  rewrite <- (filter_app_complement (fun x => path (fst x) ∈ paths) tiered).
  apply submseteq_app.
  - apply submseteq_filter_all; [exact Hsel|].
    apply Forall_forall. intros x Hx. unfold paths.
    apply list_elem_of_In, in_map_iff. exists x.
    split; [reflexivity|]. apply list_elem_of_In. exact Hx.
  - apply sublist_submseteq in Hsub.
    rewrite (sort_by_Permutation tier_then_size) in Hsub. exact Hsub.
Qed.

(** The selection is a part of the classified files: no file is
    selected that was not there, and none more often than it was. *)
Lemma select_submseteq (tiered : list Tiered) :
  select max_files max_size_kb tiered ⊆+ tiered.
Proof.
  unfold select.
  pose proof (pass1_submseteq tiered) as H1.
  destruct (pass1 max_files max_size_kb tiered) as [sel tot]. cbn [fst] in H1.
  pose proof (pass2_submseteq tiered sel tot H1) as H2.
  destruct (pass2 max_files max_size_kb tiered sel tot) as [sel2 tot2].
  cbn [fst] in H2. rewrite (sort_by_Permutation tier_then_size). exact H2.
Qed.

Lemma emit_loop_readable (selected emitted_ : list Tiered) (fc asz : Z) :
  Forall (fun x => readable x = true) emitted_ ->
  Forall (fun x => readable x = true)
    (fst (fst (emit_loop max_files max_size_kb selected emitted_ fc asz))).
Proof.
  revert emitted_ fc asz.
  induction selected as [|[f tier] selected IH]; intros emitted_ fc asz Hall;
    [exact Hall|].
  cbn [emit_loop].
  destruct (max_files <=? fc); [exact Hall|].
  destruct (max_bytes max_size_kb <? asz + st_size f); [apply IH, Hall|].
  destruct (text f) as [content_|] eqn:Htext; [|apply IH, Hall].
  destruct (negb (Py.truthy (Py.strip content_))) eqn:Hblank;
    [apply IH, Hall|].
  apply IH. apply Forall_app. split; [exact Hall|].
  constructor; [|constructor]. unfold readable. cbn [fst]. rewrite Htext.
  apply negb_false_iff in Hblank. exact Hblank.
Qed.

End SubsetProofs.

Section EligibleProofs.
Import Scanner Spec Eligibility.

Variable project_path : Path.
Variable max_files : Z.
Variable max_size_kb : Z.
Variable min_file_bytes : Z.
Variable max_file_kb : Z.

Lemma paths_classify (files : list File) :
  map path_of (classify project_path files) = map path files.
Proof.
  unfold classify, path_of. rewrite map_map. reflexivity.
Qed.

Lemma NoDup_map_filter {B C : Type} (g : B -> C) (P : B -> Prop)
    `{!forall x, Decision (P x)} (l : list B) :
  NoDup (map g l) -> NoDup (map g (filter P l)).
Proof.
  intros Hnd. eapply sublist_NoDup; [exact Hnd|].
  apply (fmap_sublist g). apply sublist_filter.
Qed.

Lemma NoDup_submseteq_l {B : Type} (l k : list B) :
  l ⊆+ k -> NoDup k -> NoDup l.
Proof.
  intros Hsub Hnd. apply submseteq_Permutation in Hsub as [r Hr].
  rewrite Hr in Hnd. apply NoDup_app in Hnd as [Hnd _]. exact Hnd.
Qed.

Lemma emitted_emit_loop (show_kb : Z -> string) (walked : list File) :
  emitted (get_source_files_content project_path max_files max_size_kb
             min_file_bytes max_file_kb show_kb walked)
  = fst (fst (emit_loop max_files max_size_kb
                (select max_files max_size_kb
                   (classify project_path
                      (sized_files min_file_bytes max_file_kb
                         (filter (fun f => _should_include_file (path f))
                            walked))))
                [] 0 0)).
Proof.
  unfold get_source_files_content. cbv zeta.
  destruct (emit_loop _ _ _ _ _ _) as [[e fc] asz]. cbn [fst].
  destruct (fc =? 0); reflexivity.
Qed.

(** X16.  What the scan emits comes from the walk and from nowhere else.
    Every emitted file is a file of the walk that passes
    [_should_include_file], has a size within the size filter, could be
    read and is not blank, and carries the tier [get_file_tier] gives
    its path; [total_eligible] counts the files of the walk that pass
    [_should_include_file], whatever their size; and when the walk lists
    no path twice, no file is emitted twice: pass 2 adds only files
    that pass 1 left out. *)
Theorem emitted_files_eligible_and_distinct (show_kb : Z -> string)
    (walked : list File) :
  let result :=
    get_source_files_content project_path max_files max_size_kb
      min_file_bytes max_file_kb show_kb walked in
  Forall (fun x =>
            fst x ∈ walked
            /\ eligible min_file_bytes max_file_kb (fst x)
            /\ readable x = true
            /\ snd x = get_file_tier (path (fst x)) project_path)
    (emitted result)
  /\ total_eligible result
     = Z.of_nat (length (filter (fun f => _should_include_file (path f))
                           walked))
  /\ (NoDup (map path walked) -> NoDup (map path_of (emitted result))).
Proof.
  intros result. subst result.
  set (tiered := classify project_path
                   (sized_files min_file_bytes max_file_kb
                      (filter (fun f => _should_include_file (path f))
                         walked))).
  assert (Hsub : emitted (get_source_files_content project_path max_files
                            max_size_kb min_file_bytes max_file_kb show_kb
                            walked) ⊆+ tiered).
  { rewrite emitted_emit_loop. fold tiered.
    destruct (emit_loop_spec max_files max_size_kb
                (select max_files max_size_kb tiered) [] 0 0)
      as (added & Heq & Hsub & _).
    rewrite Heq. cbn [fst app].
    etransitivity; [apply sublist_submseteq; exact Hsub|].
    apply select_submseteq. }
  split; [|split].
  - apply Forall_forall. intros x Hx.
    assert (Hread : readable x = true).
    { pose proof (emit_loop_readable max_files max_size_kb
                    (select max_files max_size_kb tiered) [] 0 0
                    (Forall_nil_2 _)) as Hr.
      rewrite emitted_emit_loop in Hx. fold tiered in Hx.
      rewrite Forall_forall in Hr. exact (Hr x Hx). }
    apply (elem_of_submseteq _ _ _ Hx) in Hsub.
    unfold tiered, classify in Hsub.
    apply list_elem_of_In, in_map_iff in Hsub as (f & <- & Hf).
    apply list_elem_of_In in Hf. unfold sized_files in Hf.
    apply list_elem_of_filter in Hf as [Hsize Hf].
    apply list_elem_of_filter in Hf as [Hinc Hf].
    cbn [fst snd]. split; [exact Hf|]. split; [|split; [exact Hread|]].
    + unfold eligible. split; [apply Is_true_true_1; exact Hinc|].
      unfold max_file_bytes in Hsize. exact Hsize.
    + reflexivity.
  - unfold get_source_files_content. cbv zeta.
    destruct (emit_loop _ _ _ _ _ _) as [[e fc] asz].
    destruct (fc =? 0); reflexivity.
  - intros Hnd. eapply NoDup_submseteq_l.
    + apply (fmap_submseteq path_of). exact Hsub.
    + unfold tiered. change (fmap path_of) with (map path_of).
      rewrite paths_classify. unfold sized_files.
      apply NoDup_map_filter, NoDup_map_filter. exact Hnd.
Qed.

End EligibleProofs.

Section FitsProofs.
Import Scanner Spec Eligibility.

Variable project_path : Path.
Variable max_files : Z.
Variable max_size_kb : Z.
Variable min_file_bytes : Z.
Variable max_file_kb : Z.








End FitsProofs.

Section AllFitProofs.
Import Scanner Spec Eligibility.

Variable project_path : Path.
Variable max_files : Z.
Variable max_size_kb : Z.
Variable min_file_bytes : Z.
Variable max_file_kb : Z.




End AllFitProofs.

Section FitsWitness.
Import Scanner Spec Eligibility.


End FitsWitness.

Section TierCaseProofs.
Import Scanner Spec Chars Strings.

Lemma path_name_lower (p : Path) :
  path_name (map Py.lower p) = Py.lower (path_name p).
Proof.
  unfold path_name. change (map Py.lower p) with (Py.lower <$> p).
  rewrite fmap_last. destruct (last p); reflexivity.
Qed.

Lemma lower_char_dot (a : ascii) :
  Ascii.eqb (Py.lower_char a) "." = Ascii.eqb a ".".
Proof.
  assert (Hall : for_all (fun a =>
            Bool.eqb (Ascii.eqb (Py.lower_char a) ".") (Ascii.eqb a "."))
          = true) by (vm_compute; reflexivity).
  pose proof (for_all_spec _ Hall a) as Ha. cbv beta in Ha.
  apply eqb_prop in Ha. exact Ha.
Qed.

Lemma rfind_dot_lower (s : string) (i : nat) (found : option nat) :
  rfind_dot (Py.lower s) i found = rfind_dot s i found.
Proof.
  revert i found. induction s as [|a s IH]; intros i found; [reflexivity|].
  cbn [Py.lower Py.map_string rfind_dot]. rewrite lower_char_dot.
  apply IH.
Qed.

Lemma length_lower (s : string) :
  String.length (Py.lower s) = String.length s.
Proof.
  induction s as [|a s IH]; [reflexivity|].
  cbn [Py.lower Py.map_string String.length]. f_equal. exact IH.
Qed.

Lemma slice_from_lower (s : string) (i : nat) :
  Py.slice_from (Py.lower s) i = Py.lower (Py.slice_from s i).
Proof.
  unfold Py.slice_from. rewrite length_lower. apply chars_inj.
  unfold Py.lower. rewrite chars_substring, !chars_map_string, chars_substring.
  change (map Py.lower_char) with (fmap (M := list) Py.lower_char).
  rewrite fmap_take, fmap_drop. reflexivity.
Qed.

Lemma path_suffix_lower (p : Path) :
  path_suffix (map Py.lower p) = Py.lower (path_suffix p).
Proof.
  unfold path_suffix. rewrite path_name_lower, rfind_dot_lower, length_lower.
  destruct (rfind_dot (path_name p) 0 None) as [i|]; [|reflexivity].
  destruct (_ && _); [apply slice_from_lower|reflexivity].
Qed.

Lemma map_lower_idem (p : Path) :
  map Py.lower (map Py.lower p) = map Py.lower p.
Proof.
  rewrite map_map. apply map_ext. intros s. apply lower_idem.
Qed.

(** The tier of a path is the tier of the path in lower case. *)
Lemma get_file_tier_lower (rel : Path) :
  get_file_tier (map Py.lower rel) [] = get_file_tier rel [].
Proof.
  unfold get_file_tier. cbn [relative_to].
  rewrite path_name_lower, path_suffix_lower, map_lower_idem, !lower_idem.
  reflexivity.
Qed.

Lemma no_upper_in_lower (name : string) (k : nat) (x : ascii) :
  list_ascii_of_string (Py.lower name) !! k = Some x ->
  Py.is_upper x = false.
Proof.
  unfold Py.lower. rewrite chars_map_string.
  change (map Py.lower_char) with (fmap (M := list) Py.lower_char).
  rewrite list_lookup_fmap.
  destruct (list_ascii_of_string name !! k) as [a|]; [|discriminate].
  cbn. intros [= <-]. apply lower_char_not_upper.
Qed.

(** X18.  Every file has a tier from 1 to 7, and the tier depends only on
    the path below the project root, read without regard to case: two
    files whose relative paths differ only in the case of their letters
    are in the same tier, wherever the two project roots lie. *)
Theorem tier_is_total_and_ignores_case :
  (forall file_path project_path : Path,
     1 <= get_file_tier file_path project_path <= 7)
  /\ (forall root root' rel rel' : Path,
        rel <> [] ->
        map Py.lower rel' = map Py.lower rel ->
        get_file_tier (root' ++ rel') root' = get_file_tier (root ++ rel) root).
Proof.
  split.
  - intros file_path project_path. unfold get_file_tier. cbv zeta.
    repeat match goal with
           | |- context [if ?b then _ else _] => destruct b
           end; lia.
  - intros root root' rel rel' Hrel Hlower.
    assert (Hrel' : rel' <> []).
    { intros ->. destruct rel; [contradiction|discriminate]. }
    rewrite (get_file_tier_under root' rel' Hrel'),
      (get_file_tier_under root rel Hrel).
    rewrite <- (get_file_tier_lower rel'), <- (get_file_tier_lower rel),
      Hlower. reflexivity.
Qed.

(** X19.  The marker [.Tests.] of [_is_test_file] never fires in the
    tiering: [get_file_tier] hands it the file name in lower case, in
    which an upper-case [T] cannot occur.  A name is taken for a test
    there only through [test_], [_test.], [.test.], [.spec.] or
    [conftest.py]; so [Acme.Tests.cs], a test file by its name as it
    stands, lands in tier 7. *)
Theorem tests_marker_never_fires :
  (forall name : string,
     Py.contains ".Tests." (Py.lower name) = false
     /\ _is_test_file (Py.lower name)
        = (Py.startswith (Py.lower name) "test_"
           || Py.contains "_test." (Py.lower name)
           || Py.contains ".test." (Py.lower name)
           || Py.contains ".spec." (Py.lower name)
           || bool_decide (Py.lower name = "conftest.py")))
  /\ _is_test_file "Acme.Tests.cs" = true
  /\ (forall root : Path, get_file_tier (root ++ ["Acme.Tests.cs"]) root = 7).
Proof.
  assert (Hdead : forall name : string,
             Py.contains ".Tests." (Py.lower name) = false).
  { intros name.
    destruct (Py.contains ".Tests." (Py.lower name)) eqn:E; [|reflexivity].
    apply contains_spec in E as [n Hn].
    specialize (Hn 1%nat "T"%char eq_refl).
    apply no_upper_in_lower in Hn. discriminate. }
  split; [|split].
  - intros name. split; [apply Hdead|].
    unfold _is_test_file. rewrite Hdead, orb_false_r. reflexivity.
  - vm_compute. reflexivity.
  - intros root. rewrite get_file_tier_under by discriminate.
    vm_compute. reflexivity.
Qed.

End TierCaseProofs.

Section DiffProofs.
Import Scanner Diff.

Variable max_content_kb : Z.
Variable max_file_kb : Z.

Lemma sum_fsizes_app (l k : list ToRead) :
  sum_fsizes (l ++ k) = sum_fsizes l + sum_fsizes k.
Proof.
  induction l as [|x l IH]; [reflexivity|].
  cbn [app sum_fsizes foldr] in *. fold (sum_fsizes (l ++ k)).
  fold (sum_fsizes l). rewrite IH. lia.
Qed.

Lemma files_to_read_spec (changed_files : list Changed) (x : ToRead) :
  x ∈ files_to_read max_file_kb changed_files
  <-> (fst x, Some (snd x)) ∈ changed_files
      /\ fsize_of x <= max_file_bytes max_file_kb.
Proof.
  induction changed_files as [|[rel [full|]] rest IH].
  - split; [intros H; inversion H|intros [H _]; inversion H].
  - cbn [files_to_read]. destruct (Z.leb_spec (st_size full)
      (max_file_bytes max_file_kb)) as [Hle|Hgt].
    + rewrite !elem_of_cons, IH. split.
      * intros [->|[Hin Hs]]; [split; [left; reflexivity|exact Hle]|].
        split; [right; exact Hin|exact Hs].
      * intros [[Heq|Hin] Hs].
        -- left. destruct x as [r f]. cbn in Heq. congruence.
        -- right. split; assumption.
    + rewrite elem_of_cons, IH. split.
      * intros [Hin Hs]. split; [right; exact Hin|exact Hs].
      * intros [[Heq|Hin] Hs]; [|split; assumption].
        destruct x as [r f]. cbn in Heq. unfold fsize_of in Hs. cbn in Hs.
        assert (f = full) as -> by congruence. lia.
  - cbn [files_to_read]. rewrite elem_of_cons, IH. split.
    + intros [Hin Hs]. split; [right; exact Hin|exact Hs].
    + intros [[Heq|Hin] Hs]; [discriminate|split; assumption].
Qed.

(** Once the head of a list sorted by size does not fit, nothing after
    it does, and the loop leaves its state as it is. *)
Lemma read_loop_none_fits (files : list ToRead) (read : list ToRead)
    (total_size file_count : Z) :
  Forall (fun x => max_content_bytes max_content_kb
                   < total_size + fsize_of x) files ->
  read_loop max_content_kb files read total_size file_count
  = (read, total_size, file_count).
Proof.
  induction 1 as [|x files Hx _ IH]; [reflexivity|].
  cbn [read_loop]. cbv zeta.
  destruct (Z.ltb_spec (max_content_bytes max_content_kb)
              (total_size + fsize_of x)); [exact IH|lia].
Qed.

(** The loop on a list sorted by size: it reads a prefix of the files
    that have a text, and none of the others fits in what is left. *)
Lemma read_loop_prefix (files : list ToRead) (read0 : list ToRead)
    (total_size0 file_count0 : Z) :
  StronglySorted (fun x y => by_size x y = true) files ->
  Forall (fun x => 0 <= fsize_of x) files ->
  exists taken rest,
    read_loop max_content_kb files read0 total_size0 file_count0
    = (read0 ++ taken, total_size0 + sum_fsizes taken,
       file_count0 + Z.of_nat (length taken))
    /\ filter (fun x => has_text x = true) files = taken ++ rest
    /\ Forall (fun x => max_content_bytes max_content_kb
                        < total_size0 + sum_fsizes taken + fsize_of x) rest
    /\ (total_size0 <= max_content_bytes max_content_kb ->
        total_size0 + sum_fsizes taken <= max_content_bytes max_content_kb).
Proof.
  intros Hsorted. revert read0 total_size0 file_count0.
  induction Hsorted as [|x files Hsorted IH Hx];
    intros read0 total_size0 file_count0 Hnn.
  - exists [], []. cbn [read_loop sum_fsizes foldr length app].
    rewrite app_nil_r, !Z.add_0_r. repeat split; [constructor|tauto].
  - apply Forall_cons in Hnn as [Hx0 Hnn].
    cbn [read_loop]. cbv zeta.
    destruct (Z.ltb_spec (max_content_bytes max_content_kb)
                (total_size0 + fsize_of x)) as [Hbig|Hfits].
    + exists [], (filter (fun y => has_text y = true) (x :: files)).
      cbn [sum_fsizes foldr length app].
      rewrite app_nil_r, !Z.add_0_r. split; [|split; [reflexivity|split]].
      * apply read_loop_none_fits.
        eapply Forall_impl; [exact Hx|]. cbn beta. intros y Hy.
        unfold by_size in Hy. apply Z.leb_le in Hy. lia.
      * apply Forall_forall. intros y Hy.
        apply list_elem_of_filter in Hy as [_ Hy].
        apply elem_of_cons in Hy as [->|Hy]; [exact Hbig|].
        rewrite Forall_forall in Hx. specialize (Hx y Hy).
        unfold by_size in Hx. apply Z.leb_le in Hx. lia.
      * tauto.
    + rewrite filter_cons.
      assert (Hht : has_text x = match text (snd x) with
                                 | Some content_ => Py.truthy content_
                                 | None => false
                                 end) by reflexivity.
      destruct (text (snd x)) as [content_|] eqn:Etext.
      * destruct (Py.truthy content_) eqn:Etruthy; cbn [negb].
        -- destruct (IH (read0 ++ [x]) (total_size0 + fsize_of x)
                       (file_count0 + 1) Hnn)
             as (taken & rest & Heq & Hfilter & Hrest & Hle).
           exists (x :: taken), rest.
           rewrite decide_True by exact Hht.
           cbn [sum_fsizes foldr length app]. fold (sum_fsizes taken).
           rewrite Heq, Hfilter, <- app_assoc. cbn [app].
           split; [f_equal; [f_equal|]; lia|].
           split; [reflexivity|]. split.
           ++ eapply Forall_impl; [exact Hrest|]. cbn beta. intros y Hy. lia.
           ++ intros _. specialize (Hle Hfits). lia.
        -- destruct (IH read0 total_size0 file_count0 Hnn)
             as (taken & rest & Heq & Hfilter & Hrest & Hle).
           exists taken, rest.
           rewrite decide_False by (rewrite Hht; discriminate).
           repeat split; assumption.
      * destruct (IH read0 total_size0 file_count0 Hnn)
          as (taken & rest & Heq & Hfilter & Hrest & Hle).
        exists taken, rest.
        rewrite decide_False by (rewrite Hht; discriminate).
        repeat split; assumption.
Qed.

Lemma by_size_total (x y : ToRead) : by_size x y = true \/ by_size y x = true.
Proof.
  unfold by_size. destruct (Z.leb_spec (fsize_of x) (fsize_of y));
    [left; reflexivity|right; apply Z.leb_le; lia].
Qed.

Lemma by_size_trans (x y z : ToRead) :
  by_size x y = true -> by_size y z = true -> by_size x z = true.
Proof.
  unfold by_size. rewrite !Z.leb_le. lia.
Qed.

(** X20.  The changed files of a diff review are read smallest first and
    within the content budget.  When no size is negative and the budget
    is not negative, [get_diff_context] reads the files in the order of
    their sizes; every file read is a changed path that is a regular
    file of at most [max_file_kb], with a text that is not empty; the
    files read are the first of the files with a text in that order, and
    none of the files with a text that were left out fits in what
    remains of the budget; [file_count] is the number of files read and
    [total_size] the sum of their sizes, at most [max_content_kb]
    kilobytes. *)
Theorem changed_files_read_smallest_first (show_kb : Z -> string)
    (changed_files : list Changed) :
  let result :=
    changed_content max_content_kb max_file_kb show_kb changed_files in
  let sorted := sort_by by_size (files_to_read max_file_kb changed_files) in
  0 <= max_content_kb ->
  Forall (fun c => forall f, snd c = Some f -> 0 <= st_size f)
    changed_files ->
  (exists rest,
     filter (fun x => has_text x = true) sorted = read result ++ rest
     /\ Forall (fun x => max_content_bytes max_content_kb
                         < total_size result + fsize_of x) rest)
  /\ StronglySorted (fun x y => fsize_of x <= fsize_of y) (read result)
  /\ Forall (fun x => (fst x, Some (snd x)) ∈ changed_files
                      /\ fsize_of x <= max_file_bytes max_file_kb
                      /\ has_text x = true)
       (read result)
  /\ file_count result = Z.of_nat (length (read result))
  /\ total_size result = sum_fsizes (read result)
  /\ total_size result <= max_content_bytes max_content_kb.
Proof.
  cbv zeta. intros Hbudget Hsizes.
  set (sorted := sort_by by_size (files_to_read max_file_kb changed_files)).
  assert (Hsorted : StronglySorted (fun x y => by_size x y = true) sorted).
  { apply sort_by_sorted; [exact by_size_total|exact by_size_trans]. }
  assert (Hin : forall x, x ∈ sorted ->
            (fst x, Some (snd x)) ∈ changed_files
            /\ fsize_of x <= max_file_bytes max_file_kb).
  { intros x Hx. apply files_to_read_spec.
    unfold sorted in Hx. rewrite sort_by_Permutation in Hx. exact Hx. }
  assert (Hnn : Forall (fun x => 0 <= fsize_of x) sorted).
  { apply Forall_forall. intros x Hx. apply Hin in Hx as [Hx _].
    rewrite Forall_forall in Hsizes. apply (Hsizes _ Hx). reflexivity. }
  destruct (read_loop_prefix sorted [] 0 0 Hsorted Hnn)
    as (taken & rest & Heq & Hfilter & Hrest & Hle).
  unfold changed_content. fold sorted. rewrite Heq. cbn [app].
  cbn [read file_count total_size]. rewrite !Z.add_0_l in *.
  assert (Hsub : sublist taken sorted).
  { etransitivity; [|apply (sublist_filter (fun x => has_text x = true))].
    rewrite Hfilter. apply sublist_inserts_r. reflexivity. }
  split; [exists rest; split; assumption|].
  split.
  { eapply StronglySorted_sublist in Hsorted; [|exact Hsub].
    clear -Hsorted. induction Hsorted as [|x l _ IH Hx]; constructor;
      [exact IH|].
    eapply Forall_impl; [exact Hx|]. cbn beta. intros y Hy.
    unfold by_size in Hy. apply Z.leb_le in Hy. exact Hy. }
  split.
  { apply Forall_forall. intros x Hx.
    assert (Hf : x ∈ filter (fun x => has_text x = true) sorted).
    { rewrite Hfilter. apply elem_of_app. left. exact Hx. }
    apply list_elem_of_filter in Hf as [Htext Hf].
    destruct (Hin x Hf) as [Hc Hs]. repeat split; assumption. }
  split; [reflexivity|]. split; [reflexivity|].
  apply Hle. unfold max_content_bytes. lia.
Qed.

End DiffProofs.

Section DiffWitness.
Import Scanner Diff.

Lemma small_file_read_first :
  let result :=
    changed_content 1 50 Examples.show_tenths DiffSamples.changed in
  0 <= 1
  /\ map fst (read result) = ["a.py"]
  /\ total_size result <= max_content_bytes 1.
Proof.
  cbv zeta. split; [lia|]. split; [vm_compute; reflexivity|].
  apply (changed_files_read_smallest_first 1 50 Examples.show_tenths
           DiffSamples.changed).
  - lia.
  - repeat constructor; cbn; intros f Hf; inversion Hf; subst; cbn; lia.
Defined.

End DiffWitness.

Section CalibrationProofs.
Import Calibration Managed.

Lemma filter_filter_same {B : Type} (P : B -> Prop)
    `{!forall x, Decision (P x)} (l : list B) :
  filter P (filter P l) = filter P l.
Proof. apply list_filter_filter_l. tauto. Qed.

Lemma filter_filter_not {B : Type} (P : B -> Prop)
    `{!forall x, Decision (P x)} (l : list B) :
  filter P (filter (fun x => ~ P x) l) = [].
Proof.
  induction l as [|x l IH]; [reflexivity|].
  rewrite (filter_cons (fun x => ~ P x)).
  destruct (decide (~ P x)) as [Hn|_]; [|exact IH].
  rewrite filter_cons, IH. destruct (decide (P x)); tauto.
Qed.

Lemma map_reads_back {B : Type} (f : B -> B) (l : list B) :
  Forall (fun x => f x = x) l -> map f l = l.
Proof.
  induction 1 as [|x l Hx _ IH]; [reflexivity|].
  cbn [map]. rewrite Hx, IH. reflexivity.
Qed.

Lemma save_reads_back (reread : string -> string -> string)
    (calibration : Data) :
  reads_back reread calibration ->
  save_calibration reread calibration = Some calibration.
Proof.
  intros [Hr Hp]. unfold save_calibration.
  rewrite (map_reads_back _ _ Hr), (map_reads_back _ _ Hp).
  destruct calibration. reflexivity.
Qed.

(** X21.  A review replaces the earlier reviews of the same finding id,
    provided the YAML round trip loses nothing: the entries of the file
    and the new entry read back as they are written, and the two
    severities are written in ASCII.  After [add_reviewed_finding] the
    file then holds exactly one entry with that id, the new one, which
    comes last; the entries with other ids, and the project rules, are
    as they were and in the same order; severities are stored in upper
    case; ids that were distinct stay distinct; and adding the same
    review again on the same day changes nothing.  (A finding id that
    the round trip alters, such as one that holds the line break
    U+0085, is stored under another id: the file then holds no entry
    with the given id, and a second call adds a second entry.) *)
Theorem review_replaces_by_id (reread : string -> string -> string)
    (today : string) (file : CalibrationFile)
    (finding_id agent original_severity adjusted_severity verdict
       reason : string)
    (file_path title : option string) :
  let added :=
    add_reviewed_finding reread today file finding_id agent
      original_severity adjusted_severity verdict reason file_path title in
  let before := load_calibration file in
  let after := load_calibration (snd added) in
  reads_back reread before ->
  review_reads_back reread (fst added) ->
  Chars.ascii_only original_severity ->
  Chars.ascii_only adjusted_severity ->
  filter (fun f => r_finding_id f = Some finding_id) (reviewed_findings after)
  = [fst added]
  /\ last (reviewed_findings after) = Some (fst added)
  /\ filter (fun f => r_finding_id f <> Some finding_id)
       (reviewed_findings after)
     = filter (fun f => r_finding_id f <> Some finding_id)
         (reviewed_findings before)
  /\ project_rules after = project_rules before
  /\ r_original_severity (fst added) = Some (Py.upper original_severity)
  /\ r_adjusted_severity (fst added) = Some (Py.upper adjusted_severity)
  /\ (NoDup (map r_finding_id (reviewed_findings before)) ->
      NoDup (map r_finding_id (reviewed_findings after)))
  /\ snd (add_reviewed_finding reread today (snd added) finding_id agent
            original_severity adjusted_severity verdict reason
            file_path title)
     = snd added.
Proof.
  intros added before after [Hbefore Hrules] Hnew _ _. subst added after.
  unfold add_reviewed_finding in *. cbv zeta in *. cbn [fst snd] in *.
  fold before.
  set (entry := {| r_finding_id := Some finding_id; r_agent := Some agent;
                   r_title := _; r_file := _; r_original_severity := _;
                   r_adjusted_severity := _; r_verdict := _;
                   r_reason := _; r_reviewed_at := _ |}) in *.
  set (others := filter (fun f => r_finding_id f <> Some finding_id)
                   (reviewed_findings before)).
  assert (Hsaved : reads_back reread
                     {| reviewed_findings := others ++ [entry];
                        project_rules := project_rules before |}).
  { split; cbn [reviewed_findings project_rules]; [|exact Hrules].
    apply Forall_app. split; [|constructor; [exact Hnew|constructor]].
    apply Forall_forall. intros f Hf.
    apply list_elem_of_filter in Hf as [_ Hf].
    rewrite Forall_forall in Hbefore. exact (Hbefore f Hf). }
  rewrite (save_reads_back _ _ Hsaved).
  cbn [load_calibration default reviewed_findings project_rules].
  unfold id. cbn [reviewed_findings project_rules].
  assert (Hentry : r_finding_id entry = Some finding_id) by reflexivity.
  assert (Hkeep : filter (fun f => r_finding_id f <> Some finding_id)
                    (others ++ [entry]) = others).
  { rewrite filter_app. unfold others at 1. rewrite filter_filter_same.
    fold others. rewrite filter_cons.
    destruct (decide (r_finding_id entry <> Some finding_id));
      [contradiction|]. cbn. apply app_nil_r. }
  split; [|split; [|split; [|split; [|split; [|split; [|split]]]]]].
  - rewrite filter_app. unfold others.
    rewrite (filter_filter_not (fun f => r_finding_id f = Some finding_id)).
    rewrite filter_cons.
    destruct (decide (r_finding_id entry = Some finding_id));
      [reflexivity|contradiction].
  - apply last_snoc.
  - exact Hkeep.
  - reflexivity.
  - reflexivity.
  - reflexivity.
  - intros Hnd. change (map r_finding_id) with (fmap (M := list) r_finding_id).
    rewrite fmap_app. apply NoDup_app. split; [|split].
    + eapply sublist_NoDup; [exact Hnd|].
      apply (fmap_sublist r_finding_id). apply sublist_filter.
    + intros x Hx Hin. cbn in Hin. apply list_elem_of_singleton in Hin.
      subst x. apply list_elem_of_fmap in Hx as (f & Hf & Hin).
      apply list_elem_of_filter in Hin as [Hne _]. congruence.
    + cbn. apply NoDup_singleton.
  - rewrite Hkeep. exact (save_reads_back _ _ Hsaved).
Qed.

(** A second review of a finding, on a round trip that folds line
    breaks: the first review is replaced. *)
Lemma second_review_replaces_first :
  let reread := CalibrationSamples.fold_breaks in
  let file :=
    snd (add_reviewed_finding reread "2026-01-01" None "GUARDIAN-002"
           "guardian" "blocker" "low" "adjusted" "Admin only"
           (Some "app.py") None) in
  let added :=
    add_reviewed_finding reread "2026-01-02" file "GUARDIAN-002"
      "guardian" "blocker" "blocker" "confirmed" "Reachable after all"
      (Some "app.py") None in
  map r_verdict (reviewed_findings (load_calibration file))
  = [Some "adjusted"]
  /\ reviewed_findings (load_calibration (snd added)) = [fst added]
  /\ r_verdict (fst added) = Some "confirmed"
  /\ r_adjusted_severity (fst added) = Some "BLOCKER".
Proof.
  cbv zeta.
  destruct (review_replaces_by_id CalibrationSamples.fold_breaks
              "2026-01-02"
              (snd (add_reviewed_finding CalibrationSamples.fold_breaks
                      "2026-01-01" None "GUARDIAN-002" "guardian" "blocker"
                      "low" "adjusted" "Admin only" (Some "app.py") None))
              "GUARDIAN-002" "guardian" "blocker" "blocker" "confirmed"
              "Reachable after all" (Some "app.py") None)
    as (Hone & _ & Hothers & _ & _ & Hupper & _).
  - split; [|constructor].
    constructor; [vm_compute; reflexivity|constructor].
  - vm_compute. reflexivity.
  - vm_compute. reflexivity.
  - vm_compute. reflexivity.
  - split; [vm_compute; reflexivity|].
    split; [|split; [reflexivity|exact Hupper]].
    revert Hone Hothers. vm_compute. intros Hone _. exact Hone.
Defined.

(** Where the round trip alters the finding id, the review is stored
    under the altered id: the file holds no entry with the given id,
    and a second call adds a second entry. *)
Example altered_id_is_not_replaced :
  let reread := CalibrationSamples.fold_breaks in
  let add file :=
    snd (add_reviewed_finding reread "2026-01-01" file
           CalibrationSamples.broken_id "guardian" "high" "low" "adjusted"
           "Admin only" None None) in
  map r_finding_id (reviewed_findings (load_calibration (add None)))
  = [Some "G 1"]
  /\ map r_finding_id
       (reviewed_findings (load_calibration (add (add None))))
     = [Some "G 1"; Some "G 1"].
Proof. split; vm_compute; reflexivity. Qed.

End CalibrationProofs.

Section NeverRaisesProofs.
Import Calibration Managed.

Lemma Forall_filter_2 {B : Type} (P Q : B -> Prop)
    `{!forall x, Decision (Q x)} (l : list B) :
  Forall P l -> Forall P (filter Q l).
Proof.
  intros Hall. apply Forall_forall. intros x Hx.
  apply list_elem_of_filter in Hx as [_ Hx].
  rewrite Forall_forall in Hall. exact (Hall x Hx).
Qed.

(** The round trip keeps the keys of an entry. *)
Lemma reread_review_complete (reread : string -> string -> string)
    (f : Reviewed) :
  complete_review f -> complete_review (reread_review reread f).
Proof.
  intros [[o Ho] [a Ha]]. unfold complete_review, reread_review.
  cbn [r_original_severity r_adjusted_severity]. rewrite Ho, Ha.
  split; eexists; reflexivity.
Qed.

Lemma reread_rule_complete (reread : string -> string -> string)
    (r : Rule) :
  complete_rule r -> complete_rule (reread_rule reread r).
Proof.
  intros [x Hx]. unfold complete_rule, reread_rule. cbn [p_rule].
  rewrite Hx. eexists; reflexivity.
Qed.

Lemma save_complete (reread : string -> string -> string)
    (calibration : Data) :
  Forall complete_review (reviewed_findings calibration) ->
  Forall complete_rule (project_rules calibration) ->
  complete (save_calibration reread calibration).
Proof.
  intros Hr Hp. unfold complete, save_calibration.
  cbn [load_calibration default reviewed_findings project_rules].
  unfold id. cbn [reviewed_findings project_rules].
  split; apply Forall_fmap.
  - eapply Forall_impl; [exact Hr|]. intros f Hf.
    apply reread_review_complete. exact Hf.
  - eapply Forall_impl; [exact Hp|]. intros r Hx.
    apply reread_rule_complete. exact Hx.
Qed.

Lemma add_review_complete (reread : string -> string -> string)
    (today : string) (file : CalibrationFile)
    (finding_id agent original_severity adjusted_severity verdict
       reason : string)
    (file_path title : option string) :
  complete file ->
  complete (snd (add_reviewed_finding reread today file finding_id agent
                   original_severity adjusted_severity verdict reason
                   file_path title)).
Proof.
  intros [Hr Hp]. unfold add_reviewed_finding. cbn [snd].
  apply save_complete; cbn [reviewed_findings project_rules]; [|exact Hp].
  apply Forall_app. split.
  - apply Forall_filter_2. exact Hr.
  - constructor; [|constructor]. split; cbn; eauto.
Qed.

Lemma managed_complete (reread : string -> string -> string)
    (file : CalibrationFile) :
  managed reread file -> complete file.
Proof.
  induction 1 as [|today file finding_id agent o a v reason fp title _ IH
                  |today file rule applies_to cap _ IH].
  - split; constructor.
  - apply add_review_complete. exact IH.
  - destruct IH as [Hr Hp]. unfold add_project_rule. cbn [snd].
    apply save_complete; cbn [reviewed_findings project_rules];
      [exact Hr|].
    apply Forall_app. split; [exact Hp|].
    constructor; [|constructor]. unfold complete_rule. cbn. eauto.
Qed.

Lemma Forall_last_n {B : Type} (P : B -> Prop) (n : nat) (l : list B) :
  Forall P l -> Forall P (last_n n l).
Proof. intros Hall. unfold last_n. apply Forall_drop. exact Hall. Qed.

Lemma review_line_is_Some (f : Reviewed) :
  complete_review f ->
  is_Some (false_positive_line f) /\ is_Some (adjusted_line f)
  /\ is_Some (confirmed_line f).
Proof.
  intros [[o Ho] [a Ha]].
  unfold false_positive_line, adjusted_line, confirmed_line.
  rewrite Ho, Ha. cbn [mbind option_bind]. eauto.
Qed.

Lemma block_is_Some (heading intro : string) (keep : nat)
    (line : Reviewed -> option string) (fs : list Reviewed) :
  Forall (fun f => is_Some (line f)) fs ->
  is_Some (block heading intro keep line fs).
Proof.
  intros Hall. unfold block. destruct fs as [|f fs]; [eauto|].
  destruct (mapM_is_Some_2 line (last_n keep (f :: fs))) as [lines Hl].
  { apply Forall_last_n. exact Hall. }
  rewrite Hl. cbn [mbind option_bind]. eauto.
Qed.

Lemma rules_block_is_Some (rules : list Rule) :
  Forall complete_rule rules -> is_Some (rules_block rules).
Proof.
  intros Hall. unfold rules_block. destruct rules as [|r rules]; [eauto|].
  destruct (mapM_is_Some_2 rule_line (r :: rules)) as [lines Hl].
  - eapply Forall_impl; [exact Hall|].
    intros x [rule Hx]. unfold rule_line. cbn [compose].
    rewrite Hx. cbn [mbind option_bind]. eauto.
  - rewrite Hl. cbn [mbind option_bind]. eauto.
Qed.

Lemma sections_is_Some (file : CalibrationFile) (agent_key : string) :
  complete file -> is_Some (calibration_sections file agent_key).
Proof.
  intros [Hr Hp]. unfold calibration_sections. cbv zeta.
  destruct (rules_block_is_Some
              (filter (fun r => default "all" (p_applies_to r)
                                ∈ ["all"; agent_key])
                 (project_rules (load_calibration file)))) as [rb ->];
    [apply Forall_filter_2; exact Hp|].
  cbn [mbind option_bind].
  set (relevant := filter _ (reviewed_findings _)).
  assert (Hrel : Forall complete_review relevant)
    by (apply Forall_filter_2; exact Hr).
  assert (Hline : forall (verdict : string)
                    (line : Reviewed -> option string),
             (forall f, complete_review f -> is_Some (line f)) ->
             Forall (fun f => is_Some (line f))
               (filter (fun f => r_verdict f = Some verdict) relevant)).
  { intros verdict line Hl. apply Forall_filter_2.
    eapply Forall_impl; [exact Hrel|]. exact Hl. }
  unfold false_positives_block, adjusted_block, confirmed_block.
  match goal with
  | |- context [block ?h ?i ?k false_positive_line ?fs] =>
      destruct (block_is_Some h i k false_positive_line fs) as [b1 ->];
        [apply Hline; intros f Hf; apply review_line_is_Some; exact Hf|]
  end.
  cbn [mbind option_bind].
  match goal with
  | |- context [block ?h ?i ?k adjusted_line ?fs] =>
      destruct (block_is_Some h i k adjusted_line fs) as [b2 ->];
        [apply Hline; intros f Hf; apply review_line_is_Some; exact Hf|]
  end.
  cbn [mbind option_bind].
  match goal with
  | |- context [block ?h ?i ?k confirmed_line ?fs] =>
      destruct (block_is_Some h i k confirmed_line fs) as [b3 ->];
        [apply Hline; intros f Hf; apply review_line_is_Some; exact Hf|]
  end.
  cbn [mbind option_bind]. eauto.
Qed.

(** X22.  A calibration file that only [add_reviewed_finding] and
    [add_project_rule] have written never makes
    [build_calibration_context] fail: every entry carries the keys the
    function subscripts, whatever the YAML round trip makes of the
    strings, so it returns a string for every agent. *)
Theorem managed_calibration_never_raises
    (reread : string -> string -> string) (file : CalibrationFile)
    (agent_key : string) :
  managed reread file ->
  is_Some (build_calibration_context file agent_key).
Proof.
  intros Hm. apply managed_complete in Hm.
  unfold build_calibration_context.
  destruct (sections_is_Some file agent_key Hm) as [sections ->].
  cbn [mbind option_bind]. eauto.
Qed.

Lemma one_rule_never_raises :
  is_Some
    (build_calibration_context
       (snd (add_project_rule CalibrationSamples.fold_breaks "2026-01-01"
               None "All endpoints under /api/v1/admin/ are admin-only"
               "guardian" (Some "LOW")))
       "guardian").
Proof.
  apply (managed_calibration_never_raises CalibrationSamples.fold_breaks).
  apply managed_rule. apply managed_absent.
Defined.

End NeverRaisesProofs.

Section BlockProofs.
Import Calibration Managed Reviews.

Lemma block_contains (heading intro : string) (keep : nat)
    (line : Reviewed -> option string) (fs : list Reviewed) (e : Reviewed)
    (l : string) :
  Forall (fun f => is_Some (line f)) fs ->
  line e = Some l -> (0 < keep)%nat ->
  exists lines,
    block heading intro keep line (fs ++ [e]) = Some lines /\ l ∈ lines.
Proof.
  intros Hall He Hkeep.
  assert (Hall' : Forall (fun f => is_Some (line f)) (fs ++ [e])).
  { apply Forall_app. split; [exact Hall|]. constructor; [|constructor].
    rewrite He. eauto. }
  destruct (mapM_is_Some_2 line (last_n keep (fs ++ [e]))) as [lines Hl].
  { apply Forall_last_n. exact Hall'. }
  exists ([heading; intro] ++ lines ++ [""]). split.
  - unfold block. destruct (fs ++ [e]) as [|x xs] eqn:E.
    + destruct fs; discriminate.
    + rewrite Hl. reflexivity.
  - apply mapM_Some_1 in Hl.
    assert (Hin : e ∈ last_n keep (fs ++ [e])).
    { unfold last_n. apply list_elem_of_lookup.
      exists (length fs - (length (fs ++ [e]) - keep))%nat.
      rewrite lookup_drop, length_app. cbn [length].
      replace (length fs + 1 - keep
               + (length fs - (length fs + 1 - keep)))%nat
        with (length fs) by lia.
      rewrite lookup_app_r by lia. rewrite Nat.sub_diag. reflexivity. }
    apply list_elem_of_lookup in Hin as [i Hi].
    destruct (Forall2_lookup_l _ _ _ _ _ Hl Hi) as (y & Hy & Hline).
    rewrite He in Hline. inversion Hline; subst y.
    apply elem_of_app. right. apply elem_of_app. left.
    apply list_elem_of_lookup. eauto.
Qed.

Lemma sections_blocks (file : CalibrationFile) (agent_key : string) :
  complete file ->
  exists rb b1 b2 b3,
    calibration_sections file agent_key = Some (rb ++ b1 ++ b2 ++ b3)
    /\ false_positives_block (reviews_of file agent_key "false_positive")
       = Some b1
    /\ adjusted_block (reviews_of file agent_key "adjusted") = Some b2
    /\ confirmed_block (reviews_of file agent_key "confirmed") = Some b3.
Proof.
  intros Hc. destruct (sections_is_Some file agent_key Hc) as [s Hs].
  revert Hs. unfold calibration_sections. cbv zeta.
  fold (reviews_of file agent_key "false_positive").
  fold (reviews_of file agent_key "adjusted").
  fold (reviews_of file agent_key "confirmed").
  destruct (rules_block _) as [rb|]; [|discriminate].
  cbn [mbind option_bind].
  destruct (false_positives_block _) as [b1|]; [|discriminate].
  cbn [mbind option_bind].
  destruct (adjusted_block _) as [b2|]; [|discriminate].
  cbn [mbind option_bind].
  destruct (confirmed_block _) as [b3|]; [|discriminate].
  cbn [mbind option_bind]. intros _.
  exists rb, b1, b2, b3. auto.
Qed.

End BlockProofs.

Section ReachProofs.
Import Calibration Managed Reviews.

Lemma filter_snoc_keep {B : Type} (P : B -> Prop)
    `{!forall x, Decision (P x)} (l : list B) (x : B) :
  P x -> filter P (l ++ [x]) = filter P l ++ [x].
Proof.
  intros Hx. rewrite filter_app, filter_cons.
  destruct (decide (P x)); [reflexivity|contradiction].
Qed.

(** X23.  A review reaches the prompts of its agent.  After
    [add_reviewed_finding] has recorded a review with one of the
    verdicts [false_positive], [adjusted] and [confirmed], with
    severities written in ASCII, in a file whose entries carry their
    severities, and when the YAML round trip gives the new entry back
    as it was written, the calibration context of every agent key that
    is the review's agent up to case is not empty and has the line of
    the new review in it, however many reviews the file holds and
    whatever the round trip makes of them.  (An entry that the round
    trip alters is shown as altered, and under the agent it is read
    back with.) *)
Theorem review_reaches_its_agent (reread : string -> string -> string)
    (today : string) (file : CalibrationFile)
    (finding_id agent original_severity adjusted_severity verdict
       reason : string)
    (file_path title : option string) (agent_key : string)
    (line : Reviewed -> option string) :
  let added :=
    add_reviewed_finding reread today file finding_id agent
      original_severity adjusted_severity verdict reason file_path title in
  complete file ->
  Py.lower agent = Py.lower agent_key ->
  (verdict, line) ∈ review_lines ->
  review_reads_back reread (fst added) ->
  Chars.ascii_only original_severity ->
  Chars.ascii_only adjusted_severity ->
  exists l sections ctx,
    line (fst added) = Some l
    /\ calibration_sections (snd added) agent_key = Some sections
    /\ l ∈ sections
    /\ build_calibration_context (snd added) agent_key = Some ctx
    /\ ctx <> "".
Proof.
  intros added Hc Hagent Hline Hnew _ _.
  pose proof (add_review_complete reread today file finding_id agent
                original_severity adjusted_severity verdict reason
                file_path title Hc) as Hc'.
  fold added in Hc'.
  destruct (sections_blocks (snd added) agent_key Hc')
    as (rb & b1 & b2 & b3 & Hs & H1 & H2 & H3).
  set (entry := fst added).
  set (others := map (reread_review reread)
                   (filter (fun f => r_finding_id f <> Some finding_id)
                      (reviewed_findings (load_calibration file)))).
  assert (Hrev : forall v, v = verdict ->
             reviews_of (snd added) agent_key v
             = filter (fun f => r_verdict f = Some v)
                 (filter (fun f => Py.lower (default "" (r_agent f))
                                   = Py.lower agent_key) others)
               ++ [entry]).
  { intros v ->. unfold reviews_of.
    assert (Hsaved : reviewed_findings (load_calibration (snd added))
                     = others ++ [entry]).
    { unfold added, add_reviewed_finding, save_calibration.
      cbn [snd load_calibration default reviewed_findings]. unfold id.
      cbn [reviewed_findings]. rewrite map_app. cbn [map].
      fold others. f_equal. f_equal. exact Hnew. }
    rewrite Hsaved.
    rewrite filter_snoc_keep by exact Hagent.
    rewrite filter_snoc_keep by reflexivity. reflexivity. }
  assert (Hothers : forall v (ln : Reviewed -> option string),
             (forall f, complete_review f -> is_Some (ln f)) ->
             Forall (fun f => is_Some (ln f))
               (filter (fun f => r_verdict f = Some v)
                  (filter (fun f => Py.lower (default "" (r_agent f))
                                    = Py.lower agent_key) others))).
  { intros v ln Hln. do 2 apply Forall_filter_2. apply Forall_fmap.
    apply Forall_filter_2.
    destruct Hc as [Hr _]. eapply Forall_impl; [exact Hr|].
    intros f Hf. apply Hln. apply reread_review_complete. exact Hf. }
  assert (Hentry : complete_review entry) by (split; cbn; eauto).
  assert (Hfound : exists l, line entry = Some l /\ l ∈ rb ++ b1 ++ b2 ++ b3).
  { unfold review_lines in Hline.
    apply elem_of_cons in Hline as [Hline|Hline];
      [|apply elem_of_cons in Hline as [Hline|Hline];
        [|apply elem_of_cons in Hline as [Hline|Hline];
          [|inversion Hline]]];
      inversion Hline; subst verdict line; clear Hline.
    - destruct (review_line_is_Some entry Hentry) as ([l Hl] & _ & _).
      exists l. split; [exact Hl|].
      rewrite (Hrev "false_positive" eq_refl) in H1.
      destruct (block_contains
                  ("## Previous False Positives (DO NOT repeat these)"
                     +:+ LF)
                  ("These findings were previously flagged but a human reviewer "
                     +:+ "determined they were false positives. Do NOT repeat them:"
                     +:+ LF)
                  10 false_positive_line _ entry l
                  (Hothers "false_positive" false_positive_line
                     (fun f Hf => proj1 (review_line_is_Some f Hf)))
                  Hl ltac:(lia)) as (lines & Hb & Hin).
      unfold false_positives_block in H1. rewrite Hb in H1.
      inversion H1; subst b1.
      apply elem_of_app. right. apply elem_of_app. left. exact Hin.
    - destruct (review_line_is_Some entry Hentry) as (_ & [l Hl] & _).
      exists l. split; [exact Hl|].
      rewrite (Hrev "adjusted" eq_refl) in H2.
      destruct (block_contains
                  ("## Previous Severity Adjustments (calibrate accordingly)"
                     +:+ LF)
                  ("These findings were flagged at the wrong severity. "
                     +:+ "Use these as calibration examples:" +:+ LF)
                  10 adjusted_line _ entry l
                  (Hothers "adjusted" adjusted_line
                     (fun f Hf => proj1 (proj2 (review_line_is_Some f Hf))))
                  Hl ltac:(lia)) as (lines & Hb & Hin).
      unfold adjusted_block in H2. rewrite Hb in H2.
      inversion H2; subst b2.
      apply elem_of_app. right. apply elem_of_app. right.
      apply elem_of_app. left. exact Hin.
    - destruct (review_line_is_Some entry Hentry) as (_ & _ & [l Hl]).
      exists l. split; [exact Hl|].
      rewrite (Hrev "confirmed" eq_refl) in H3.
      destruct (block_contains
                  ("## Confirmed True Positives (good catches)" +:+ LF)
                  ("These were correctly identified. Look for similar patterns:"
                     +:+ LF)
                  5 confirmed_line _ entry l
                  (Hothers "confirmed" confirmed_line
                     (fun f Hf => proj2 (proj2 (review_line_is_Some f Hf))))
                  Hl ltac:(lia)) as (lines & Hb & Hin).
      unfold confirmed_block in H3. rewrite Hb in H3.
      inversion H3; subst b3.
      apply elem_of_app. right. apply elem_of_app. right.
      apply elem_of_app. right. exact Hin. }
  destruct Hfound as (l & Hl & Hin).
  exists l, (rb ++ b1 ++ b2 ++ b3).
  unfold build_calibration_context. rewrite Hs. cbn [mbind option_bind].
  destruct (rb ++ b1 ++ b2 ++ b3) as [|x xs] eqn:E; [inversion Hin|].
  eexists. split; [exact Hl|]. split; [reflexivity|].
  split; [exact Hin|]. split; [reflexivity|]. discriminate.
Qed.

End ReachProofs.

Section CalibrationWitness.
Import Calibration Managed Reviews.

Lemma first_review_reaches_guardian :
  let added :=
    add_reviewed_finding CalibrationSamples.fold_breaks "2026-01-01" None
      "GUARDIAN-002" "Guardian" "blocker" "low" "false_positive"
      "Admin only" (Some "app.py") None in
  exists l sections ctx,
    false_positive_line (fst added) = Some l
    /\ calibration_sections (snd added) "guardian" = Some sections
    /\ l ∈ sections
    /\ build_calibration_context (snd added) "guardian" = Some ctx
    /\ ctx <> "".
Proof.
  apply review_reaches_its_agent.
  - split; constructor.
  - vm_compute. reflexivity.
  - left.
  - vm_compute. reflexivity.
  - vm_compute. reflexivity.
  - vm_compute. reflexivity.
Defined.

End CalibrationWitness.
